(** * SceneManager: texture registry, material catalog and shader binding

    A shallow embedding of [Source/SceneManager.cpp] and
    [Source/SceneManager.h].  The C++ object and the external state it
    drives (shader uniforms, the OpenGL texture units, the console, the
    mesh library) are threaded explicitly through a small state-and-error
    monad; [None] stands for undefined behaviour of the C++ program (a
    null dereference or an access outside a fixed-size array). *)

From Stdlib Require Import ZArith String List Ring.
From Stdlib Require Import Floats.SpecFloat.
From stdpp Require Import gmap strings list vector.

Local Open Scope Z_scope.

(** ** IEEE-754 binary32, the C++ [float]

    Values are [spec_float]s of the Standard Library with precision 24 and
    maximal exponent 128; arithmetic is the correctly rounded arithmetic of
    [SpecFloat].  Decimal literals are rounded to nearest-even, as a C++
    compiler does. *)

Module Ieee.
Section Format.
Variables prec emax : Z.

(** The correctly rounded quotient of two positive integers. *)
Definition of_ratio (n d : positive) : spec_float :=
  SFdiv prec emax (S754_finite false n 0) (S754_finite false d 0).

Definition of_Z (z : Z) : spec_float :=
  binary_normalize prec emax z 0 false.

(** A literal [i.f] denotes the integer [if] divided by [10 ^ |f|]. *)
Definition of_decimal (d : Decimal.decimal) : option spec_float :=
  match d with
  | Decimal.Decimal i f =>
      let digits :=
        Decimal.app (match i with Decimal.Pos u | Decimal.Neg u => u end) f in
      let negative :=
        match i with Decimal.Pos _ => false | Decimal.Neg _ => true end in
      let magnitude :=
        match Pos.of_uint digits with
        | N0 => S754_zero false
        | Npos m => of_ratio m (Z.to_pos (10 ^ Z.of_nat (Decimal.nb_digits f)))
        end in
      Some (if negative then SFopp magnitude else magnitude)
  | Decimal.DecimalExp _ _ _ => None
  end.

Definition of_number (n : Number.number) : option spec_float :=
  match n with
  | Number.Decimal d => of_decimal d
  | Number.Hexadecimal _ => None
  end.

(** Conversion from another format: the value is rounded once more. *)
Definition convert (x : spec_float) : spec_float :=
  match x with
  | S754_finite s m e => binary_normalize prec emax (cond_Zopp s (Zpos m)) e s
  | _ => x
  end.
End Format.

Definition no_printing (x : spec_float) : option Number.number := None.
End Ieee.

Definition float : Type := spec_float.
Definition double : Type := spec_float.

Declare Scope float_scope.
Delimit Scope float_scope with f.
Declare Scope double_scope.
Delimit Scope double_scope with d.
Bind Scope float_scope with float.
Bind Scope double_scope with double.

Definition float_of_number := Ieee.of_number 24 128.
Definition double_of_number := Ieee.of_number 53 1024.

Number Notation spec_float float_of_number Ieee.no_printing : float_scope.
Number Notation spec_float double_of_number Ieee.no_printing : double_scope.

Module F32.
Definition add : float -> float -> float := SFadd 24 128.
Definition sub : float -> float -> float := SFsub 24 128.
Definition mul : float -> float -> float := SFmul 24 128.
Definition div : float -> float -> float := SFdiv 24 128.
Definition sqrt : float -> float := SFsqrt 24 128.
(** [static_cast<float>] of a [double] and of an [int]. *)
Definition of_double : double -> float := Ieee.convert 24 128.
Definition of_int : Z -> float := Ieee.of_Z 24 128.
End F32.

Infix "+" := F32.add : float_scope.
Infix "-" := F32.sub : float_scope.
Infix "*" := F32.mul : float_scope.
Infix "/" := F32.div : float_scope.

(** ** The part of GLM that [SetTransformations] uses

    GLM is a third-party header library; the definitions below follow its
    scalar reference implementation ([glm/ext/matrix_transform.inl],
    [glm/gtx/transform.inl], [glm/detail/type_mat4x4.inl],
    [glm/detail/func_geometric.inl]) with the template argument fixed to
    [float].  Matrices are column-major: [m[i]] is the i-th column. *)

Module glm.
Record vec2 : Type := Vec2 { u2 : float; v2 : float }.
Record vec3 : Type := Vec3 { x3 : float; y3 : float; z3 : float }.
Record vec4 : Type :=
  Vec4 { x4 : float; y4 : float; z4 : float; w4 : float }.
Record mat4 : Type :=
  Mat4 { col0 : vec4; col1 : vec4; col2 : vec4; col3 : vec4 }.

Section WithLibm.
(** [std::cos] and [std::sin] on [float], from the C library. *)
Variables cosf sinf : float -> float.

Local Open Scope float_scope.

Definition vec3_scale (k : float) (v : vec3) : vec3 :=
  Vec3 (k * x3 v) (k * y3 v) (k * z3 v).

Definition vec4_scale (v : vec4) (k : float) : vec4 :=
  Vec4 (x4 v * k) (y4 v * k) (z4 v * k) (w4 v * k).

Definition vec4_add (a b : vec4) : vec4 :=
  Vec4 (x4 a + x4 b) (y4 a + y4 b) (z4 a + z4 b) (w4 a + w4 b).

(** [mat4(1.0f)] *)
Definition identity : mat4 :=
  Mat4 (Vec4 1 0 0 0) (Vec4 0 1 0 0) (Vec4 0 0 1 0) (Vec4 0 0 0 1).

(** [glm::radians]: [degrees * static_cast<float>(0.0174532925...)]. *)
Definition radians (degrees : float) : float :=
  degrees * F32.of_double (0.01745329251994329576923690768489)%d.

Definition dot (a b : vec3) : float :=
  (x3 a * x3 b) + (y3 a * y3 b) + (z3 a * z3 b).

Definition inversesqrt (x : float) : float := 1 / F32.sqrt x.

Definition normalize (v : vec3) : vec3 :=
  let k := inversesqrt (dot v v) in
  Vec3 (x3 v * k) (y3 v * k) (z3 v * k).

(** [operator*(mat4, mat4)] *)
Definition mat4_mul_col (m1 : mat4) (b : vec4) : vec4 :=
  vec4_add
    (vec4_add
       (vec4_add (vec4_scale (col0 m1) (x4 b)) (vec4_scale (col1 m1) (y4 b)))
       (vec4_scale (col2 m1) (z4 b)))
    (vec4_scale (col3 m1) (w4 b)).

Definition mat4_mul (m1 m2 : mat4) : mat4 :=
  Mat4 (mat4_mul_col m1 (col0 m2)) (mat4_mul_col m1 (col1 m2))
       (mat4_mul_col m1 (col2 m2)) (mat4_mul_col m1 (col3 m2)).

(** [glm::translate(m, v)] *)
Definition translate_mat (m : mat4) (v : vec3) : mat4 :=
  Mat4 (col0 m) (col1 m) (col2 m)
       (vec4_add
          (vec4_add
             (vec4_add (vec4_scale (col0 m) (x3 v)) (vec4_scale (col1 m) (y3 v)))
             (vec4_scale (col2 m) (z3 v)))
          (col3 m)).

(** [glm::scale(m, v)] *)
Definition scale_mat (m : mat4) (v : vec3) : mat4 :=
  Mat4 (vec4_scale (col0 m) (x3 v)) (vec4_scale (col1 m) (y3 v))
       (vec4_scale (col2 m) (z3 v)) (col3 m).

(** [glm::rotate(m, angle, v)] *)
Definition rotate_mat (m : mat4) (angle : float) (v : vec3) : mat4 :=
  let a := angle in
  let c := cosf a in
  let s := sinf a in
  let axis := normalize v in
  let temp := vec3_scale (1 - c) axis in
  let r00 := c + x3 temp * x3 axis in
  let r01 := x3 temp * y3 axis + s * z3 axis in
  let r02 := x3 temp * z3 axis - s * y3 axis in
  let r10 := y3 temp * x3 axis - s * z3 axis in
  let r11 := c + y3 temp * y3 axis in
  let r12 := y3 temp * z3 axis + s * x3 axis in
  let r20 := z3 temp * x3 axis + s * y3 axis in
  let r21 := z3 temp * y3 axis - s * x3 axis in
  let r22 := c + z3 temp * z3 axis in
  let column r0 r1 r2 :=
    vec4_add
      (vec4_add (vec4_scale (col0 m) r0) (vec4_scale (col1 m) r1))
      (vec4_scale (col2 m) r2) in
  Mat4 (column r00 r01 r02) (column r10 r11 r12) (column r20 r21 r22)
       (col3 m).

(** The one-argument forms of [glm/gtx/transform.hpp]. *)
Definition translate (v : vec3) : mat4 := translate_mat identity v.
Definition rotate (angle : float) (v : vec3) : mat4 :=
  rotate_mat identity angle v.
Definition scale (v : vec3) : mat4 := scale_mat identity v.
End WithLibm.
End glm.

Infix "×" := glm.mat4_mul (at level 40, left associativity).

(** ** External collaborators

    None of these is code of this repository; each is modelled by the state
    it keeps and the calls [SceneManager] makes on it. *)

(** *** ShaderManager: the named-uniform store of the shader program *)

Inductive UniformValue : Type :=
| UBool (b : bool)
| UInt (i : Z)
| UFloat (f : float)
| UVec2 (v : glm.vec2)
| UVec3 (v : glm.vec3)
| UVec4 (v : glm.vec4)
| UMat4 (m : glm.mat4)
| USampler2D (slot : Z).

Record ShaderManager : Type :=
  { uniforms : gmap string UniformValue }.

Definition set_uniform (name : string) (v : UniformValue)
    (sh : ShaderManager) : ShaderManager :=
  {| uniforms := <[name := v]> (uniforms sh) |}.

Definition setBoolValue name (b : bool) := set_uniform name (UBool b).
Definition setIntValue name (i : Z) := set_uniform name (UInt i).
Definition setFloatValue name (f : float) := set_uniform name (UFloat f).
Definition setVec2Value name (v : glm.vec2) := set_uniform name (UVec2 v).
Definition setVec3Value name (v : glm.vec3) := set_uniform name (UVec3 v).
Definition setVec4Value name (v : glm.vec4) := set_uniform name (UVec4 v).
Definition setMat4Value name (m : glm.mat4) := set_uniform name (UMat4 m).
Definition setSampler2DValue name (slot : Z) :=
  set_uniform name (USampler2D slot).

(** *** stb_image: decoded images *)

Record Image : Type :=
  { width : Z; height : Z; colorChannels : Z; pixels : list Byte.byte }.

(** *** OpenGL: texture names, texture objects and texture units *)

Inductive GLparameter : Type :=
| GL_TEXTURE_WRAP_S | GL_TEXTURE_WRAP_T
| GL_TEXTURE_MIN_FILTER | GL_TEXTURE_MAG_FILTER.

Inductive GLsetting : Type := GL_REPEAT | GL_LINEAR.

Inductive GLformat : Type := GL_RGB8 | GL_RGBA8.

Record TextureObject : Type :=
  { tex_parameters : list (GLparameter * GLsetting);
    tex_image : option (GLformat * Image);
    tex_mipmaps : bool }.

Definition new_texture : TextureObject :=
  {| tex_parameters := []; tex_image := None; tex_mipmaps := false |}.

Definition GL_TEXTURE0 : Z := 33984.

Record GLContext : Type :=
  { gl_next_name : Z;
    gl_active_texture : Z;
    gl_texture_binding_2d : gmap Z Z;
    gl_textures : gmap Z TextureObject }.

(** [glGenTextures(1, &id)]: hands out a name never used before. *)
Definition glGenTextures (gl : GLContext) : Z * GLContext :=
  (gl_next_name gl,
   {| gl_next_name := gl_next_name gl + 1;
      gl_active_texture := gl_active_texture gl;
      gl_texture_binding_2d := gl_texture_binding_2d gl;
      gl_textures := gl_textures gl |}).

Definition glActiveTexture (unit : Z) (gl : GLContext) : GLContext :=
  {| gl_next_name := gl_next_name gl;
     gl_active_texture := unit;
     gl_texture_binding_2d := gl_texture_binding_2d gl;
     gl_textures := gl_textures gl |}.

(** [glBindTexture(GL_TEXTURE_2D, id)]: the active unit now refers to [id];
    a name bound for the first time gets a fresh texture object. *)
Definition glBindTexture (id : Z) (gl : GLContext) : GLContext :=
  {| gl_next_name := gl_next_name gl;
     gl_active_texture := gl_active_texture gl;
     gl_texture_binding_2d :=
       <[gl_active_texture gl := id]> (gl_texture_binding_2d gl);
     gl_textures :=
       if decide (id = 0) then gl_textures gl
       else match gl_textures gl !! id with
            | Some _ => gl_textures gl
            | None => <[id := new_texture]> (gl_textures gl)
            end |}.

(** The calls below act on the texture bound to the active unit, and do
    nothing when none is bound. *)
Definition on_bound_texture (f : TextureObject -> TextureObject)
    (gl : GLContext) : GLContext :=
  match gl_texture_binding_2d gl !! gl_active_texture gl with
  | Some id =>
      {| gl_next_name := gl_next_name gl;
         gl_active_texture := gl_active_texture gl;
         gl_texture_binding_2d := gl_texture_binding_2d gl;
         gl_textures := alter f id (gl_textures gl) |}
  | None => gl
  end.

Definition glTexParameteri (p : GLparameter) (v : GLsetting) :=
  on_bound_texture (fun t =>
    {| tex_parameters := (p, v) :: tex_parameters t;
       tex_image := tex_image t; tex_mipmaps := tex_mipmaps t |}).

Definition glTexImage2D (fmt : GLformat) (image : Image) :=
  on_bound_texture (fun t =>
    {| tex_parameters := tex_parameters t;
       tex_image := Some (fmt, image); tex_mipmaps := false |}).

Definition glGenerateMipmap :=
  on_bound_texture (fun t =>
    {| tex_parameters := tex_parameters t;
       tex_image := tex_image t; tex_mipmaps := true |}).

(** *** ShapeMeshes: the mesh library, seen through the calls made on it *)

Inductive MeshKind : Type :=
| BoxMesh | PlaneMesh | CylinderMesh | ConeMesh | PrismMesh
| Pyramid4Mesh | SphereMesh | TaperedCylinderMesh | TorusMesh.

Inductive MeshCall : Type :=
| LoadMesh (k : MeshKind)
| DrawMesh (k : MeshKind).

Record ShapeMeshes : Type := { mesh_calls : list MeshCall }.

(** *** The console *)

Inductive ConsoleLine : Type :=
| SuccessfullyLoadedImage (filename : string) (w h channels : Z)
| NotImplementedChannels (channels : Z)
| CouldNotLoadImage (filename : string).

(** ** The data of [SceneManager.h] *)

Record TEXTURE_INFO : Type := { tex_tag : string; ID : Z }.

Record OBJECT_MATERIAL : Type :=
  { ambientStrength : float;
    ambientColor : glm.vec3;
    diffuseColor : glm.vec3;
    specularColor : glm.vec3;
    shininess : float;
    tag : string }.

Record SceneManager : Type :=
  { lightPositions : vec glm.vec3 4;
    m_pShaderManager : option ShaderManager;
    m_basicMeshes : ShapeMeshes;
    m_loadedTextures : Z;
    m_textureIDs : vec TEXTURE_INFO 16;
    m_objectMaterials : list OBJECT_MATERIAL }.

(** The object together with the external state its methods act on. *)
Record World : Type :=
  { this : SceneManager;
    gl : GLContext;
    stbi_flip_vertically_on_load : bool;
    cout : list ConsoleLine }.

(** ** Fixed-size arrays indexed by a C++ [int] *)

Fixpoint vupdate {A : Type} {n : nat} (v : vec A n) (i : nat) (a : A)
    : vec A n :=
  match v with
  | vnil => vnil
  | vcons b v' =>
      match i with
      | O => vcons a v'
      | S i' => vcons b (vupdate v' i' a)
      end
  end.

(** [v[i]]: [None] outside the array. *)
Definition array_get {A : Type} {n : nat} (v : vec A n) (i : Z) : option A :=
  if decide (0 <= i) then vec_to_list v !! Z.to_nat i else None.

(** [v[i] = a]: [None] outside the array. *)
Definition array_set {A : Type} {n : nat} (v : vec A n) (i : Z) (a : A)
    : option (vec A n) :=
  if decide (0 <= i < Z.of_nat n) then Some (vupdate v (Z.to_nat i) a)
  else None.

(** ** The monad of the methods: state over [World], failing on undefined
    behaviour *)

Definition M (A : Type) : Type := World -> option (A * World).

#[global] Instance M_ret : MRet M := fun A a w => Some (a, w).
#[global] Instance M_bind : MBind M :=
  fun A B f c w =>
    match c w with
    | Some (a, w') => f a w'
    | None => None
    end.

Definition undefined_behaviour {A : Type} : M A := fun _ => None.

Definition get_this : M SceneManager := fun w => Some (this w, w).

Definition put_this (s : SceneManager) : M unit :=
  fun w =>
    Some (tt, {| this := s; gl := gl w;
                 stbi_flip_vertically_on_load := stbi_flip_vertically_on_load w;
                 cout := cout w |}).

Definition gl_call (f : GLContext -> GLContext) : M unit :=
  fun w =>
    Some (tt, {| this := this w; gl := f (gl w);
                 stbi_flip_vertically_on_load := stbi_flip_vertically_on_load w;
                 cout := cout w |}).

Definition gl_gen_textures : M Z :=
  fun w =>
    let '(id, g) := glGenTextures (gl w) in
    Some (id, {| this := this w; gl := g;
                 stbi_flip_vertically_on_load := stbi_flip_vertically_on_load w;
                 cout := cout w |}).

Definition stbi_set_flip_vertically_on_load (b : bool) : M unit :=
  fun w =>
    Some (tt, {| this := this w; gl := gl w;
                 stbi_flip_vertically_on_load := b; cout := cout w |}).

Definition print (l : ConsoleLine) : M unit :=
  fun w =>
    Some (tt, {| this := this w; gl := gl w;
                 stbi_flip_vertically_on_load := stbi_flip_vertically_on_load w;
                 cout := cout w ++ [l] |}).

(** Field updates of the object. *)
Definition with_lightPositions (l : vec glm.vec3 4) (s : SceneManager) :=
  {| lightPositions := l; m_pShaderManager := m_pShaderManager s;
     m_basicMeshes := m_basicMeshes s; m_loadedTextures := m_loadedTextures s;
     m_textureIDs := m_textureIDs s; m_objectMaterials := m_objectMaterials s |}.

Definition with_shader (sh : option ShaderManager) (s : SceneManager) :=
  {| lightPositions := lightPositions s; m_pShaderManager := sh;
     m_basicMeshes := m_basicMeshes s; m_loadedTextures := m_loadedTextures s;
     m_textureIDs := m_textureIDs s; m_objectMaterials := m_objectMaterials s |}.

Definition with_meshes (ms : ShapeMeshes) (s : SceneManager) :=
  {| lightPositions := lightPositions s; m_pShaderManager := m_pShaderManager s;
     m_basicMeshes := ms; m_loadedTextures := m_loadedTextures s;
     m_textureIDs := m_textureIDs s; m_objectMaterials := m_objectMaterials s |}.

Definition with_textures (n : Z) (t : vec TEXTURE_INFO 16) (s : SceneManager) :=
  {| lightPositions := lightPositions s; m_pShaderManager := m_pShaderManager s;
     m_basicMeshes := m_basicMeshes s; m_loadedTextures := n;
     m_textureIDs := t; m_objectMaterials := m_objectMaterials s |}.

Definition with_materials (ms : list OBJECT_MATERIAL) (s : SceneManager) :=
  {| lightPositions := lightPositions s; m_pShaderManager := m_pShaderManager s;
     m_basicMeshes := m_basicMeshes s; m_loadedTextures := m_loadedTextures s;
     m_textureIDs := m_textureIDs s; m_objectMaterials := ms |}.

(** [m_pShaderManager->f(...)]: undefined when the pointer is null. *)
Definition shader_call (f : ShaderManager -> ShaderManager) : M unit :=
  s ← get_this;
  match m_pShaderManager s with
  | Some sh => put_this (with_shader (Some (f sh)) s)
  | None => undefined_behaviour
  end.

(** [m_basicMeshes->f()] *)
Definition mesh_call (c : MeshCall) : M unit :=
  s ← get_this;
  put_this (with_meshes {| mesh_calls := mesh_calls (m_basicMeshes s) ++ [c] |} s).

(** ** The methods of [SceneManager.cpp] *)

(** The constructor sets [m_pShaderManager] and [m_basicMeshes] and nothing
    else: [lightPositions], [m_loadedTextures] and the [ID]s of
    [m_textureIDs] start with whatever the object's memory holds, which
    the arguments [memory_*] stand for; the strings and the vector are
    default-constructed, so empty. *)
Definition SceneManager_constructor (pShaderManager : option ShaderManager)
    (memory_lights : vec glm.vec3 4) (memory_count : Z)
    (memory_ids : vec Z 16) : SceneManager :=
  {| lightPositions := memory_lights;
     m_pShaderManager := pShaderManager;
     m_basicMeshes := {| mesh_calls := [] |};
     m_loadedTextures := memory_count;
     m_textureIDs := vmap (fun id => {| tex_tag := ""; ID := id |}) memory_ids;
     m_objectMaterials := [] |}.

Definition g_ModelName : string := "model".
Definition g_ColorValueName : string := "objectColor".
Definition g_TextureValueName : string := "objectTexture".
Definition g_UseTextureName : string := "bUseTexture".
Definition g_UseLightingName : string := "bUseLighting".

(** [static_cast<int>] of a [bool]. *)
Definition int_of_bool (b : bool) : Z := if b then 1 else 0.

Section Methods.
(** The C library's [cosf] and [sinf], and stb_image's [stbi_load] (the
    files on disk, read with the current flip setting). *)
Variables cosf sinf : float -> float.
Variable stbi_load : bool -> string -> option Image.

Definition load_image (filename : string) : M (option Image) :=
  fun w => Some (stbi_load (stbi_flip_vertically_on_load w) filename, w).

(** [m_textureIDs[m_loadedTextures].ID = textureID;
     m_textureIDs[m_loadedTextures].tag = tag; m_loadedTextures++;] *)
Definition register_texture (textureID : Z) (tag : string) : M unit :=
  s ← get_this;
  match array_set (m_textureIDs s) (m_loadedTextures s)
          {| tex_tag := tag; ID := textureID |} with
  | Some ids => put_this (with_textures (m_loadedTextures s + 1) ids s)
  | None => undefined_behaviour
  end.

Definition CreateGLTexture (filename : string) (tag : string) : M bool :=
  stbi_set_flip_vertically_on_load true;;
  image ← load_image filename;
  match image with
  | Some image =>
      print (SuccessfullyLoadedImage filename (width image) (height image)
               (colorChannels image));;
      textureID ← gl_gen_textures;
      gl_call (glBindTexture textureID);;
      gl_call (glTexParameteri GL_TEXTURE_WRAP_S GL_REPEAT);;
      gl_call (glTexParameteri GL_TEXTURE_WRAP_T GL_REPEAT);;
      gl_call (glTexParameteri GL_TEXTURE_MIN_FILTER GL_LINEAR);;
      gl_call (glTexParameteri GL_TEXTURE_MAG_FILTER GL_LINEAR);;
      uploaded ←
        (if colorChannels image =? 3 then
           gl_call (glTexImage2D GL_RGB8 image);; mret true
         else if colorChannels image =? 4 then
           gl_call (glTexImage2D GL_RGBA8 image);; mret true
         else
           print (NotImplementedChannels (colorChannels image));; mret false);
      if uploaded : bool then
        gl_call glGenerateMipmap;;
        gl_call (glBindTexture 0);;
        register_texture textureID tag;;
        mret true
      else
        (* the [return false] of the channel test *)
        mret false
  | None =>
      print (CouldNotLoadImage filename);;
      mret false
  end.

(** The loop of [BindGLTextures], entered with [i] and
    [m_loadedTextures - i = remaining]. *)
Fixpoint BindGLTextures_loop (remaining : nat) (i : Z) : M unit :=
  match remaining with
  | O => mret tt
  | S remaining' =>
      s ← get_this;
      match array_get (m_textureIDs s) i with
      | Some info =>
          gl_call (glActiveTexture (GL_TEXTURE0 + i));;
          gl_call (glBindTexture (ID info));;
          BindGLTextures_loop remaining' (i + 1)
      | None => undefined_behaviour
      end
  end.

Definition BindGLTextures : M unit :=
  s ← get_this;
  BindGLTextures_loop (Z.to_nat (m_loadedTextures s)) 0.

(** [int textureID = m_textureIDs[index].ID;]: the conversion of a
    [uint32_t] to [int], which keeps the value modulo 2^32 (what the
    language prescribes from C++20 on and every compiler did before):
    the identity below 2^31, and [u - 2^32] from there on. *)
Definition int_of_uint32 (u : Z) : Z := (u + 2 ^ 31) mod 2 ^ 32 - 2 ^ 31.

(** The [while] loops of [FindTextureID] and [FindTextureSlot], entered
    with [index] and [m_loadedTextures - index = remaining]; the result is
    the entry's handle and index where the loop stops at a match, and
    [(-1, -1)], the initial values of the two locals, where it runs to
    the end. *)
Fixpoint find_texture (ids : vec TEXTURE_INFO 16) (tag : string)
    (remaining : nat) (index : Z) : option (Z * Z) :=
  match remaining with
  | O => Some (-1, -1)
  | S remaining' =>
      match array_get ids index with
      | Some info =>
          if String.eqb (tex_tag info) tag then Some (ID info, index)
          else find_texture ids tag remaining' (index + 1)
      | None => None
      end
  end.

Definition FindTextureID (tag : string) : M Z :=
  s ← get_this;
  match find_texture (m_textureIDs s) tag (Z.to_nat (m_loadedTextures s)) 0 with
  | Some (handle, _) => mret (int_of_uint32 handle)
  | None => undefined_behaviour
  end.

Definition FindTextureSlot (tag : string) : M Z :=
  s ← get_this;
  match find_texture (m_textureIDs s) tag (Z.to_nat (m_loadedTextures s)) 0 with
  | Some (_, textureSlot) => mret textureSlot
  | None => undefined_behaviour
  end.

(** The [while] loop of [FindMaterial] over the materials from [index] on;
    on a match the five value fields are copied into [material], whose
    [tag] is left alone. *)
Fixpoint FindMaterial_loop (materials : list OBJECT_MATERIAL) (tag0 : string)
    (material : OBJECT_MATERIAL) : OBJECT_MATERIAL :=
  match materials with
  | [] => material
  | m :: rest =>
      if String.eqb (tag m) tag0 then
        {| ambientStrength := ambientStrength m;
           ambientColor := ambientColor m;
           diffuseColor := diffuseColor m;
           specularColor := specularColor m;
           shininess := shininess m;
           tag := tag material |}
      else FindMaterial_loop rest tag0 material
  end.

(** [material] is passed by reference: its value on entry comes in and
    its value on exit goes out with the result. *)
Definition FindMaterial (tag0 : string) (material : OBJECT_MATERIAL)
    : M (bool * OBJECT_MATERIAL) :=
  s ← get_this;
  if (length (m_objectMaterials s) =? 0)%nat then mret (false, material)
  else mret (true, FindMaterial_loop (m_objectMaterials s) tag0 material).

(** [if (NULL != m_pShaderManager) { body }] *)
Definition if_shader (body : M unit) : M unit :=
  s ← get_this;
  match m_pShaderManager s with
  | Some _ => body
  | None => mret tt
  end.

Definition SetTransformations (scaleXYZ : glm.vec3)
    (XrotationDegrees YrotationDegrees ZrotationDegrees : float)
    (positionXYZ : glm.vec3) : M unit :=
  let scale := glm.scale scaleXYZ in
  let rotationX :=
    glm.rotate cosf sinf (glm.radians XrotationDegrees) (glm.Vec3 1 0 0)%f in
  let rotationY :=
    glm.rotate cosf sinf (glm.radians YrotationDegrees) (glm.Vec3 0 1 0)%f in
  let rotationZ :=
    glm.rotate cosf sinf (glm.radians ZrotationDegrees) (glm.Vec3 0 0 1)%f in
  let translation := glm.translate positionXYZ in
  let modelView := translation × rotationX × rotationY × rotationZ × scale in
  if_shader (shader_call (setMat4Value g_ModelName modelView)).

Definition SetShaderColor
    (redColorValue greenColorValue blueColorValue alphaValue : float)
    : M unit :=
  let currentColor :=
    glm.Vec4 redColorValue greenColorValue blueColorValue alphaValue in
  if_shader
    (shader_call (setIntValue g_UseTextureName (int_of_bool false));;
     shader_call (setVec4Value g_ColorValueName currentColor)).

Definition SetShaderTexture (textureTag : string) : M unit :=
  if_shader
    (shader_call (setIntValue g_UseTextureName (int_of_bool true));;
     textureID ← FindTextureSlot textureTag;
     shader_call (setSampler2DValue g_TextureValueName textureID)).

Definition SetTextureUVScale (u v : float) : M unit :=
  if_shader (shader_call (setVec2Value "UVscale" (glm.Vec2 u v))).

(** [material] is the local variable [OBJECT_MATERIAL material;], which
    the method declares without initialising: its value on entry is
    whatever the stack holds, so it is an argument here. *)
Definition SetShaderMaterial (material : OBJECT_MATERIAL)
    (materialTag : string) : M unit :=
  s ← get_this;
  if (0 <? length (m_objectMaterials s))%nat then
    '(bReturn, material) ← FindMaterial materialTag material;
    if bReturn : bool then
      shader_call (setVec3Value "material.ambientColor" (ambientColor material));;
      shader_call (setFloatValue "material.ambientStrength" (ambientStrength material));;
      shader_call (setVec3Value "material.diffuseColor" (diffuseColor material));;
      shader_call (setVec3Value "material.specularColor" (specularColor material));;
      shader_call (setFloatValue "material.shininess" (shininess material))
    else mret tt
  else mret tt.

(** *** The scene: textures, materials, lights *)

Definition LoadSceneTextures : M unit :=
  bReturn ← CreateGLTexture "../../Utilities/textures/metal_table.jpg" "metal_table";
  bReturn ← CreateGLTexture "../../Utilities/textures/blue_vase.jpg" "blue_vase";
  bReturn ← CreateGLTexture "../../Utilities/textures/blue_vase3.jpg" "blue_vase3";
  bReturn ← CreateGLTexture "../../Utilities/textures/tiger_wood.jpg" "tiger_wood";
  bReturn ← CreateGLTexture "../../Utilities/textures/pink_matte.jpg" "pink_matte";
  bReturn ← CreateGLTexture "../../Utilities/textures/pink_matte2.jpg" "pink_matte2";
  bReturn ← CreateGLTexture "../../Utilities/textures/ruby4.jpg" "ruby4";
  bReturn ← CreateGLTexture "../../Utilities/textures/ruby6.jpg" "ruby6";
  bReturn ← CreateGLTexture "../../Utilities/textures/ruby8.jpg" "ruby8";
  bReturn ← CreateGLTexture "../../Utilities/textures/ruby9.jpg" "ruby9";
  bReturn ← CreateGLTexture "../../Utilities/textures/trash1.jpg" "trash1";
  bReturn ← CreateGLTexture "../../Utilities/textures/can_skin.jpg" "can_skin";
  bReturn ← CreateGLTexture "../../Utilities/textures/matte_rubber.jpg" "matte_rubber";
  bReturn ← CreateGLTexture "../../Utilities/textures/porcelain_vase.jpg" "porcelain_vase";
  BindGLTextures.

(** [m_objectMaterials.push_back(material)] *)
Definition push_material (material : OBJECT_MATERIAL) : M unit :=
  s ← get_this;
  put_this (with_materials (m_objectMaterials s ++ [material]) s).

Definition DefineObjectMaterials : M unit :=
  push_material
    {| ambientColor := glm.Vec3 0.3 0.3 0.3;
       ambientStrength := 0.7;
       diffuseColor := glm.Vec3 0.8 0.7 0.2;
       specularColor := glm.Vec3 0.5 0.5 0.5;
       shininess := 50.0;
       tag := "shiny" |};;
  push_material
    {| ambientColor := glm.Vec3 0.3 0.3 0.3;
       ambientStrength := 0.5;
       diffuseColor := glm.Vec3 0.8 0.7 0.2;
       specularColor := glm.Vec3 0.5 0.5 0.5;
       shininess := 25.0;
       tag := "shinyish" |};;
  push_material
    {| ambientColor := glm.Vec3 0.3 0.3 0.3;
       ambientStrength := 0.5;
       diffuseColor := glm.Vec3 0.8 0.7 0.2;
       specularColor := glm.Vec3 0.5 0.5 0.5;
       shininess := 16.0;
       tag := "porcelaine" |};;
  push_material
    {| ambientColor := glm.Vec3 0.3 0.3 0.3;
       ambientStrength := 0.6;
       diffuseColor := glm.Vec3 0.8 0.7 0.2;
       specularColor := glm.Vec3 0.5 0.5 0.5;
       shininess := 1.0;
       tag := "dull" |};;
  push_material
    {| ambientColor := glm.Vec3 0.0 0.0 0.0;
       ambientStrength := 0.0;
       diffuseColor := glm.Vec3 0.0 0.0 0.0;
       specularColor := glm.Vec3 0.0 0.0 0.0;
       shininess := 0.0;
       tag := "void" |}.

(** [lightPositions[i] = p] and [lightPositions[i]], [i] a constant below 4 *)
Definition set_lightPosition (i : fin 4) (p : glm.vec3) : M unit :=
  s ← get_this;
  put_this (with_lightPositions (vinsert i p (lightPositions s)) s).

Definition get_lightPosition (i : fin 4) : M glm.vec3 :=
  s ← get_this;
  mret (lightPositions s !!! i).

Definition SetupSceneLights : M unit :=
  shader_call (setBoolValue g_UseLightingName true);;
  set_lightPosition 0%fin (glm.Vec3 (-100.0) 40.0 50.0);;
  set_lightPosition 1%fin (glm.Vec3 (-150.0) 40.0 (-25.0));;
  set_lightPosition 2%fin (glm.Vec3 100.0 20.0 10.0);;
  set_lightPosition 3%fin (glm.Vec3 20.0 50.0 (-100.0));;
  p ← get_lightPosition 0%fin;
  shader_call (setVec3Value "lightSources[0].position" p);;
  shader_call (setVec3Value "lightSources[0].ambientColor" (glm.Vec3 0.0 0.0 0.0));;
  shader_call (setVec3Value "lightSources[0].diffuseColor" (glm.Vec3 0.0 0.0 0.0));;
  shader_call (setVec3Value "lightSources[0].specularColor" (glm.Vec3 0.0 0.0 0.0));;
  shader_call (setFloatValue "lightSources[0].focalStrength" 50.0);;
  shader_call (setFloatValue "lightSources[0].specularIntensity" 0.4);;
  p ← get_lightPosition 1%fin;
  shader_call (setVec3Value "lightSources[1].position" p);;
  shader_call (setVec3Value "lightSources[1].ambientColor" (glm.Vec3 0.0 0.0 0.1));;
  shader_call (setVec3Value "lightSources[1].diffuseColor" (glm.Vec3 0.0 0.0 0.0));;
  shader_call (setVec3Value "lightSources[1].specularColor" (glm.Vec3 0.0 0.0 0.0));;
  shader_call (setFloatValue "lightSources[1].focalStrength" 30.0);;
  shader_call (setFloatValue "lightSources[1].specularIntensity" 0.1);;
  p ← get_lightPosition 2%fin;
  shader_call (setVec3Value "lightSources[2].position" p);;
  shader_call (setVec3Value "lightSources[2].ambientColor" (glm.Vec3 0.0 0.0 0.3));;
  shader_call (setVec3Value "lightSources[2].diffuseColor" (glm.Vec3 0.0 0.0 0.2));;
  shader_call (setVec3Value "lightSources[2].specularColor" (glm.Vec3 0.0 0.0 2.0));;
  shader_call (setFloatValue "lightSources[2].focalStrength" 100.0);;
  shader_call (setFloatValue "lightSources[2].specularIntensity" 1.0);;
  p ← get_lightPosition 3%fin;
  shader_call (setVec3Value "lightSources[3].position" p);;
  shader_call (setVec3Value "lightSources[3].ambientColor" (glm.Vec3 0.0 0.0 0.0));;
  shader_call (setVec3Value "lightSources[3].diffuseColor" (glm.Vec3 0.0 0.0 0.0));;
  shader_call (setVec3Value "lightSources[3].specularColor" (glm.Vec3 0.0 0.0 0.0));;
  shader_call (setFloatValue "lightSources[3].focalStrength" 12.0);;
  shader_call (setFloatValue "lightSources[3].specularIntensity" 0.2);;
  shader_call (setVec3Value "lightSources[4].position" (glm.Vec3 (-30.0) 40.0 30.0));;
  shader_call (setVec3Value "lightSources[4].ambientColor" (glm.Vec3 0.0 0.0 0.0));;
  shader_call (setVec3Value "lightSources[4].diffuseColor" (glm.Vec3 0.0 0.0 0.0));;
  shader_call (setVec3Value "lightSources[4].specularColor" (glm.Vec3 0.3 0.3 0.3));;
  shader_call (setFloatValue "lightSources[4].focalStrength" 30.0);;
  shader_call (setFloatValue "lightSources[4].specularIntensity" 0.3).

Definition PrepareScene : M unit :=
  SetupSceneLights;;
  DefineObjectMaterials;;
  LoadSceneTextures;;
  mesh_call (LoadMesh BoxMesh);;
  mesh_call (LoadMesh PlaneMesh);;
  mesh_call (LoadMesh CylinderMesh);;
  mesh_call (LoadMesh ConeMesh);;
  mesh_call (LoadMesh PrismMesh);;
  mesh_call (LoadMesh Pyramid4Mesh);;
  mesh_call (LoadMesh SphereMesh);;
  mesh_call (LoadMesh TaperedCylinderMesh);;
  mesh_call (LoadMesh TorusMesh).

(** *** The render pass *)

(** [for (int i = 0; i < 4; i++) body], over the indices of a 4-element
    array. *)
Fixpoint for_each {A : Type} (l : list A) (body : A -> M unit) : M unit :=
  match l with
  | [] => mret tt
  | i :: l' => body i;; for_each l' body
  end.

(** [stack_material k] is what the k-th call of [SetShaderMaterial] in a
    render pass finds in its uninitialised local [material]. *)
Variable stack_material : nat -> OBJECT_MATERIAL.

Definition RenderScene : M unit :=
  let XrotationDegrees := 0.0%f in
  let YrotationDegrees := 0.0%f in
  let ZrotationDegrees := 0.0%f in
  let scaleXYZ := (glm.Vec3 12.0 1.0 8.0) in
  let positionXYZ := (glm.Vec3 2.5 0.0 (-12.0)) in
  SetTransformations scaleXYZ XrotationDegrees YrotationDegrees ZrotationDegrees positionXYZ;;
  SetShaderTexture "metal_table";;
  SetShaderMaterial (stack_material 0) "dull";;
  mesh_call (DrawMesh PlaneMesh);;
  let scaleXYZ := (glm.Vec3 2.0 2.0 2.0) in
  let positionXYZ := (glm.Vec3 0.0 2.0 (-8.4)) in
  SetTransformations scaleXYZ XrotationDegrees YrotationDegrees ZrotationDegrees positionXYZ;;
  SetShaderMaterial (stack_material 1) "porcelaine";;
  SetShaderTexture "blue_vase";;
  mesh_call (DrawMesh SphereMesh);;
  let scaleXYZ := (glm.Vec3 0.7 3.0 0.7) in
  let positionXYZ := (glm.Vec3 0.0 2.0 (-8.4)) in
  SetTransformations scaleXYZ XrotationDegrees YrotationDegrees ZrotationDegrees positionXYZ;;
  SetShaderMaterial (stack_material 2) "porcelaine";;
  SetShaderTexture "blue_vase3";;
  mesh_call (DrawMesh CylinderMesh);;
  let scaleXYZ := (glm.Vec3 0.7 0.2 0.7) in
  let positionXYZ := (glm.Vec3 0.0 4.9 (-8.4)) in
  SetTransformations scaleXYZ XrotationDegrees YrotationDegrees ZrotationDegrees positionXYZ;;
  SetShaderMaterial (stack_material 3) "void";;
  SetShaderColor (F32.of_int 0) (F32.of_int 0) (F32.of_int 0) (F32.of_int 1);;
  mesh_call (DrawMesh CylinderMesh);;
  let scaleXYZ := (glm.Vec3 0.8 0.8 0.8) in
  let XrotationDegrees := 90.0%f in
  let positionXYZ := (glm.Vec3 0.0 5.0 (-8.4)) in
  SetTransformations scaleXYZ XrotationDegrees YrotationDegrees ZrotationDegrees positionXYZ;;
  SetShaderMaterial (stack_material 4) "porcelaine";;
  SetShaderTexture "blue_vase3";;
  mesh_call (DrawMesh TorusMesh);;
  let scaleXYZ := (glm.Vec3 0.6 1.0 0.6) in
  let XrotationDegrees := 90.0%f in
  let positionXYZ := (glm.Vec3 0.0 0.14 (-8.85)) in
  SetTransformations scaleXYZ XrotationDegrees YrotationDegrees ZrotationDegrees positionXYZ;;
  SetShaderMaterial (stack_material 5) "porcelaine";;
  SetShaderTexture "blue_vase3";;
  mesh_call (DrawMesh TorusMesh);;
  let scaleXYZ := (glm.Vec3 2.5 5.0 2.5) in
  let XrotationDegrees := 180.0%f in
  let positionXYZ := (glm.Vec3 (-5.0) 5.0 (-12.4)) in
  SetTransformations scaleXYZ XrotationDegrees YrotationDegrees ZrotationDegrees positionXYZ;;
  SetShaderMaterial (stack_material 6) "shiny";;
  SetShaderTexture "tiger_wood";;
  mesh_call (DrawMesh CylinderMesh);;
  let scaleXYZ := (glm.Vec3 2.5 0.6 2.5) in
  let XrotationDegrees := 0.0%f in
  let positionXYZ := (glm.Vec3 (-5.0) 5.0 (-12.4)) in
  SetTransformations scaleXYZ XrotationDegrees YrotationDegrees ZrotationDegrees positionXYZ;;
  SetShaderMaterial (stack_material 7) "porcelaine";;
  SetShaderTexture "tiger_wood";;
  mesh_call (DrawMesh TaperedCylinderMesh);;
  let scaleXYZ := (glm.Vec3 1.9 1.5 1.9) in
  let XrotationDegrees := 0.0%f in
  let positionXYZ := (glm.Vec3 (-5.0) 4.3 (-12.4)) in
  SetTransformations scaleXYZ XrotationDegrees YrotationDegrees ZrotationDegrees positionXYZ;;
  SetShaderMaterial (stack_material 8) "dull";;
  SetShaderColor (F32.of_double (0.5)%d) (F32.of_double (0.5)%d) (F32.of_double (0.5)%d) (F32.of_int 1);;
  mesh_call (DrawMesh CylinderMesh);;
  let scaleXYZ := (glm.Vec3 1.8 1.5 1.8) in
  let XrotationDegrees := 0.0%f in
  let positionXYZ := (glm.Vec3 (-5.0) 4.32 (-12.4)) in
  SetTransformations scaleXYZ XrotationDegrees YrotationDegrees ZrotationDegrees positionXYZ;;
  SetShaderMaterial (stack_material 9) "void";;
  SetShaderColor (F32.of_int 0) (F32.of_int 0) (F32.of_int 0) (F32.of_int 1);;
  mesh_call (DrawMesh CylinderMesh);;
  let scaleXYZ := (glm.Vec3 2.15 2.15 0.5) in
  let XrotationDegrees := 90.0%f in
  let positionXYZ := (glm.Vec3 (-5.0) 0.5 (-12.4)) in
  SetTransformations scaleXYZ XrotationDegrees YrotationDegrees ZrotationDegrees positionXYZ;;
  SetShaderMaterial (stack_material 10) "dull";;
  SetShaderColor (F32.of_double (0.1)%d) (F32.of_double (0.1)%d) (F32.of_double (0.1)%d) (F32.of_int 1);;
  mesh_call (DrawMesh TorusMesh);;
  let scaleXYZ := (glm.Vec3 3.5 5.4 3.5) in
  let XrotationDegrees := 180.0%f in
  let YrotationDegrees := (-90.0)%f in
  let positionXYZ := (glm.Vec3 4.0 5.2 (-12.4)) in
  SetTransformations scaleXYZ XrotationDegrees YrotationDegrees ZrotationDegrees positionXYZ;;
  SetShaderMaterial (stack_material 11) "shinyish";;
  SetShaderTexture "can_skin";;
  mesh_call (DrawMesh TaperedCylinderMesh);;
  let scaleXYZ := (glm.Vec3 3.2 0.2 3.2) in
  let XrotationDegrees := 180.0%f in
  let YrotationDegrees := (-90.0)%f in
  let positionXYZ := (glm.Vec3 4.0 5.23 (-12.4)) in
  SetTransformations scaleXYZ XrotationDegrees YrotationDegrees ZrotationDegrees positionXYZ;;
  SetShaderMaterial (stack_material 12) "void";;
  SetShaderColor (F32.of_int 0) (F32.of_int 0) (F32.of_int 0) (F32.of_int 1);;
  mesh_call (DrawMesh CylinderMesh);;
  let scaleXYZ := (glm.Vec3 2.96 2.96 0.5) in
  let XrotationDegrees := 90.0%f in
  let YrotationDegrees := 0.0%f in
  let positionXYZ := (glm.Vec3 4.0 5.1 (-12.4)) in
  SetTransformations scaleXYZ XrotationDegrees YrotationDegrees ZrotationDegrees positionXYZ;;
  SetShaderMaterial (stack_material 13) "shiny";;
  SetShaderColor (F32.of_double (0.1)%d) (F32.of_double (0.1)%d) (F32.of_double (0.1)%d) (F32.of_int 1);;
  mesh_call (DrawMesh TorusMesh);;
  let scaleXYZ := (glm.Vec3 1.6 1.6 0.5) in
  let XrotationDegrees := 90.0%f in
  let YrotationDegrees := 0.0%f in
  let positionXYZ := (glm.Vec3 4.0 0.08 (-12.4)) in
  SetTransformations scaleXYZ XrotationDegrees YrotationDegrees ZrotationDegrees positionXYZ;;
  SetShaderMaterial (stack_material 14) "shiny";;
  SetShaderColor (F32.of_double (0.1)%d) (F32.of_double (0.1)%d) (F32.of_double (0.1)%d) (F32.of_int 1);;
  mesh_call (DrawMesh TorusMesh);;
  let scaleXYZ := (glm.Vec3 0.6 5.0 0.6) in
  let ZrotationDegrees := (-90.0)%f in
  let positionXYZ := (glm.Vec3 4.0 0.8 (-6.4)) in
  SetTransformations scaleXYZ XrotationDegrees YrotationDegrees ZrotationDegrees positionXYZ;;
  SetShaderMaterial (stack_material 15) "dull";;
  SetShaderTexture "pink_matte";;
  mesh_call (DrawMesh CylinderMesh);;
  let scaleXYZ := (glm.Vec3 1.1 1.0 1.6) in
  let ZrotationDegrees := (-90.0)%f in
  let positionXYZ := (glm.Vec3 3.5 0.8 (-6.4)) in
  SetTransformations scaleXYZ XrotationDegrees YrotationDegrees ZrotationDegrees positionXYZ;;
  SetShaderMaterial (stack_material 16) "dull";;
  SetShaderTexture "pink_matte2";;
  mesh_call (DrawMesh BoxMesh);;
  let scaleXYZ := (glm.Vec3 1.1 1.0 1.6) in
  let ZrotationDegrees := (-90.0)%f in
  let positionXYZ := (glm.Vec3 8.5 0.8 (-6.4)) in
  SetTransformations scaleXYZ XrotationDegrees YrotationDegrees ZrotationDegrees positionXYZ;;
  SetShaderMaterial (stack_material 17) "dull";;
  SetShaderTexture "pink_matte2";;
  mesh_call (DrawMesh BoxMesh);;
  let scaleXYZ := (glm.Vec3 1.6 1.0 0.4) in
  let ZrotationDegrees := 90.0%f in
  let XrotationDegrees := 0.0%f in
  let positionXYZ := (glm.Vec3 8.5 0.8 (-5.65)) in
  SetTransformations scaleXYZ XrotationDegrees YrotationDegrees ZrotationDegrees positionXYZ;;
  SetShaderMaterial (stack_material 18) "dull";;
  SetShaderTexture "pink_matte2";;
  mesh_call (DrawMesh PrismMesh);;
  let scaleXYZ := (glm.Vec3 1.6 1.0 0.4) in
  let ZrotationDegrees := 90.0%f in
  let XrotationDegrees := 180.0%f in
  let positionXYZ := (glm.Vec3 8.5 0.8 (-7.15)) in
  SetTransformations scaleXYZ XrotationDegrees YrotationDegrees ZrotationDegrees positionXYZ;;
  SetShaderMaterial (stack_material 19) "dull";;
  SetShaderTexture "pink_matte2";;
  mesh_call (DrawMesh PrismMesh);;
  let scaleXYZ := (glm.Vec3 1.6 1.0 0.4) in
  let ZrotationDegrees := 90.0%f in
  let XrotationDegrees := 0.0%f in
  let positionXYZ := (glm.Vec3 3.5 0.8 (-5.65)) in
  SetTransformations scaleXYZ XrotationDegrees YrotationDegrees ZrotationDegrees positionXYZ;;
  SetShaderMaterial (stack_material 20) "dull";;
  SetShaderTexture "pink_matte2";;
  mesh_call (DrawMesh PrismMesh);;
  let scaleXYZ := (glm.Vec3 1.6 1.0 0.4) in
  let ZrotationDegrees := 90.0%f in
  let XrotationDegrees := 180.0%f in
  let positionXYZ := (glm.Vec3 3.5 0.8 (-7.15)) in
  SetTransformations scaleXYZ XrotationDegrees YrotationDegrees ZrotationDegrees positionXYZ;;
  SetShaderMaterial (stack_material 21) "dull";;
  SetShaderTexture "pink_matte2";;
  mesh_call (DrawMesh PrismMesh);;
  let scaleXYZ := (glm.Vec3 0.2 5.0 2.0) in
  let positionXYZ := (glm.Vec3 10.0 0.1 (-12.4)) in
  SetTransformations scaleXYZ XrotationDegrees YrotationDegrees ZrotationDegrees positionXYZ;;
  SetShaderMaterial (stack_material 22) "shiny";;
  SetShaderTexture "ruby8";;
  mesh_call (DrawMesh BoxMesh);;
  let scaleXYZ := (glm.Vec3 0.2 4.9 1.9) in
  let positionXYZ := (glm.Vec3 10.0 0.15 (-12.4)) in
  SetTransformations scaleXYZ XrotationDegrees YrotationDegrees ZrotationDegrees positionXYZ;;
  SetShaderMaterial (stack_material 23) "shiny";;
  SetShaderTexture "ruby6";;
  mesh_call (DrawMesh BoxMesh);;
  let scaleXYZ := (glm.Vec3 0.15 5.0 2.0) in
  let positionXYZ := (glm.Vec3 10.0 0.3 (-12.4)) in
  SetTransformations scaleXYZ XrotationDegrees YrotationDegrees ZrotationDegrees positionXYZ;;
  SetShaderMaterial (stack_material 24) "shiny";;
  SetShaderTexture "ruby6";;
  mesh_call (DrawMesh BoxMesh);;
  let scaleXYZ := (glm.Vec3 0.2 2.5 1.4) in
  let positionXYZ := (glm.Vec3 10.0 0.3 (-12.2)) in
  SetTransformations scaleXYZ XrotationDegrees YrotationDegrees ZrotationDegrees positionXYZ;;
  SetShaderMaterial (stack_material 25) "shiny";;
  SetShaderTexture "ruby9";;
  mesh_call (DrawMesh BoxMesh);;
  let scaleXYZ := (glm.Vec3 0.2 2.5 0.2) in
  let positionXYZ := (glm.Vec3 10.0 0.32 (-11.55)) in
  SetTransformations scaleXYZ XrotationDegrees YrotationDegrees ZrotationDegrees positionXYZ;;
  SetShaderMaterial (stack_material 26) "shiny";;
  SetShaderColor (F32.of_double (0.5)%d) (F32.of_double (0.5)%d) (F32.of_double (0.5)%d) (F32.of_int 1);;
  mesh_call (DrawMesh BoxMesh);;
  let scaleXYZ := (glm.Vec3 0.2 5.0 2.0) in
  let XrotationDegrees := 90.0%f in
  let positionXYZ := (glm.Vec3 10.0 1.4 (-13.33)) in
  SetTransformations scaleXYZ XrotationDegrees YrotationDegrees ZrotationDegrees positionXYZ;;
  SetShaderMaterial (stack_material 27) "shiny";;
  SetShaderTexture "ruby8";;
  mesh_call (DrawMesh BoxMesh);;
  let scaleXYZ := (glm.Vec3 0.2 3.2 1.6) in
  let XrotationDegrees := 90.0%f in
  let positionXYZ := (glm.Vec3 10.0 1.2 (-13.32)) in
  SetTransformations scaleXYZ XrotationDegrees YrotationDegrees ZrotationDegrees positionXYZ;;
  SetShaderMaterial (stack_material 28) "shiny";;
  SetShaderTexture "ruby9";;
  mesh_call (DrawMesh BoxMesh);;
  let scaleXYZ := (glm.Vec3 0.2 4.0 0.25) in
  let XrotationDegrees := 45.0%f in
  let positionXYZ := (glm.Vec3 10.0 0.4 (-13.28)) in
  SetTransformations scaleXYZ XrotationDegrees YrotationDegrees ZrotationDegrees positionXYZ;;
  SetShaderMaterial (stack_material 29) "shiny";;
  SetShaderColor (F32.of_double (0.5)%d) (F32.of_double (0.5)%d) (F32.of_double (0.5)%d) (F32.of_int 1);;
  mesh_call (DrawMesh BoxMesh);;
  let scaleXYZ := (glm.Vec3 0.35 0.1 0.35) in
  let XrotationDegrees := 90.0%f in
  let YrotationDegrees := 90.0%f in
  let positionXYZ := (glm.Vec3 8.15 0.4 (-12.6)) in
  SetTransformations scaleXYZ XrotationDegrees YrotationDegrees ZrotationDegrees positionXYZ;;
  SetShaderMaterial (stack_material 30) "porcelaine";;
  SetShaderColor (F32.of_double (0.5)%d) (F32.of_double (0.5)%d) (F32.of_double (0.5)%d) (F32.of_int 1);;
  mesh_call (DrawMesh CylinderMesh);;
  let scaleXYZ := (glm.Vec3 0.25 0.1 0.25) in
  let YrotationDegrees := 90.0%f in
  let positionXYZ := (glm.Vec3 8.15 0.45 (-12.6)) in
  SetTransformations scaleXYZ XrotationDegrees YrotationDegrees ZrotationDegrees positionXYZ;;
  SetShaderMaterial (stack_material 31) "porcelaine";;
  SetShaderTexture "ruby9";;
  mesh_call (DrawMesh CylinderMesh);;
  let scaleXYZ := (glm.Vec3 0.5 0.2 0.15) in
  let positionXYZ := (glm.Vec3 8.15 0.32 (-11.8)) in
  SetTransformations scaleXYZ XrotationDegrees YrotationDegrees ZrotationDegrees positionXYZ;;
  SetShaderMaterial (stack_material 32) "porcelaine";;
  SetShaderColor (F32.of_double (0.5)%d) (F32.of_double (0.5)%d) (F32.of_double (0.5)%d) (F32.of_int 1);;
  mesh_call (DrawMesh BoxMesh);;
  let scaleXYZ := (glm.Vec3 0.15 0.2 0.5) in
  let positionXYZ := (glm.Vec3 8.15 0.32 (-11.8)) in
  SetTransformations scaleXYZ XrotationDegrees YrotationDegrees ZrotationDegrees positionXYZ;;
  SetShaderMaterial (stack_material 33) "porcelaine";;
  SetShaderColor (F32.of_double (0.5)%d) (F32.of_double (0.5)%d) (F32.of_double (0.5)%d) (F32.of_int 1);;
  mesh_call (DrawMesh BoxMesh);;
  let scaleXYZ := (glm.Vec3 0.15 0.2 0.15) in
  let positionXYZ := (glm.Vec3 11.5 0.32 (F32.of_double (-11.6)%d)) in
  SetTransformations scaleXYZ XrotationDegrees YrotationDegrees ZrotationDegrees positionXYZ;;
  SetShaderMaterial (stack_material 34) "shinyMaterial";;
  SetShaderColor (F32.of_double (0.5)%d) (F32.of_double (0.5)%d) (F32.of_double (0.5)%d) (F32.of_int 1);;
  mesh_call (DrawMesh BoxMesh);;
  let scaleXYZ := (glm.Vec3 0.14 0.1 0.14) in
  let YrotationDegrees := 90.0%f in
  let positionXYZ := (glm.Vec3 11.9 0.4 (-12.65)) in
  SetTransformations scaleXYZ XrotationDegrees YrotationDegrees ZrotationDegrees positionXYZ;;
  SetShaderMaterial (stack_material 35) "shinyMaterial";;
  SetShaderColor (F32.of_double (0.5)%d) (F32.of_double (0.5)%d) (F32.of_double (0.5)%d) (F32.of_int 1);;
  mesh_call (DrawMesh CylinderMesh);;
  let scaleXYZ := (glm.Vec3 0.14 0.1 0.14) in
  let YrotationDegrees := 90.0%f in
  let positionXYZ := (glm.Vec3 11.9 0.4 (-12.1)) in
  SetTransformations scaleXYZ XrotationDegrees YrotationDegrees ZrotationDegrees positionXYZ;;
  SetShaderMaterial (stack_material 36) "shinyMaterial";;
  SetShaderColor (F32.of_double (0.5)%d) (F32.of_double (0.5)%d) (F32.of_double (0.5)%d) (F32.of_int 1);;
  mesh_call (DrawMesh CylinderMesh);;
  let scaleXYZ := (glm.Vec3 0.14 0.1 0.14) in
  let YrotationDegrees := 90.0%f in
  let positionXYZ := (glm.Vec3 12.15 0.4 (-12.37)) in
  SetTransformations scaleXYZ XrotationDegrees YrotationDegrees ZrotationDegrees positionXYZ;;
  SetShaderMaterial (stack_material 37) "shinyMaterial";;
  SetShaderColor (F32.of_double (0.5)%d) (F32.of_double (0.5)%d) (F32.of_double (0.5)%d) (F32.of_int 1);;
  mesh_call (DrawMesh CylinderMesh);;
  let scaleXYZ := (glm.Vec3 0.14 0.1 0.14) in
  let YrotationDegrees := 90.0%f in
  let positionXYZ := (glm.Vec3 11.65 0.4 (-12.37)) in
  SetTransformations scaleXYZ XrotationDegrees YrotationDegrees ZrotationDegrees positionXYZ;;
  SetShaderMaterial (stack_material 38) "shinyMaterial";;
  SetShaderColor (F32.of_double (0.5)%d) (F32.of_double (0.5)%d) (F32.of_double (0.5)%d) (F32.of_int 1);;
  mesh_call (DrawMesh CylinderMesh);;
  let cubeColors : vec glm.vec3 4 :=
    [# glm.Vec3 1.0 0.0 0.0; glm.Vec3 0.0 1.0 0.0;
       glm.Vec3 0.0 0.0 1.0; glm.Vec3 1.0 1.0 0.0 ] in
  for_each [0%fin; 1%fin; 2%fin; 3%fin] (fun i =>
    let scaleXYZ := glm.Vec3 15.0 15.0 15.0 in
    positionXYZ ← get_lightPosition i;
    SetTransformations scaleXYZ XrotationDegrees YrotationDegrees ZrotationDegrees positionXYZ;;
    SetShaderMaterial (stack_material (39 + fin_to_nat i)) "porcelaine";;
    SetShaderColor (glm.x3 (cubeColors !!! i)) (glm.y3 (cubeColors !!! i))
      (glm.z3 (cubeColors !!! i)) 1.0;;
    mesh_call (DrawMesh BoxMesh)).
End Methods.

(** ** The remaining method of the texture registry *)

(** The loop of [DestroyGLTextures], entered with [i] and
    [m_loadedTextures - i = remaining]: [glGenTextures(1, &m_textureIDs[i].ID)]
    stores a newly generated name in the entry and leaves its tag. *)
Fixpoint DestroyGLTextures_loop (remaining : nat) (i : Z) : M unit :=
  match remaining with
  | O => mret tt
  | S remaining' =>
      s ← get_this;
      match array_get (m_textureIDs s) i with
      | Some info =>
          id ← gl_gen_textures;
          match array_set (m_textureIDs s) i
                  {| tex_tag := tex_tag info; ID := id |} with
          | Some ids =>
              put_this (with_textures (m_loadedTextures s) ids s);;
              DestroyGLTextures_loop remaining' (i + 1)
          | None => undefined_behaviour
          end
      | None => undefined_behaviour
      end
  end.

Definition DestroyGLTextures : M unit :=
  s ← get_this;
  DestroyGLTextures_loop (Z.to_nat (m_loadedTextures s)) 0.

(** ** IEEE-754 binary64, for the [double] arguments of the GLFW callbacks *)

Module F64.
Definition sub : double -> double -> double := SFsub 53 1024.
(** The promotion of a [float] and the conversion of an [int]. *)
Definition of_float : float -> double := Ieee.convert 53 1024.
Definition of_int : Z -> double := Ieee.of_Z 53 1024.
End F64.

(** ** [ViewManager.cpp]

    The camera class ([camera.h]), GLFW and the projection functions of GLM
    are not part of the repository: the camera is an abstract type with the
    four methods and the one field that [ViewManager] uses, a window is the
    set of keys held down together with its close flag, and
    [glm::perspective] and [glm::ortho] are parameters. *)

Module View.

Inductive Camera_Movement : Type :=
| FORWARD | BACKWARD | LEFT | RIGHT | UP | DOWN.

Inductive Key : Type :=
| GLFW_KEY_ESCAPE | GLFW_KEY_W | GLFW_KEY_S | GLFW_KEY_A | GLFW_KEY_D
| GLFW_KEY_Q | GLFW_KEY_E | GLFW_KEY_P | GLFW_KEY_O.

#[global] Instance Key_eq_dec : EqDecision Key.
Proof. solve_decision. Defined.

Record GLFWwindow : Type :=
{ keys_down : list Key; should_close : bool }.

(** [glfwGetKey(window, key) == GLFW_PRESS] *)
Definition key_pressed (window : GLFWwindow) (key : Key) : bool :=
bool_decide (key ∈ keys_down window).

(** [glfwSetWindowShouldClose(window, true)] *)
Definition glfwSetWindowShouldClose (window : GLFWwindow) : GLFWwindow :=
{| keys_down := keys_down window; should_close := true |}.

Record Externals : Type :=
{ Camera : Type;
  Position : Camera -> glm.vec3;
  ProcessKeyboard : Camera_Movement -> float -> Camera -> Camera;
  ProcessMouseMovement : float -> float -> Camera -> Camera;
  ProcessMouseScroll : float -> Camera -> Camera;
  GetViewMatrix : Camera -> glm.mat4;
  cosf : float -> float;
  sinf : float -> float;
  perspective : float -> float -> float -> float -> glm.mat4;
  ortho : float -> float -> float -> float -> float -> float -> glm.mat4 }.

Record ViewManager : Type :=
{ m_pShaderManager : option ShaderManager;
  m_pWindow : option GLFWwindow;
  projection : glm.mat4;
  aspectRatio : float }.

(** The object together with the variables of the anonymous namespace. *)
Record World (X : Externals) : Type :=
{ this : ViewManager;
  g_pCamera : option (Camera X);
  gLastX : float;
  gLastY : float;
  gFirstMouse : bool;
  gDeltaTime : float;
  gLastFrame : float;
  bOrthographicProjection : bool }.

Arguments this {X}.
Arguments g_pCamera {X}.
Arguments gLastX {X}.
Arguments gLastY {X}.
Arguments gFirstMouse {X}.
Arguments gDeltaTime {X}.
Arguments gLastFrame {X}.
Arguments bOrthographicProjection {X}.

Definition g_ViewName : string := "view".
Definition g_ProjectionName : string := "projection".

Section Methods.
Variable X : Externals.

(** Updates of one part of the world. *)
Definition with_mouse (x y : float) (first : bool) (w : World X) : World X :=
{| this := this w; g_pCamera := g_pCamera w; gLastX := x; gLastY := y;
 gFirstMouse := first; gDeltaTime := gDeltaTime w;
 gLastFrame := gLastFrame w;
 bOrthographicProjection := bOrthographicProjection w |}.

Definition with_camera (c : option (Camera X)) (w : World X) : World X :=
{| this := this w; g_pCamera := c; gLastX := gLastX w; gLastY := gLastY w;
 gFirstMouse := gFirstMouse w; gDeltaTime := gDeltaTime w;
 gLastFrame := gLastFrame w;
 bOrthographicProjection := bOrthographicProjection w |}.

Definition with_this (v : ViewManager) (w : World X) : World X :=
{| this := v; g_pCamera := g_pCamera w; gLastX := gLastX w;
 gLastY := gLastY w; gFirstMouse := gFirstMouse w;
 gDeltaTime := gDeltaTime w; gLastFrame := gLastFrame w;
 bOrthographicProjection := bOrthographicProjection w |}.

Definition with_timing (delta last : float) (w : World X) : World X :=
{| this := this w; g_pCamera := g_pCamera w; gLastX := gLastX w;
 gLastY := gLastY w; gFirstMouse := gFirstMouse w;
 gDeltaTime := delta; gLastFrame := last;
 bOrthographicProjection := bOrthographicProjection w |}.

Definition with_orthographic (b : bool) (w : World X) : World X :=
{| this := this w; g_pCamera := g_pCamera w; gLastX := gLastX w;
 gLastY := gLastY w; gFirstMouse := gFirstMouse w;
 gDeltaTime := gDeltaTime w; gLastFrame := gLastFrame w;
 bOrthographicProjection := b |}.

Definition with_projection (p : glm.mat4) (v : ViewManager) : ViewManager :=
{| m_pShaderManager := m_pShaderManager v; m_pWindow := m_pWindow v;
 projection := p; aspectRatio := aspectRatio v |}.

Definition with_window (win : option GLFWwindow) (v : ViewManager)
: ViewManager :=
{| m_pShaderManager := m_pShaderManager v; m_pWindow := win;
 projection := projection v; aspectRatio := aspectRatio v |}.

Definition with_view_shader (sh : option ShaderManager) (v : ViewManager)
: ViewManager :=
{| m_pShaderManager := sh; m_pWindow := m_pWindow v;
 projection := projection v; aspectRatio := aspectRatio v |}.

(** The static callbacks get the window pointer and do not use it.  The
first event only records where the mouse is; a later one moves the
camera by the distance from the recorded point, and dereferences
[g_pCamera] without a test. *)
Definition Mouse_Position_Callback (xMousePos yMousePos : double)
(w : World X) : option (World X) :=
if gFirstMouse w then
Some (with_mouse (F32.of_double xMousePos)
        (F32.of_double (F64.sub yMousePos (F64.of_int 1500))) false w)
else
let xOffset := F32.of_double (F64.sub xMousePos (F64.of_float (gLastX w))) in
let yOffset := F32.of_double (F64.sub (F64.of_float (gLastY w)) yMousePos) in
let w := with_mouse (F32.of_double xMousePos) (F32.of_double yMousePos)
           (gFirstMouse w) w in
match g_pCamera w with
| Some camera =>
    Some (with_camera (Some (ProcessMouseMovement X xOffset yOffset camera)) w)
| None => None
end.

Definition Mouse_Scroll_Callback (xOffset yOffset : double) (w : World X)
: option (World X) :=
match g_pCamera w with
| Some camera =>
  Some (with_camera
          (Some (ProcessMouseScroll X (F32.of_double yOffset) camera)) w)
| None => None
end.

Definition SetPerspective (v : ViewManager) : ViewManager :=
with_projection
(perspective X (glm.radians 45.0) (aspectRatio v) 0.1 100.0) v.

(** [sin] is applied to a [float]; with the overloads of [<cmath>] that is
the [float] sine. *)
Definition SetOrthographic (v : ViewManager) : ViewManager :=
let orthoScale := 10.0%f in
let orthoProjection :=
ortho X (SFopp (aspectRatio v) * orthoScale)%f
  (aspectRatio v * orthoScale)%f (SFopp orthoScale) orthoScale 0.1 100.0 in
let angle := glm.radians 52.5 in
let rotationMatrix :=
glm.rotate_mat (cosf X) (sinf X) glm.identity angle (glm.Vec3 1.0 0.0 0.0) in
let correctionFactorX := 0.77%f in
let correctionFactorY := (1.0 / sinf X angle)%f in
let scalingMatrix :=
glm.scale_mat glm.identity
  (glm.Vec3 correctionFactorX correctionFactorY 1.0) in
with_projection (scalingMatrix × rotationMatrix × orthoProjection) v.

Definition GetProjectionMatrix (v : ViewManager) : glm.mat4 := projection v.

(** [if (glfwGetKey(m_pWindow, key) == GLFW_PRESS) g_pCamera->ProcessKeyboard(...)] *)
Definition move_if_pressed (window : GLFWwindow) (key : Key)
(direction : Camera_Movement) (deltaTime : float) (camera : Camera X)
: Camera X :=
if key_pressed window key then ProcessKeyboard X direction deltaTime camera
else camera.

(** [glfwGetKey] needs a window: with [m_pWindow] null the method is
undefined. *)
Definition ProcessKeyboardEvents (w : World X) : option (World X) :=
match m_pWindow (this w) with
| None => None
| Some window =>
  let w :=
    if key_pressed window GLFW_KEY_ESCAPE then
      with_this (with_window (Some (glfwSetWindowShouldClose window))
                   (this w)) w
    else w in
  match g_pCamera w with
  | None => Some w
  | Some camera =>
      let camera := move_if_pressed window GLFW_KEY_W FORWARD (gDeltaTime w) camera in
      let camera := move_if_pressed window GLFW_KEY_S BACKWARD (gDeltaTime w) camera in
      let camera := move_if_pressed window GLFW_KEY_A LEFT (gDeltaTime w) camera in
      let camera := move_if_pressed window GLFW_KEY_D RIGHT (gDeltaTime w) camera in
      let camera := move_if_pressed window GLFW_KEY_Q UP (gDeltaTime w) camera in
      let camera := move_if_pressed window GLFW_KEY_E DOWN (gDeltaTime w) camera in
      let w := with_camera (Some camera) w in
      let w :=
        if key_pressed window GLFW_KEY_P then
          with_orthographic false (with_this (SetPerspective (this w)) w)
        else w in
      let w :=
        if key_pressed window GLFW_KEY_O then
          with_orthographic true (with_this (SetOrthographic (this w)) w)
        else w in
      Some w
  end
end.

(** [now] is what [glfwGetTime()] returns.  [g_pCamera->GetViewMatrix()]
comes after the keyboard handling and has no null test of its own. *)
Definition PrepareSceneView (now : double) (w : World X) : option (World X) :=
let currentFrame := F32.of_double now in
let w := with_timing (currentFrame - gLastFrame w)%f currentFrame w in
match ProcessKeyboardEvents w with
| None => None
| Some w =>
  match g_pCamera w with
  | None => None
  | Some camera =>
      let view := GetViewMatrix X camera in
      match m_pShaderManager (this w) with
      | Some sh =>
          let sh := setMat4Value g_ViewName view sh in
          let sh := setMat4Value g_ProjectionName (projection (this w)) sh in
          let sh := setVec3Value "viewPosition" (Position X camera) sh in
          Some (with_this (with_view_shader (Some sh) (this w)) w)
      | None => Some w
      end
  end
end.
End Methods.
End View.

(** * Auxiliary definitions for the statements *)

(** [w] with its shader replaced. *)
Definition world_with_shader (sh : ShaderManager) (w : World) : World :=
  {| this := with_shader (Some sh) (this w); gl := gl w;
     stbi_flip_vertically_on_load := stbi_flip_vertically_on_load w;
     cout := cout w |}.

(** The names of the material uniforms and of the sampler uniform. *)
Definition material_uniform_names : list string :=
  ["material.ambientColor"; "material.ambientStrength";
   "material.diffuseColor"; "material.specularColor";
   "material.shininess"].

(** The registered textures: the first [m_loadedTextures] entries of the
    array, and their tags. *)
Definition registered (s : SceneManager) : list TEXTURE_INFO :=
  take (Z.to_nat (m_loadedTextures s)) (vec_to_list (m_textureIDs s)).

Definition registered_tags (s : SceneManager) : list string :=
  tex_tag <$> registered s.

(** What the two lookup loops compute over the entries [l], the first of
    which has index [k]: the handle and the index of the first entry with
    the tag, if any, and the sentinel -1 otherwise. *)
Definition first_match (tag0 : string) (l : list TEXTURE_INFO) (k : nat)
    : Z * Z :=
  match list_find (fun info => tex_tag info = tag0) l with
  | Some (i, info) => (ID info, Z.of_nat (k + i))
  | None => (-1, -1)
  end.

(** A sequence of registrations, one [CreateGLTexture] call per
    [(filename, tag)] pair, collecting the return values. *)
Fixpoint register_all (stbi_load : bool -> string -> option Image)
    (pairs : list (string * string)) : M (list bool) :=
  match pairs with
  | [] => mret []
  | (filename, tag0) :: pairs' =>
      b ← CreateGLTexture stbi_load filename tag0;
      bs ← register_all stbi_load pairs';
      mret (b :: bs)
  end.

(** An image can be registered when it decodes to RGB or RGBA. *)
Definition decodable (stbi_load : bool -> string -> option Image)
    (filename : string) : Prop :=
  exists image, stbi_load true filename = Some image /\
    (colorChannels image = 3 \/ colorChannels image = 4).

(** A scene manager constructed in zeroed memory, in a fresh GL context. *)
Definition empty_shader : ShaderManager := {| uniforms := ∅ |}.

Definition blank_texture : TEXTURE_INFO := {| tex_tag := ""; ID := 0 |}.

Definition fresh_scene (sh : option ShaderManager) : SceneManager :=
  SceneManager_constructor sh (vreplicate 4 (glm.Vec3 0 0 0)) 0
    (vreplicate 16 0).

Definition fresh_gl : GLContext :=
  {| gl_next_name := 1; gl_active_texture := GL_TEXTURE0;
     gl_texture_binding_2d := ∅; gl_textures := ∅ |}.

Definition fresh_world (sh : option ShaderManager) : World :=
  {| this := fresh_scene sh; gl := fresh_gl;
     stbi_flip_vertically_on_load := false; cout := [] |}.

(** A scene manager constructed in memory where [m_loadedTextures] holds
    [memory_count], in a fresh GL context. *)
Definition constructed_world (memory_count : Z) : World :=
  {| this :=
       SceneManager_constructor None (vreplicate 4 (glm.Vec3 0 0 0))
         memory_count (vreplicate 16 0);
     gl := fresh_gl; stbi_flip_vertically_on_load := false; cout := [] |}.

(** Two files on disk, an RGB and an RGBA image, and nothing else. *)
Definition rgb_image : Image :=
  {| width := 1; height := 1; colorChannels := 3; pixels := [] |}.

Definition rgba_image : Image :=
  {| width := 1; height := 1; colorChannels := 4; pixels := [] |}.

Definition grey_image : Image :=
  {| width := 1; height := 1; colorChannels := 1; pixels := [] |}.

Definition two_files (flip : bool) (filename : string) : option Image :=
  if String.eqb filename "fileA.png" then Some rgb_image
  else if String.eqb filename "fileB.png" then Some rgba_image
  else if String.eqb filename "grey.png" then Some grey_image
  else None.

(** The line that reports a failed registration of [filename]. *)
Definition failure_line (stbi_load : bool -> string -> option Image)
    (filename : string) : ConsoleLine :=
  match stbi_load true filename with
  | Some image => NotImplementedChannels (colorChannels image)
  | None => CouldNotLoadImage filename
  end.

(** [w] with its GL context replaced. *)
Definition world_with_gl (g : GLContext) (w : World) : World :=
  {| this := this w; gl := g;
     stbi_flip_vertically_on_load := stbi_flip_vertically_on_load w;
     cout := cout w |}.

(** The GL calls of [BindGLTextures] over the entries [l], the first of
    which has index [i]. *)
Fixpoint bind_from (l : list TEXTURE_INFO) (i : Z) (g : GLContext)
    : GLContext :=
  match l with
  | [] => g
  | info :: l' =>
      bind_from l' (i + 1)
        (glBindTexture (ID info) (glActiveTexture (GL_TEXTURE0 + i) g))
  end.

(** In [g], the units from [i] on already hold the textures of [l], and
    these textures exist. *)
Definition bound_from (l : list TEXTURE_INFO) (i : Z) (g : GLContext) : Prop :=
  forall (j : nat) (info : TEXTURE_INFO),
    l !! j = Some info ->
    gl_texture_binding_2d g !! (GL_TEXTURE0 + i + Z.of_nat j) = Some (ID info) /\
    (ID info = 0 \/ is_Some (gl_textures g !! ID info)).

(** A registry of two textures, "a" with handle 1 in slot 0 and "b" with
    handle 2 in slot 1. *)
Definition two_texture_world : World :=
  {| this :=
       with_textures 2
         (vupdate (vupdate (vreplicate 16 blank_texture) 0
                     {| tex_tag := "a"; ID := 1 |}) 1
            {| tex_tag := "b"; ID := 2 |})
         (fresh_scene (Some empty_shader));
     gl := fresh_gl; stbi_flip_vertically_on_load := true; cout := [] |}.

(** The uniforms that [SetShaderMaterial] writes for [material]. *)
Definition material_uniforms (material : OBJECT_MATERIAL)
    (sh : ShaderManager) : ShaderManager :=
  setFloatValue "material.shininess" (shininess material)
    (setVec3Value "material.specularColor" (specularColor material)
       (setVec3Value "material.diffuseColor" (diffuseColor material)
          (setFloatValue "material.ambientStrength" (ambientStrength material)
             (setVec3Value "material.ambientColor" (ambientColor material) sh)))).

(** The catalog as the specification lists it: four materials that share
    their colours and differ in ambient strength and shininess, and the
    all-zero material "void". *)
Definition shared_material (strength shine : float) (name : string)
    : OBJECT_MATERIAL :=
  {| ambientStrength := strength;
     ambientColor := glm.Vec3 0.3 0.3 0.3;
     diffuseColor := glm.Vec3 0.8 0.7 0.2;
     specularColor := glm.Vec3 0.5 0.5 0.5;
     shininess := shine;
     tag := name |}.

Definition void_material : OBJECT_MATERIAL :=
  {| ambientStrength := 0;
     ambientColor := glm.Vec3 0 0 0;
     diffuseColor := glm.Vec3 0 0 0;
     specularColor := glm.Vec3 0 0 0;
     shininess := 0;
     tag := "void" |}.

Definition specified_catalog : list OBJECT_MATERIAL :=
  [ shared_material 0.7 50 "shiny";
    shared_material 0.5 25 "shinyish";
    shared_material 0.5 16 "porcelaine";
    shared_material 0.6 1 "dull";
    void_material ].

(** [w] with its material catalog replaced. *)
Definition world_with_materials (ms : list OBJECT_MATERIAL) (w : World) : World :=
  {| this := with_materials ms (this w); gl := gl w;
     stbi_flip_vertically_on_load := stbi_flip_vertically_on_load w;
     cout := cout w |}.

(** What an uninitialised [OBJECT_MATERIAL] may hold, for the examples. *)
Definition stale_material : OBJECT_MATERIAL :=
  {| ambientStrength := 7;
     ambientColor := glm.Vec3 1 2 3;
     diffuseColor := glm.Vec3 4 5 6;
     specularColor := glm.Vec3 7 8 9;
     shininess := 123;
     tag := "" |}.

(** The scene after its materials are defined and "shiny" is selected. *)
Definition shiny_selected : option World :=
  match (DefineObjectMaterials;; SetShaderMaterial stale_material "shiny")
          (fresh_world (Some empty_shader)) with
  | Some (_, w) => Some w
  | None => None
  end.

(** ** GLM as a template

    GLM's functions are templates over the scalar type; the module [glm]
    is their instance at [float].  Here they are once more with the scalar
    type and its arithmetic left open, so that the expression that
    [SetTransformations] evaluates in binary32 can be read in any other
    arithmetic as well. *)

Module glmT.
Record Scalar : Type :=
  { T : Type;
    zero : T;
    one : T;
    add : T -> T -> T;
    sub : T -> T -> T;
    mul : T -> T -> T;
    opp : T -> T;
    (** [glm::inversesqrt] *)
    inversesqrt : T -> T;
    (** [std::cos] and [std::sin] *)
    cos : T -> T;
    sin : T -> T;
    (** [static_cast<T>(0.01745329251994329576923690768489)] *)
    degree : T }.

Record vec3 (S : Scalar) : Type := Vec3 { x3 : T S; y3 : T S; z3 : T S }.
Record vec4 (S : Scalar) : Type :=
  Vec4 { x4 : T S; y4 : T S; z4 : T S; w4 : T S }.
Record mat4 (S : Scalar) : Type :=
  Mat4 { col0 : vec4 S; col1 : vec4 S; col2 : vec4 S; col3 : vec4 S }.

Arguments Vec3 {S}.
Arguments x3 {S}.
Arguments y3 {S}.
Arguments z3 {S}.
Arguments Vec4 {S}.
Arguments x4 {S}.
Arguments y4 {S}.
Arguments z4 {S}.
Arguments w4 {S}.
Arguments Mat4 {S}.
Arguments col0 {S}.
Arguments col1 {S}.
Arguments col2 {S}.
Arguments col3 {S}.

Section WithScalar.
Variable S : Scalar.

Local Notation "x ⊕ y" := (add S x y) (at level 50, left associativity).
Local Notation "x ⊖ y" := (sub S x y) (at level 50, left associativity).
Local Notation "x ⊗ y" := (mul S x y) (at level 40, left associativity).

Definition vec3_scale (k : T S) (v : vec3 S) : vec3 S :=
  Vec3 (k ⊗ x3 v) (k ⊗ y3 v) (k ⊗ z3 v).

Definition vec4_scale (v : vec4 S) (k : T S) : vec4 S :=
  Vec4 (x4 v ⊗ k) (y4 v ⊗ k) (z4 v ⊗ k) (w4 v ⊗ k).

Definition vec4_add (a b : vec4 S) : vec4 S :=
  Vec4 (x4 a ⊕ x4 b) (y4 a ⊕ y4 b) (z4 a ⊕ z4 b) (w4 a ⊕ w4 b).

Definition identity : mat4 S :=
  Mat4 (Vec4 (one S) (zero S) (zero S) (zero S))
       (Vec4 (zero S) (one S) (zero S) (zero S))
       (Vec4 (zero S) (zero S) (one S) (zero S))
       (Vec4 (zero S) (zero S) (zero S) (one S)).

Definition radians (degrees : T S) : T S := degrees ⊗ degree S.

Definition dot (a b : vec3 S) : T S :=
  (x3 a ⊗ x3 b) ⊕ (y3 a ⊗ y3 b) ⊕ (z3 a ⊗ z3 b).

Definition normalize (v : vec3 S) : vec3 S :=
  let k := inversesqrt S (dot v v) in
  Vec3 (x3 v ⊗ k) (y3 v ⊗ k) (z3 v ⊗ k).

Definition mat4_mul_col (m1 : mat4 S) (b : vec4 S) : vec4 S :=
  vec4_add
    (vec4_add
       (vec4_add (vec4_scale (col0 m1) (x4 b)) (vec4_scale (col1 m1) (y4 b)))
       (vec4_scale (col2 m1) (z4 b)))
    (vec4_scale (col3 m1) (w4 b)).

Definition mat4_mul (m1 m2 : mat4 S) : mat4 S :=
  Mat4 (mat4_mul_col m1 (col0 m2)) (mat4_mul_col m1 (col1 m2))
       (mat4_mul_col m1 (col2 m2)) (mat4_mul_col m1 (col3 m2)).

Definition translate_mat (m : mat4 S) (v : vec3 S) : mat4 S :=
  Mat4 (col0 m) (col1 m) (col2 m)
       (vec4_add
          (vec4_add
             (vec4_add (vec4_scale (col0 m) (x3 v)) (vec4_scale (col1 m) (y3 v)))
             (vec4_scale (col2 m) (z3 v)))
          (col3 m)).

Definition scale_mat (m : mat4 S) (v : vec3 S) : mat4 S :=
  Mat4 (vec4_scale (col0 m) (x3 v)) (vec4_scale (col1 m) (y3 v))
       (vec4_scale (col2 m) (z3 v)) (col3 m).

Definition rotate_mat (m : mat4 S) (angle : T S) (v : vec3 S) : mat4 S :=
  let a := angle in
  let c := cos S a in
  let s := sin S a in
  let axis := normalize v in
  let temp := vec3_scale (one S ⊖ c) axis in
  let r00 := c ⊕ x3 temp ⊗ x3 axis in
  let r01 := x3 temp ⊗ y3 axis ⊕ s ⊗ z3 axis in
  let r02 := x3 temp ⊗ z3 axis ⊖ s ⊗ y3 axis in
  let r10 := y3 temp ⊗ x3 axis ⊖ s ⊗ z3 axis in
  let r11 := c ⊕ y3 temp ⊗ y3 axis in
  let r12 := y3 temp ⊗ z3 axis ⊕ s ⊗ x3 axis in
  let r20 := z3 temp ⊗ x3 axis ⊕ s ⊗ y3 axis in
  let r21 := z3 temp ⊗ y3 axis ⊖ s ⊗ x3 axis in
  let r22 := c ⊕ z3 temp ⊗ z3 axis in
  let column r0 r1 r2 :=
    vec4_add
      (vec4_add (vec4_scale (col0 m) r0) (vec4_scale (col1 m) r1))
      (vec4_scale (col2 m) r2) in
  Mat4 (column r00 r01 r02) (column r10 r11 r12) (column r20 r21 r22)
       (col3 m).

Definition translate (v : vec3 S) : mat4 S := translate_mat identity v.
Definition rotate (angle : T S) (v : vec3 S) : mat4 S :=
  rotate_mat identity angle v.
Definition scale (v : vec3 S) : mat4 S := scale_mat identity v.

(** The matrix that [SetTransformations] computes in its local
    [modelView]. *)
Definition modelView (scaleXYZ : vec3 S)
    (XrotationDegrees YrotationDegrees ZrotationDegrees : T S)
    (positionXYZ : vec3 S) : mat4 S :=
  let scale := scale scaleXYZ in
  let rotationX :=
    rotate (radians XrotationDegrees) (Vec3 (one S) (zero S) (zero S)) in
  let rotationY :=
    rotate (radians YrotationDegrees) (Vec3 (zero S) (one S) (zero S)) in
  let rotationZ :=
    rotate (radians ZrotationDegrees) (Vec3 (zero S) (zero S) (one S)) in
  let translation := translate positionXYZ in
  mat4_mul
    (mat4_mul (mat4_mul (mat4_mul translation rotationX) rotationY)
       rotationZ)
    scale.

(** The rows of a (column-major) matrix, and the matrix applied to the
    point [(x, y, z)], that is to the column [(x, y, z, 1)], which is
    how the vertex shader uses [model]. *)
Definition rows (m : mat4 S) : list (list (T S)) :=
  [ [x4 (col0 m); x4 (col1 m); x4 (col2 m); x4 (col3 m)];
    [y4 (col0 m); y4 (col1 m); y4 (col2 m); y4 (col3 m)];
    [z4 (col0 m); z4 (col1 m); z4 (col2 m); z4 (col3 m)];
    [w4 (col0 m); w4 (col1 m); w4 (col2 m); w4 (col3 m)] ].

Definition point (p : vec3 S) : vec4 S :=
  Vec4 (x3 p) (y3 p) (z3 p) (one S).

Definition transform (m : mat4 S) (p : vec3 S) : vec4 S :=
  mat4_mul_col m (point p).
End WithScalar.
End glmT.

(** The arithmetic of the program: binary32, with the C library's [cosf]
    and [sinf]. *)
Definition binary32 (cosf sinf : float -> float) : glmT.Scalar :=
  {| glmT.T := float;
     glmT.zero := 0%f;
     glmT.one := 1%f;
     glmT.add := F32.add;
     glmT.sub := F32.sub;
     glmT.mul := F32.mul;
     glmT.opp := SFopp;
     glmT.inversesqrt := glm.inversesqrt;
     glmT.cos := cosf;
     glmT.sin := sinf;
     glmT.degree := F32.of_double (0.01745329251994329576923690768489)%d |}.

Section Binary32.
Variables cosf sinf : float -> float.

Definition vec3_of_glm (v : glm.vec3) : glmT.vec3 (binary32 cosf sinf) :=
  glmT.Vec3 (S := binary32 cosf sinf) (glm.x3 v) (glm.y3 v) (glm.z3 v).

Definition vec4_to_glm (v : glmT.vec4 (binary32 cosf sinf)) : glm.vec4 :=
  glm.Vec4 (glmT.x4 v) (glmT.y4 v) (glmT.z4 v) (glmT.w4 v).

Definition mat4_to_glm (m : glmT.mat4 (binary32 cosf sinf)) : glm.mat4 :=
  glm.Mat4 (vec4_to_glm (glmT.col0 m)) (vec4_to_glm (glmT.col1 m))
    (vec4_to_glm (glmT.col2 m)) (vec4_to_glm (glmT.col3 m)).
End Binary32.

(** ** The transform of the specification

    [Translate(position) · RotateX(rotX) · RotateY(rotY) · RotateZ(rotZ)
     · Scale(scale)], with the matrices of the textbook, written by rows,
    and the rotations given in degrees. *)
Section Compose.
Variable S : glmT.Scalar.

Local Notation "'O'" := (glmT.zero S).
Local Notation "'I'" := (glmT.one S).

Definition Matrix : Type := list (list (glmT.T S)).

Definition Translate (x y z : glmT.T S) : Matrix :=
  [ [I; O; O; x];
    [O; I; O; y];
    [O; O; I; z];
    [O; O; O; I] ].

Definition RotateX (angle : glmT.T S) : Matrix :=
  let c := glmT.cos S angle in
  let s := glmT.sin S angle in
  [ [I; O; O; O];
    [O; c; glmT.opp S s; O];
    [O; s; c; O];
    [O; O; O; I] ].

Definition RotateY (angle : glmT.T S) : Matrix :=
  let c := glmT.cos S angle in
  let s := glmT.sin S angle in
  [ [c; O; s; O];
    [O; I; O; O];
    [glmT.opp S s; O; c; O];
    [O; O; O; I] ].

Definition RotateZ (angle : glmT.T S) : Matrix :=
  let c := glmT.cos S angle in
  let s := glmT.sin S angle in
  [ [c; glmT.opp S s; O; O];
    [s; c; O; O];
    [O; O; I; O];
    [O; O; O; I] ].

Definition Scale (x y z : glmT.T S) : Matrix :=
  [ [x; O; O; O];
    [O; y; O; O];
    [O; O; z; O];
    [O; O; O; I] ].

(** Row by column. *)
Definition sum (l : list (glmT.T S)) : glmT.T S :=
  foldr (glmT.add S) O l.

Definition column (j : nat) (m : Matrix) : list (glmT.T S) :=
  (fun row => nth j row O) <$> m.

Definition product (a b : Matrix) : Matrix :=
  (fun row =>
     (fun j => sum (zip_with (glmT.mul S) row (column j b))) <$> seq 0 4)
    <$> a.

(** The same five steps on a point. *)
Definition scale_point (k p : glmT.vec3 S) : glmT.vec3 S :=
  glmT.Vec3 (glmT.mul S (glmT.x3 k) (glmT.x3 p))
    (glmT.mul S (glmT.y3 k) (glmT.y3 p))
    (glmT.mul S (glmT.z3 k) (glmT.z3 p)).

Definition rotate_x_point (angle : glmT.T S) (p : glmT.vec3 S)
    : glmT.vec3 S :=
  let c := glmT.cos S angle in
  let s := glmT.sin S angle in
  glmT.Vec3 (glmT.x3 p)
    (glmT.sub S (glmT.mul S c (glmT.y3 p)) (glmT.mul S s (glmT.z3 p)))
    (glmT.add S (glmT.mul S s (glmT.y3 p)) (glmT.mul S c (glmT.z3 p))).

Definition rotate_y_point (angle : glmT.T S) (p : glmT.vec3 S)
    : glmT.vec3 S :=
  let c := glmT.cos S angle in
  let s := glmT.sin S angle in
  glmT.Vec3
    (glmT.add S (glmT.mul S c (glmT.x3 p)) (glmT.mul S s (glmT.z3 p)))
    (glmT.y3 p)
    (glmT.sub S (glmT.mul S c (glmT.z3 p)) (glmT.mul S s (glmT.x3 p))).

Definition rotate_z_point (angle : glmT.T S) (p : glmT.vec3 S)
    : glmT.vec3 S :=
  let c := glmT.cos S angle in
  let s := glmT.sin S angle in
  glmT.Vec3
    (glmT.sub S (glmT.mul S c (glmT.x3 p)) (glmT.mul S s (glmT.y3 p)))
    (glmT.add S (glmT.mul S s (glmT.x3 p)) (glmT.mul S c (glmT.y3 p)))
    (glmT.z3 p).

Definition translate_point (t p : glmT.vec3 S) : glmT.vec3 S :=
  glmT.Vec3 (glmT.add S (glmT.x3 p) (glmT.x3 t))
    (glmT.add S (glmT.y3 p) (glmT.y3 t))
    (glmT.add S (glmT.z3 p) (glmT.z3 t)).

Definition Radians (degrees : glmT.T S) : glmT.T S :=
  glmT.mul S degrees (glmT.degree S).

Definition Compose (scale : glmT.vec3 S) (rotXDeg rotYDeg rotZDeg : glmT.T S)
    (position : glmT.vec3 S) : Matrix :=
  product
    (product
       (product
          (product
             (Translate (glmT.x3 position) (glmT.y3 position)
                (glmT.z3 position))
             (RotateX (Radians rotXDeg)))
          (RotateY (Radians rotYDeg)))
       (RotateZ (Radians rotZDeg)))
    (Scale (glmT.x3 scale) (glmT.y3 scale) (glmT.z3 scale)).

(** [Translate(position) · Scale(scale)], multiplied out. *)
Definition TranslateScale (position scale : glmT.vec3 S) : Matrix :=
  [ [glmT.x3 scale; O; O; glmT.x3 position];
    [O; glmT.y3 scale; O; glmT.y3 position];
    [O; O; glmT.z3 scale; glmT.z3 position];
    [O; O; O; I] ].

Definition Compose_point (scale : glmT.vec3 S)
    (rotXDeg rotYDeg rotZDeg : glmT.T S) (position p : glmT.vec3 S)
    : glmT.vec3 S :=
  translate_point position
    (rotate_x_point (Radians rotXDeg)
       (rotate_y_point (Radians rotYDeg)
          (rotate_z_point (Radians rotZDeg) (scale_point scale p)))).
End Compose.

(** An exact arithmetic for the examples: the integers, with quarter turns
    ([cos] 0 and [sin] 1 at every angle but 0, where they are 1 and 0). *)
Definition quarter_turns : glmT.Scalar :=
  {| glmT.T := Z;
     glmT.zero := 0;
     glmT.one := 1;
     glmT.add := Z.add;
     glmT.sub := Z.sub;
     glmT.mul := Z.mul;
     glmT.opp := Z.opp;
     glmT.inversesqrt := fun x => x;
     glmT.cos := fun a => if Z.eqb a 0 then 1 else 0;
     glmT.sin := fun a => if Z.eqb a 0 then 0 else 1;
     glmT.degree := 1 |}.

(** ** Numbers of binary32

    A number is a zero or a finite value in canonical form, as against an
    infinity or a NaN; two numbers are the same, as [==] has it, when they
    are equal or both zero. *)
Definition number32 (x : float) : Prop :=
  match x with
  | S754_zero _ => True
  | S754_finite _ m e => bounded 24 128 m e = true
  | _ => False
  end.

Definition zero32 (x : float) : Prop :=
  match x with
  | S754_zero _ => True
  | _ => False
  end.

Definition same_number (x y : float) : Prop :=
  x = y \/ (zero32 x /\ zero32 y).

Definition number_vec3 (v : glm.vec3) : Prop :=
  number32 (glm.x3 v) /\ number32 (glm.y3 v) /\ number32 (glm.z3 v).

(** [u] is the number [v], entry by entry for vectors and matrices. *)
Definition is_number (u v : float) : Prop := same_number u v /\ number32 v.

Definition is_vec4 (u v : glm.vec4) : Prop :=
  is_number (glm.x4 u) (glm.x4 v) /\ is_number (glm.y4 u) (glm.y4 v) /\
  is_number (glm.z4 u) (glm.z4 v) /\ is_number (glm.w4 u) (glm.w4 v).

Definition is_mat4 (u v : glm.mat4) : Prop :=
  is_vec4 (glm.col0 u) (glm.col0 v) /\ is_vec4 (glm.col1 u) (glm.col1 v) /\
  is_vec4 (glm.col2 u) (glm.col2 v) /\ is_vec4 (glm.col3 u) (glm.col3 v).

(** The matrices of a translation, of a scaling and of their product, by
    columns. *)
Definition translation_matrix (p : glm.vec3) : glm.mat4 :=
  glm.Mat4 (glm.Vec4 1 0 0 0) (glm.Vec4 0 1 0 0) (glm.Vec4 0 0 1 0)
    (glm.Vec4 (glm.x3 p) (glm.y3 p) (glm.z3 p) 1).

Definition scale_matrix (k : glm.vec3) : glm.mat4 :=
  glm.Mat4 (glm.Vec4 (glm.x3 k) 0 0 0) (glm.Vec4 0 (glm.y3 k) 0 0)
    (glm.Vec4 0 0 (glm.z3 k) 0) (glm.Vec4 0 0 0 1).

Definition translation_scale_matrix (p k : glm.vec3) : glm.mat4 :=
  glm.Mat4 (glm.Vec4 (glm.x3 k) 0 0 0) (glm.Vec4 0 (glm.y3 k) 0 0)
    (glm.Vec4 0 0 (glm.z3 k) 0)
    (glm.Vec4 (glm.x3 p) (glm.y3 p) (glm.z3 p) 1).

(** Stand-ins for [cosf] and [sinf] that are exact at 0, for the examples:
    the first terms of the two power series. *)
Definition cos_series (a : float) : float := (1 - (a * a) / 2)%f.
Definition sin_series (a : float) : float := a.

(** [c] leaves the part [proj] of the world as it was, whenever it
    returns. *)
Definition preserves {X A : Type} (proj : World -> X) (c : M A) : Prop :=
  forall w a w', c w = Some (a, w') -> proj w' = proj w.

(** [c] returns from every world that satisfies [inv], in a world that
    satisfies [inv] again. *)
Definition maintains {A : Type} (inv : World -> Prop) (c : M A) : Prop :=
  forall w, inv w -> exists a w', c w = Some (a, w') /\ inv w'.

(** The two registries: the texture entries with their counter, and the
    material catalog. *)
Definition registries (w : World)
    : Z * vec TEXTURE_INFO 16 * list OBJECT_MATERIAL :=
  (m_loadedTextures (this w), m_textureIDs (this w),
   m_objectMaterials (this w)).

(** Everything a render pass has no business changing: all of the world
    except the shader's uniforms and the calls made on the mesh library. *)
Definition outside_shader_and_meshes (w : World) :=
  (lightPositions (this w), registries w, gl w,
   stbi_flip_vertically_on_load w, cout w).

(** A world in which a render pass is defined: a shader is attached and
    the texture counter is within the array. *)
Definition renderable (w : World) : Prop :=
  is_Some (m_pShaderManager (this w)) /\ m_loadedTextures (this w) <= 16.

(** A scene ready to be rendered: a shader attached, the materials
    defined, two textures registered. *)
Definition prepared_world : World :=
  match DefineObjectMaterials two_texture_world with
  | Some (_, w) => w
  | None => two_texture_world
  end.

(** The phases of scene preparation.  The texture files and tags that
    [LoadSceneTextures] registers, in order, and the meshes that
    [PrepareScene] loads, in order. *)
Definition scene_texture_files : list (string * string) :=
  [ ("../../Utilities/textures/metal_table.jpg", "metal_table");
    ("../../Utilities/textures/blue_vase.jpg", "blue_vase");
    ("../../Utilities/textures/blue_vase3.jpg", "blue_vase3");
    ("../../Utilities/textures/tiger_wood.jpg", "tiger_wood");
    ("../../Utilities/textures/pink_matte.jpg", "pink_matte");
    ("../../Utilities/textures/pink_matte2.jpg", "pink_matte2");
    ("../../Utilities/textures/ruby4.jpg", "ruby4");
    ("../../Utilities/textures/ruby6.jpg", "ruby6");
    ("../../Utilities/textures/ruby8.jpg", "ruby8");
    ("../../Utilities/textures/ruby9.jpg", "ruby9");
    ("../../Utilities/textures/trash1.jpg", "trash1");
    ("../../Utilities/textures/can_skin.jpg", "can_skin");
    ("../../Utilities/textures/matte_rubber.jpg", "matte_rubber");
    ("../../Utilities/textures/porcelain_vase.jpg", "porcelain_vase") ].

Definition scene_mesh_kinds : list MeshKind :=
  [ BoxMesh; PlaneMesh; CylinderMesh; ConeMesh; PrismMesh; Pyramid4Mesh;
    SphereMesh; TaperedCylinderMesh; TorusMesh ].

(** Registrations one after the other, return values dropped, then [c]. *)
Fixpoint register_then {B : Type} (stbi_load : bool -> string -> option Image)
    (pairs : list (string * string)) (c : M B) : M B :=
  match pairs with
  | [] => c
  | (filename, tag0) :: pairs' =>
      CreateGLTexture stbi_load filename tag0 ≫= fun _ =>
      register_then stbi_load pairs' c
  end.

Definition prepare_phases (stbi_load : bool -> string -> option Image)
    : M unit :=
  SetupSceneLights;;
  DefineObjectMaterials;;
  (register_all stbi_load scene_texture_files ≫= fun _ => BindGLTextures);;
  for_each scene_mesh_kinds (fun k => mesh_call (LoadMesh k)).

(** The image files that the console shows to have been tried, in order:
    every call of [CreateGLTexture] reports its file once, as loaded or as
    not loadable. *)
Definition attempted_file (l : ConsoleLine) : option string :=
  match l with
  | SuccessfullyLoadedImage filename _ _ _ => Some filename
  | NotImplementedChannels _ => None
  | CouldNotLoadImage filename => Some filename
  end.

Definition attempted_files (lines : list ConsoleLine) : list string :=
  omap attempted_file lines.

(** A disk on which every file is an RGB image. *)
Definition every_file_rgb (flip : bool) (filename : string) : option Image :=
  Some rgb_image.

(** What [PrepareScene] leaves alone while it sets up the lights, and
    while it registers the textures. *)
Definition outside_lights (w : World) :=
  (m_basicMeshes (this w), m_objectMaterials (this w), cout w).

Definition outside_textures (w : World) :=
  (m_basicMeshes (this w), m_objectMaterials (this w)).

(** A world in which scene preparation is defined: a shader is attached
    and the texture array has room for [room] more entries. *)
Definition preparable (room : Z) (w : World) : Prop :=
  is_Some (m_pShaderManager (this w)) /\
  0 <= m_loadedTextures (this w) /\ m_loadedTextures (this w) + room <= 16.

(** * Auxiliary definitions for the further properties *)

(** The GL context after the GL calls of a successful [CreateGLTexture],
    and after those of one that stops at the channel test. *)
Definition gl_with_parameters (g : GLContext) : GLContext :=
  glTexParameteri GL_TEXTURE_MAG_FILTER GL_LINEAR
    (glTexParameteri GL_TEXTURE_MIN_FILTER GL_LINEAR
       (glTexParameteri GL_TEXTURE_WRAP_T GL_REPEAT
          (glTexParameteri GL_TEXTURE_WRAP_S GL_REPEAT
             (glBindTexture (gl_next_name g) (snd (glGenTextures g)))))).

Definition gl_after_upload (fmt : GLformat) (image : Image) (g : GLContext)
    : GLContext :=
  glBindTexture 0
    (glGenerateMipmap (glTexImage2D fmt image (gl_with_parameters g))).

(** The internal format chosen for a channel count. *)
Definition format_of_channels (channels : Z) : GLformat :=
  if channels =? 3 then GL_RGB8 else GL_RGBA8.

(** The texture object a successful upload leaves behind. *)
Definition uploaded_texture (image : Image) : TextureObject :=
  {| tex_parameters :=
       [ (GL_TEXTURE_MAG_FILTER, GL_LINEAR); (GL_TEXTURE_MIN_FILTER, GL_LINEAR);
         (GL_TEXTURE_WRAP_T, GL_REPEAT); (GL_TEXTURE_WRAP_S, GL_REPEAT) ];
     tex_image := Some (format_of_channels (colorChannels image), image);
     tex_mipmaps := true |}.

(** The GL context after [n] calls of [glGenTextures]. *)
Definition consume_names (n : nat) (g : GLContext) : GLContext :=
  {| gl_next_name := gl_next_name g + Z.of_nat n;
     gl_active_texture := gl_active_texture g;
     gl_texture_binding_2d := gl_texture_binding_2d g;
     gl_textures := gl_textures g |}.

(** The entry at index [j] after [DestroyGLTextures] has renamed the
    entries from index [k] on, [first] being the first new name. *)
Definition rename_entry (first : Z) (k j : nat) (info : TEXTURE_INFO)
    : TEXTURE_INFO :=
  {| tex_tag := tex_tag info; ID := first + Z.of_nat (j - k) |}.

(** The four light positions that [SetupSceneLights] stores, and the
    uniform writes it makes, in order. *)
Definition scene_light_positions : vec glm.vec3 4 :=
  [# (glm.Vec3 (-100.0) 40.0 50.0);
     (glm.Vec3 (-150.0) 40.0 (-25.0));
     (glm.Vec3 100.0 20.0 10.0);
     (glm.Vec3 20.0 50.0 (-100.0)) ].

Definition scene_light_writes : list (string * UniformValue) :=
  [ (g_UseLightingName, UBool true);
    ("lightSources[0].position", UVec3 (scene_light_positions !!! 0%fin));
    ("lightSources[0].ambientColor", UVec3 (glm.Vec3 0.0 0.0 0.0));
    ("lightSources[0].diffuseColor", UVec3 (glm.Vec3 0.0 0.0 0.0));
    ("lightSources[0].specularColor", UVec3 (glm.Vec3 0.0 0.0 0.0));
    ("lightSources[0].focalStrength", UFloat 50.0);
    ("lightSources[0].specularIntensity", UFloat 0.4);
    ("lightSources[1].position", UVec3 (scene_light_positions !!! 1%fin));
    ("lightSources[1].ambientColor", UVec3 (glm.Vec3 0.0 0.0 0.1));
    ("lightSources[1].diffuseColor", UVec3 (glm.Vec3 0.0 0.0 0.0));
    ("lightSources[1].specularColor", UVec3 (glm.Vec3 0.0 0.0 0.0));
    ("lightSources[1].focalStrength", UFloat 30.0);
    ("lightSources[1].specularIntensity", UFloat 0.1);
    ("lightSources[2].position", UVec3 (scene_light_positions !!! 2%fin));
    ("lightSources[2].ambientColor", UVec3 (glm.Vec3 0.0 0.0 0.3));
    ("lightSources[2].diffuseColor", UVec3 (glm.Vec3 0.0 0.0 0.2));
    ("lightSources[2].specularColor", UVec3 (glm.Vec3 0.0 0.0 2.0));
    ("lightSources[2].focalStrength", UFloat 100.0);
    ("lightSources[2].specularIntensity", UFloat 1.0);
    ("lightSources[3].position", UVec3 (scene_light_positions !!! 3%fin));
    ("lightSources[3].ambientColor", UVec3 (glm.Vec3 0.0 0.0 0.0));
    ("lightSources[3].diffuseColor", UVec3 (glm.Vec3 0.0 0.0 0.0));
    ("lightSources[3].specularColor", UVec3 (glm.Vec3 0.0 0.0 0.0));
    ("lightSources[3].focalStrength", UFloat 12.0);
    ("lightSources[3].specularIntensity", UFloat 0.2);
    ("lightSources[4].position", UVec3 (glm.Vec3 (-30.0) 40.0 30.0));
    ("lightSources[4].ambientColor", UVec3 (glm.Vec3 0.0 0.0 0.0));
    ("lightSources[4].diffuseColor", UVec3 (glm.Vec3 0.0 0.0 0.0));
    ("lightSources[4].specularColor", UVec3 (glm.Vec3 0.3 0.3 0.3));
    ("lightSources[4].focalStrength", UFloat 30.0);
    ("lightSources[4].specularIntensity", UFloat 0.3) ].

(** Uniform writes one after the other. *)
Definition write_uniforms (writes : list (string * UniformValue))
    (sh : ShaderManager) : ShaderManager :=
  foldl (fun sh write => set_uniform write.1 write.2 sh) sh writes.

(** The name of the position uniform of light [i]. *)
Definition light_position_name (i : fin 4) : string :=
  [# "lightSources[0].position"; "lightSources[1].position";
     "lightSources[2].position"; "lightSources[3].position" ] !!! i.

(** A world without a shader and without materials. *)
Definition bare (w : World) : Prop :=
  m_pShaderManager (this w) = None /\ m_objectMaterials (this w) = [].

#[global] Instance MeshKind_eq_dec : EqDecision MeshKind.
Proof. solve_decision. Defined.

(** The calls on the mesh library so far. *)
Definition mesh_log (w : World) : list MeshCall :=
  mesh_calls (m_basicMeshes (this w)).

(** [c] only adds draws of meshes that [PrepareScene] loads to the mesh
    log. *)
Definition draws_loaded_meshes {A : Type} (c : M A) : Prop :=
  forall w a w',
    c w = Some (a, w') ->
    exists kinds,
      mesh_log w' = mesh_log w ++ (DrawMesh <$> kinds) /\
      Forall (fun k => k ∈ scene_mesh_kinds) kinds.

(** ** Auxiliary definitions for the view manager *)

(** A camera that records the calls it receives. *)
Inductive CameraCall : Type :=
| Moved (direction : View.Camera_Movement) (deltaTime : float)
| Turned (xOffset yOffset : float)
| Scrolled (yOffset : float).

Definition logging_camera : View.Externals :=
  {| View.Camera := list CameraCall;
     View.Position := fun _ => glm.Vec3 3.0 12.0 15.0;
     View.ProcessKeyboard := fun direction deltaTime camera =>
       camera ++ [Moved direction deltaTime];
     View.ProcessMouseMovement := fun xOffset yOffset camera =>
       camera ++ [Turned xOffset yOffset];
     View.ProcessMouseScroll := fun yOffset camera =>
       camera ++ [Scrolled yOffset];
     View.GetViewMatrix := fun _ => glm.identity;
     View.cosf := cos_series;
     View.sinf := sin_series;
     View.perspective := fun _ _ _ _ => glm.identity;
     View.ortho := fun _ _ _ _ _ _ => glm.identity |}.

(** A view manager in its initial state: the variables of the anonymous
    namespace at their initialisers, the aspect ratio and the projection of
    the constructor. *)
Definition fresh_view (window : option View.GLFWwindow)
    (camera : option (View.Camera logging_camera))
    : View.World logging_camera :=
  {| View.this :=
       View.SetPerspective logging_camera
         {| View.m_pShaderManager := Some empty_shader;
            View.m_pWindow := window;
            View.projection := glm.identity;
            View.aspectRatio := (1000.0 / 800.0)%f |};
     View.g_pCamera := camera;
     View.gLastX := (1400.0 / 2.0)%f;
     View.gLastY := (1200.0 / 2.0)%f;
     View.gFirstMouse := true;
     View.gDeltaTime := 0.0%f;
     View.gLastFrame := 0.0%f;
     View.bOrthographicProjection := false |}.

Section ViewAux.
Variable X : View.Externals.

(** GLFW delivers the cursor positions one after the other. *)
Fixpoint mouse_events (events : list (double * double)) (w : View.World X)
  : option (View.World X) :=
match events with
| [] => Some w
| (x, y) :: events =>
    match View.Mouse_Position_Callback X x y w with
    | Some w => mouse_events events w
    | None => None
    end
end.

(** The offsets between consecutive cursor positions, from the recorded
  point [(lastX, lastY)] on. *)
Fixpoint mouse_offsets (lastX lastY : float) (events : list (double * double))
  : list (float * float) :=
match events with
| [] => []
| (x, y) :: events =>
    (F32.of_double (F64.sub x (F64.of_float lastX)),
     F32.of_double (F64.sub (F64.of_float lastY) y))
      :: mouse_offsets (F32.of_double x) (F32.of_double y) events
end.

Definition turn (camera : View.Camera X) (offset : float * float)
  : View.Camera X :=
View.ProcessMouseMovement X offset.1 offset.2 camera.

(** The recorded point after the events. *)
Definition last_point (lastX lastY : float) (events : list (double * double))
  : float * float :=
match last events with
| Some (x, y) => (F32.of_double x, F32.of_double y)
| None => (lastX, lastY)
end.

(** What the mouse callbacks do not touch. *)
Definition outside_mouse (w : View.World X) :=
(View.this w, View.gDeltaTime w, View.gLastFrame w,
 View.bOrthographicProjection w).

(** What the keyboard handling does not touch. *)
Definition outside_keyboard (w : View.World X) :=
(View.m_pShaderManager (View.this w), View.aspectRatio (View.this w),
 View.gLastX w, View.gLastY w, View.gFirstMouse w,
 View.gDeltaTime w, View.gLastFrame w).

Definition movement_keys : list View.Key :=
[View.GLFW_KEY_W; View.GLFW_KEY_S; View.GLFW_KEY_A; View.GLFW_KEY_D;
 View.GLFW_KEY_Q; View.GLFW_KEY_E].

Definition view_uniform_names : list string :=
[View.g_ViewName; View.g_ProjectionName; "viewPosition"].
End ViewAux.

(** * Properties *)

(** ** Running the monad *)

Lemma run_bind {A B : Type} (c : M A) (f : A -> M B) (w : World) :
  (c ≫= f) w = match c w with Some (a, w') => f a w' | None => None end.
Proof. reflexivity. Qed.

Lemma run_bind_Some {A B : Type} (c : M A) (f : A -> M B) w a w' :
  c w = Some (a, w') -> (c ≫= f) w = f a w'.
Proof. intros H. rewrite run_bind, H. reflexivity. Qed.

Lemma bind_inv {A B : Type} (c : M A) (f : A -> M B) w b w2 :
  (c ≫= f) w = Some (b, w2) ->
  exists a w1, c w = Some (a, w1) /\ f a w1 = Some (b, w2).
Proof.
  rewrite run_bind. destruct (c w) as [[a w1]|]; [|discriminate].
  intros H. exists a, w1. split; [reflexivity|exact H].
Qed.

Lemma shader_call_attached f w sh :
  m_pShaderManager (this w) = Some sh ->
  shader_call f w = Some (tt, world_with_shader (f sh) w).
Proof.
  intros H. unfold shader_call. rewrite run_bind. cbn.
  rewrite H. reflexivity.
Qed.

Lemma shader_call_null f w :
  m_pShaderManager (this w) = None -> shader_call f w = None.
Proof.
  intros H. unfold shader_call. rewrite run_bind. cbn.
  rewrite H. reflexivity.
Qed.

Lemma if_shader_attached body w sh :
  m_pShaderManager (this w) = Some sh -> if_shader body w = body w.
Proof.
  intros H. unfold if_shader. rewrite run_bind. cbn. rewrite H. reflexivity.
Qed.

Lemma if_shader_null body w :
  m_pShaderManager (this w) = None -> if_shader body w = Some (tt, w).
Proof.
  intros H. unfold if_shader. rewrite run_bind. cbn. rewrite H. reflexivity.
Qed.

Lemma world_with_shader_twice sh1 sh2 w :
  world_with_shader sh2 (world_with_shader sh1 w) = world_with_shader sh2 w.
Proof. reflexivity. Qed.

Lemma shader_of_world_with_shader sh w :
  m_pShaderManager (this (world_with_shader sh w)) = Some sh.
Proof. reflexivity. Qed.

(** ** The shader setters *)

(** C6. With a shader attached, [SetShaderColor r g b a] returns, sets
    [bUseTexture] to 0 (false) and [objectColor] to [(r, g, b, a)], and
    changes nothing else: every other uniform, in particular the five
    material uniforms and the sampler uniform [objectTexture], keeps its
    value, and the object, the GL context and the console are untouched. *)
Theorem SetShaderColor_sets_flag_and_color :
  forall (r g b a : float) (w : World) (sh : ShaderManager),
    m_pShaderManager (this w) = Some sh ->
    exists sh',
      SetShaderColor r g b a w = Some (tt, world_with_shader sh' w) /\
      uniforms sh' !! g_UseTextureName = Some (UInt 0) /\
      uniforms sh' !! g_ColorValueName = Some (UVec4 (glm.Vec4 r g b a)) /\
      (forall name, name <> g_UseTextureName -> name <> g_ColorValueName ->
         uniforms sh' !! name = uniforms sh !! name) /\
      (forall name, name ∈ material_uniform_names ->
         uniforms sh' !! name = uniforms sh !! name) /\
      uniforms sh' !! g_TextureValueName = uniforms sh !! g_TextureValueName.
Proof.
  intros r g b a w sh Hsh.
  exists (setVec4Value g_ColorValueName (glm.Vec4 r g b a)
            (setIntValue g_UseTextureName (int_of_bool false) sh)).
  assert (Hframe : forall name,
             name <> g_UseTextureName -> name <> g_ColorValueName ->
             uniforms (setVec4Value g_ColorValueName (glm.Vec4 r g b a)
                         (setIntValue g_UseTextureName (int_of_bool false) sh))
               !! name = uniforms sh !! name).
  { intros name H1 H2. cbn.
    rewrite lookup_insert_ne by congruence.
    rewrite lookup_insert_ne by congruence. reflexivity. }
  split; [|split; [|split; [|split; [|split]]]].
  - unfold SetShaderColor. rewrite (if_shader_attached _ _ _ Hsh).
    rewrite (run_bind_Some _ _ _ _ _ (shader_call_attached _ _ _ Hsh)).
    rewrite (shader_call_attached _ _ _ (shader_of_world_with_shader _ _)).
    reflexivity.
  - cbn. rewrite lookup_insert_ne by discriminate. apply lookup_insert_eq.
  - cbn. apply lookup_insert_eq.
  - exact Hframe.
  - intros name Hin. apply Hframe;
      unfold material_uniform_names in Hin;
      repeat (apply elem_of_cons in Hin as [->|Hin]; [discriminate|]);
      inversion Hin.
  - apply Hframe; discriminate.
Qed.

Lemma SetShaderColor_sets_flag_and_color_witness :
  exists sh',
    SetShaderColor 1 0 0 1 (fresh_world (Some empty_shader))
      = Some (tt, world_with_shader sh' (fresh_world (Some empty_shader))) /\
    uniforms sh' !! g_UseTextureName = Some (UInt 0) /\
    uniforms sh' !! g_ColorValueName = Some (UVec4 (glm.Vec4 1 0 0 1)) /\
    (forall name, name <> g_UseTextureName -> name <> g_ColorValueName ->
       uniforms sh' !! name = uniforms empty_shader !! name) /\
    (forall name, name ∈ material_uniform_names ->
       uniforms sh' !! name = uniforms empty_shader !! name) /\
    uniforms sh' !! g_TextureValueName
      = uniforms empty_shader !! g_TextureValueName.
Proof.
  apply (SetShaderColor_sets_flag_and_color 1 0 0 1
           (fresh_world (Some empty_shader)) empty_shader).
  reflexivity.
Defined.

(** Without a shader the three guarded setters return and do nothing. *)
Lemma SetShaderColor_without_shader (r g b a : float) (w : World) :
  m_pShaderManager (this w) = None -> SetShaderColor r g b a w = Some (tt, w).
Proof. apply if_shader_null. Qed.

Lemma SetShaderTexture_without_shader (textureTag : string) (w : World) :
  m_pShaderManager (this w) = None ->
  SetShaderTexture textureTag w = Some (tt, w).
Proof. apply if_shader_null. Qed.

Lemma SetTransformations_without_shader cosf sinf scaleXYZ rx ry rz positionXYZ
    (w : World) :
  m_pShaderManager (this w) = None ->
  SetTransformations cosf sinf scaleXYZ rx ry rz positionXYZ w = Some (tt, w).
Proof. apply if_shader_null. Qed.

(** ** The texture registry: lookup *)

Lemma array_get_lookup {A : Type} {n : nat} (v : vec A n) (k : nat) :
  array_get v (Z.of_nat k) = vec_to_list v !! k.
Proof.
  unfold array_get. destruct (decide (0 <= Z.of_nat k)) as [_|Hneg]; [|lia].
  rewrite Nat2Z.id. reflexivity.
Qed.

Lemma array_get_in_range {A : Type} {n : nat} (v : vec A n) (k : nat) :
  (k < n)%nat -> exists a, array_get v (Z.of_nat k) = Some a /\ vec_to_list v !! k = Some a.
Proof.
  intros Hk. rewrite array_get_lookup.
  destruct (lookup_lt_is_Some_2 (vec_to_list v) k) as [a Ha].
  - rewrite length_vec_to_list. exact Hk.
  - exists a. split; exact Ha.
Qed.

Lemma find_texture_from (ids : vec TEXTURE_INFO 16) (tag0 : string) :
  forall (remaining k : nat),
    (k + remaining <= 16)%nat ->
    find_texture ids tag0 remaining (Z.of_nat k)
    = Some (first_match tag0 (take remaining (drop k (vec_to_list ids))) k).
Proof.
  induction remaining as [|n IH]; intros k Hk.
  - reflexivity.
  - destruct (array_get_in_range ids k) as (info & Hget & Hl); [lia|].
    cbn [find_texture]. rewrite Hget.
    rewrite (drop_S _ _ _ Hl). cbn [take].
    unfold first_match. cbn [list_find].
    destruct (String.eqb_spec (tex_tag info) tag0) as [Heq|Hne].
    + rewrite decide_True by exact Heq. cbn. rewrite Nat.add_0_r. reflexivity.
    + rewrite decide_False by exact Hne.
      replace (Z.of_nat k + 1) with (Z.of_nat (S k)) by lia.
      rewrite IH by lia. unfold first_match.
      destruct (list_find _ _) as [[i info']|]; cbn; [|reflexivity].
      do 3 f_equal. lia.
Qed.

Lemma find_texture_registered (s : SceneManager) (tag0 : string) :
  m_loadedTextures s <= 16 ->
  find_texture (m_textureIDs s) tag0 (Z.to_nat (m_loadedTextures s)) 0
  = Some (first_match tag0 (registered s) 0).
Proof.
  intros Hle. apply (find_texture_from _ _ _ 0%nat). lia.
Qed.

Lemma first_match_absent (tag0 : string) (l : list TEXTURE_INFO) (k : nat) :
  tag0 ∉ tex_tag <$> l -> first_match tag0 l k = (-1, -1).
Proof.
  intros Hnot. unfold first_match.
  destruct (list_find _ l) as [[i info]|] eqn:Hfind; [|reflexivity].
  apply list_find_Some in Hfind as (Hi & Htag & _).
  exfalso. apply Hnot. apply list_elem_of_fmap. exists info.
  split; [symmetry; exact Htag|]. apply list_elem_of_lookup. eauto.
Qed.

Lemma FindTextureSlot_run (tag0 : string) (w : World) :
  m_loadedTextures (this w) <= 16 ->
  FindTextureSlot tag0 w = Some (snd (first_match tag0 (registered (this w)) 0), w).
Proof.
  intros Hle. unfold FindTextureSlot. rewrite run_bind. cbn [get_this].
  rewrite (find_texture_registered _ _ Hle).
  destruct (first_match _ _ _) as [textureID textureSlot]. reflexivity.
Qed.

(** C4. With a shader attached and a registry within its capacity,
    [SetShaderTexture] on a tag that no registered texture carries returns
    (no undefined behaviour), sets [bUseTexture] to 1 (true) and writes the
    sentinel -1 to the sampler uniform [objectTexture]; nothing else
    changes. *)
Theorem SetShaderTexture_unknown_tag :
  forall (textureTag : string) (w : World) (sh : ShaderManager),
    m_pShaderManager (this w) = Some sh ->
    m_loadedTextures (this w) <= 16 ->
    textureTag ∉ registered_tags (this w) ->
    exists sh',
      SetShaderTexture textureTag w = Some (tt, world_with_shader sh' w) /\
      uniforms sh' !! g_UseTextureName = Some (UInt 1) /\
      uniforms sh' !! g_TextureValueName = Some (USampler2D (-1)) /\
      (forall name, name <> g_UseTextureName -> name <> g_TextureValueName ->
         uniforms sh' !! name = uniforms sh !! name).
Proof.
  intros textureTag w sh Hsh Hcap Hnot.
  exists (setSampler2DValue g_TextureValueName (-1)
            (setIntValue g_UseTextureName (int_of_bool true) sh)).
  split; [|split; [|split]].
  - unfold SetShaderTexture. rewrite (if_shader_attached _ _ _ Hsh).
    rewrite (run_bind_Some _ _ _ _ _ (shader_call_attached _ _ _ Hsh)).
    rewrite (run_bind_Some _ _ _ (snd (first_match textureTag (registered (this w)) 0))
               (world_with_shader (setIntValue g_UseTextureName (int_of_bool true) sh) w)).
    + rewrite (first_match_absent _ _ _ Hnot). cbn [snd].
      rewrite (shader_call_attached _ _ _ (shader_of_world_with_shader _ _)).
      reflexivity.
    + rewrite FindTextureSlot_run by exact Hcap. reflexivity.
  - cbn. rewrite lookup_insert_ne by discriminate. apply lookup_insert_eq.
  - cbn. apply lookup_insert_eq.
  - intros name H1 H2. cbn.
    rewrite lookup_insert_ne by congruence.
    rewrite lookup_insert_ne by congruence. reflexivity.
Qed.

Lemma SetShaderTexture_unknown_tag_witness :
  exists sh',
    SetShaderTexture "nonexistent-tag" (fresh_world (Some empty_shader))
      = Some (tt, world_with_shader sh' (fresh_world (Some empty_shader))) /\
    uniforms sh' !! g_UseTextureName = Some (UInt 1) /\
    uniforms sh' !! g_TextureValueName = Some (USampler2D (-1)) /\
    (forall name, name <> g_UseTextureName -> name <> g_TextureValueName ->
       uniforms sh' !! name = uniforms empty_shader !! name).
Proof.
  apply (SetShaderTexture_unknown_tag "nonexistent-tag"
           (fresh_world (Some empty_shader)) empty_shader).
  - reflexivity.
  - cbn. lia.
  - cbn. apply not_elem_of_nil.
Defined.

(** ** The texture registry: registration *)

#[local] Arguments glBindTexture : simpl never.
#[local] Arguments glTexParameteri : simpl never.
#[local] Arguments glTexImage2D : simpl never.
#[local] Arguments glGenerateMipmap : simpl never.
#[local] Arguments glActiveTexture : simpl never.

(** Run the primitive steps at the head of a computation. *)
Ltac run_steps := repeat (rewrite run_bind; cbn).

Section Registration.
Variable stbi_load : bool -> string -> option Image.

Lemma CreateGLTexture_unreadable filename tag0 w :
  stbi_load true filename = None ->
  CreateGLTexture stbi_load filename tag0 w
  = Some (false,
          {| this := this w; gl := gl w;
             stbi_flip_vertically_on_load := true;
             cout := cout w ++ [CouldNotLoadImage filename] |}).
Proof.
  intros Hload. unfold CreateGLTexture, load_image.
  run_steps. rewrite Hload. reflexivity.
Qed.

Lemma CreateGLTexture_unsupported filename tag0 w image :
  stbi_load true filename = Some image ->
  colorChannels image <> 3 -> colorChannels image <> 4 ->
  exists g,
    CreateGLTexture stbi_load filename tag0 w
    = Some (false,
            {| this := this w; gl := g;
               stbi_flip_vertically_on_load := true;
               cout := cout w ++
                 [SuccessfullyLoadedImage filename (width image)
                    (height image) (colorChannels image);
                  NotImplementedChannels (colorChannels image)] |}).
Proof.
  intros Hload H3 H4. unfold CreateGLTexture, load_image.
  run_steps. rewrite Hload. run_steps.
  apply Z.eqb_neq in H3, H4. rewrite H3, H4. run_steps.
  rewrite <- app_assoc. eexists. reflexivity.
Qed.

Lemma CreateGLTexture_registers filename tag0 w image :
  stbi_load true filename = Some image ->
  colorChannels image = 3 \/ colorChannels image = 4 ->
  0 <= m_loadedTextures (this w) < 16 ->
  exists g,
    CreateGLTexture stbi_load filename tag0 w
    = Some (true,
            {| this :=
                 with_textures (m_loadedTextures (this w) + 1)
                   (vupdate (m_textureIDs (this w))
                      (Z.to_nat (m_loadedTextures (this w)))
                      {| tex_tag := tag0; ID := gl_next_name (gl w) |})
                   (this w);
               gl := g;
               stbi_flip_vertically_on_load := true;
               cout := cout w ++
                 [SuccessfullyLoadedImage filename (width image)
                    (height image) (colorChannels image)] |}).
Proof.
  intros Hload Hch Hcap. unfold CreateGLTexture, load_image.
  run_steps. rewrite Hload. run_steps.
  assert (Hset : array_set (m_textureIDs (this w)) (m_loadedTextures (this w))
                   {| tex_tag := tag0; ID := gl_next_name (gl w) |}
                 = Some (vupdate (m_textureIDs (this w))
                           (Z.to_nat (m_loadedTextures (this w)))
                           {| tex_tag := tag0; ID := gl_next_name (gl w) |})).
  { unfold array_set. rewrite decide_True by (cbn; lia). reflexivity. }
  destruct Hch as [Hc|Hc]; rewrite Hc; cbn;
    unfold register_texture; run_steps;
    rewrite Hset; run_steps; eexists; reflexivity.
Qed.

Lemma CreateGLTexture_overflow filename tag0 w image :
  stbi_load true filename = Some image ->
  colorChannels image = 3 \/ colorChannels image = 4 ->
  ~ (0 <= m_loadedTextures (this w) < 16) ->
  CreateGLTexture stbi_load filename tag0 w = None.
Proof.
  intros Hload Hch Hcap. unfold CreateGLTexture, load_image.
  run_steps. rewrite Hload. run_steps.
  assert (Hset : array_set (m_textureIDs (this w)) (m_loadedTextures (this w))
                   {| tex_tag := tag0; ID := gl_next_name (gl w) |} = None).
  { unfold array_set. rewrite decide_False by (cbn; lia). reflexivity. }
  destruct Hch as [Hc|Hc]; rewrite Hc; cbn;
    unfold register_texture; run_steps;
    rewrite Hset; reflexivity.
Qed.
End Registration.

Lemma vec_to_list_vupdate {A : Type} {n : nat} (v : vec A n) (i : nat) (a : A) :
  vec_to_list (vupdate v i a) = <[i := a]> (vec_to_list v).
Proof.
  revert i. induction v as [|b n v IH]; intros [|i]; cbn; try reflexivity.
  f_equal. apply IH.
Qed.

(** Storing an entry at index [m_loadedTextures] and incrementing the
    counter appends the entry to the registered textures. *)
Lemma registered_with_textures (s : SceneManager) (info : TEXTURE_INFO) :
  0 <= m_loadedTextures s < 16 ->
  registered
    (with_textures (m_loadedTextures s + 1)
       (vupdate (m_textureIDs s) (Z.to_nat (m_loadedTextures s)) info) s)
  = registered s ++ [info].
Proof.
  intros Hcap. unfold registered. cbn.
  replace (Z.to_nat (m_loadedTextures s + 1))
    with (S (Z.to_nat (m_loadedTextures s))) by lia.
  rewrite vec_to_list_vupdate.
  assert (Hlt : (Z.to_nat (m_loadedTextures s)
                 < length (vec_to_list (m_textureIDs s)))%nat).
  { rewrite length_vec_to_list. lia. }
  rewrite (take_S_r _ _ info) by (apply list_lookup_insert_eq; exact Hlt).
  rewrite take_insert_ge by lia. reflexivity.
Qed.

Section RegistrationOrder.
Variable stbi_load : bool -> string -> option Image.

(** A call that returns [true] found room in the array and appended its
    entry. *)
Lemma CreateGLTexture_true_inv filename tag0 w w' :
  CreateGLTexture stbi_load filename tag0 w = Some (true, w') ->
  0 <= m_loadedTextures (this w) < 16 /\
  decodable stbi_load filename /\
  this w' =
    with_textures (m_loadedTextures (this w) + 1)
      (vupdate (m_textureIDs (this w)) (Z.to_nat (m_loadedTextures (this w)))
         {| tex_tag := tag0; ID := gl_next_name (gl w) |})
      (this w).
Proof.
  intros Hrun.
  destruct (stbi_load true filename) as [image|] eqn:Hload.
  - destruct (decide (colorChannels image = 3 \/ colorChannels image = 4))
      as [Hch|Hch].
    + destruct (decide (0 <= m_loadedTextures (this w) < 16)) as [Hcap|Hcap].
      * destruct (CreateGLTexture_registers stbi_load filename tag0 w image
                    Hload Hch Hcap) as [g Hg].
        rewrite Hg in Hrun. injection Hrun as <-.
        split; [exact Hcap|]. split; [|reflexivity].
        exists image. split; [exact Hload|exact Hch].
      * rewrite (CreateGLTexture_overflow stbi_load filename tag0 w image
                   Hload Hch Hcap) in Hrun. discriminate.
    + destruct (CreateGLTexture_unsupported stbi_load filename tag0 w image
                  Hload) as [g Hg]; [tauto|tauto|].
      rewrite Hg in Hrun. discriminate.
  - rewrite (CreateGLTexture_unreadable stbi_load filename tag0 w Hload) in Hrun.
    discriminate.
Qed.

Lemma register_all_true_inv :
  forall (pairs : list (string * string)) (w w' : World) (bs : list bool),
    0 <= m_loadedTextures (this w) <= 16 ->
    register_all stbi_load pairs w = Some (bs, w') ->
    Forall (eq true) bs ->
    registered_tags (this w') = registered_tags (this w) ++ pairs.*2 /\
    m_loadedTextures (this w')
      = m_loadedTextures (this w) + Z.of_nat (length pairs) /\
    m_loadedTextures (this w') <= 16 /\
    Forall (decodable stbi_load) pairs.*1.
Proof.
  induction pairs as [|[filename tag0] pairs IH]; intros w w' bs Hcap Hrun Hall.
  - cbn in Hrun. injection Hrun as <- <-.
    rewrite app_nil_r. cbn.
    repeat split; try lia. constructor.
  - cbn [register_all] in Hrun.
    apply bind_inv in Hrun as (b & w1 & Hfirst & Hrun).
    apply bind_inv in Hrun as (bs' & w2 & Hrest & Hret).
    cbn in Hret. injection Hret as <- <-.
    apply Forall_cons in Hall as [<- Hall].
    apply CreateGLTexture_true_inv in Hfirst as (Hroom & Hdec & Hthis).
    assert (Hloaded1 : m_loadedTextures (this w1) = m_loadedTextures (this w) + 1).
    { rewrite Hthis. reflexivity. }
    destruct (IH w1 w2 bs') as (Htags & Hcount & Hle & Hdecs);
      [lia|exact Hrest|exact Hall|].
    split; [|split; [|split]].
    + rewrite Htags. unfold registered_tags at 1.
      rewrite Hthis, (registered_with_textures _ _ Hroom).
      rewrite fmap_app, <- app_assoc. reflexivity.
    + rewrite Hcount, Hloaded1. cbn [length]. lia.
    + exact Hle.
    + cbn. constructor; [exact Hdec|exact Hdecs].
Qed.

Lemma register_all_succeeds :
  forall (pairs : list (string * string)) (w : World),
    0 <= m_loadedTextures (this w) ->
    m_loadedTextures (this w) + Z.of_nat (length pairs) <= 16 ->
    Forall (decodable stbi_load) pairs.*1 ->
    exists w',
      register_all stbi_load pairs w
      = Some (replicate (length pairs) true, w').
Proof.
  induction pairs as [|[filename tag0] pairs IH]; intros w Hpos Hroom Hdec.
  - exists w. reflexivity.
  - cbn in Hdec. apply Forall_cons in Hdec as [(image & Hload & Hch) Hdec].
    cbn [length] in Hroom.
    destruct (CreateGLTexture_registers stbi_load filename tag0 w image
                Hload Hch) as [g Hg]; [lia|].
    match type of Hg with _ = Some (_, ?w1) =>
      destruct (IH w1) as [w' Hw']; [cbn; lia|cbn; lia|exact Hdec|]
    end.
    exists w'. cbn [register_all].
    rewrite (run_bind_Some _ _ _ _ _ Hg).
    rewrite (run_bind_Some _ _ _ _ _ Hw'). reflexivity.
Qed.
End RegistrationOrder.

(** The slot found for a tag is its position among the registered tags,
    when no tag is registered twice. *)
Lemma first_match_position (tag0 : string) (l : list TEXTURE_INFO) (i : nat) :
  NoDup (tex_tag <$> l) ->
  (tex_tag <$> l) !! i = Some tag0 ->
  snd (first_match tag0 l 0) = Z.of_nat i.
Proof.
  intros Hnodup Hi. unfold first_match.
  destruct (list_find _ l) as [[j info]|] eqn:Hfind.
  - apply list_find_Some in Hfind as (Hj & Htag & _).
    assert (Hj' : (tex_tag <$> l) !! j = Some tag0).
    { rewrite list_lookup_fmap, Hj. cbn. congruence. }
    rewrite (NoDup_lookup _ _ _ _ Hnodup Hi Hj'). reflexivity.
  - exfalso. apply list_find_None in Hfind.
    rewrite list_lookup_fmap in Hi.
    destruct (l !! i) as [info|] eqn:Hl; [|discriminate].
    injection Hi as Htag.
    rewrite Forall_forall in Hfind. apply (Hfind info); [|exact Htag].
    apply list_elem_of_lookup. eauto.
Qed.

(** The entries that the constructor leaves below the counter carry the
    empty tag. *)
Lemma constructor_tags pShaderManager memory_lights memory_count memory_ids :
  Forall (eq "")
    (registered_tags
       (SceneManager_constructor pShaderManager memory_lights memory_count
          memory_ids)).
Proof.
  unfold registered_tags, registered. cbn [m_textureIDs m_loadedTextures
    SceneManager_constructor].
  rewrite vec_to_list_map, <- fmap_take, <- list_fmap_compose.
  apply Forall_fmap, Forall_true. reflexivity.
Qed.

(** The slot found for a tag that only occurs after some other entries. *)
Lemma first_match_after (tag0 : string) (l : list TEXTURE_INFO)
    (before after : list string) (i : nat) :
  tex_tag <$> l = before ++ after ->
  tag0 ∉ before ->
  NoDup after ->
  after !! i = Some tag0 ->
  snd (first_match tag0 l 0) = Z.of_nat (length before + i).
Proof.
  intros Htags Hbefore Hnodup Hi. unfold first_match.
  destruct (list_find _ l) as [[j info]|] eqn:Hfind.
  - apply list_find_Some in Hfind as (Hj & Htag & _).
    assert (Hj' : (before ++ after) !! j = Some tag0).
    { rewrite <- Htags, list_lookup_fmap, Hj. cbn. congruence. }
    destruct (decide (j < length before)%nat) as [Hlt|Hge].
    + rewrite lookup_app_l in Hj' by exact Hlt.
      exfalso. apply Hbefore. apply list_elem_of_lookup. eauto.
    + rewrite lookup_app_r in Hj' by lia.
      rewrite (NoDup_lookup _ _ _ _ Hnodup Hi Hj'). cbn. f_equal. lia.
  - exfalso. apply list_find_None in Hfind.
    assert (Hin : tag0 ∈ tex_tag <$> l).
    { rewrite Htags. apply elem_of_app. right.
      apply list_elem_of_lookup. eauto. }
    apply list_elem_of_fmap in Hin as (info & Htag & Hin).
    rewrite Forall_forall in Hfind. apply (Hfind info Hin). congruence.
Qed.

(** C2. The slot of a tag is the value of the counter at its registration,
    and nothing sets the counter before the first one: the constructor
    leaves [m_loadedTextures] as its memory was.  From a newly constructed
    object whose counter holds [memory_count], registering decodable files
    under pairwise distinct, non-empty tags that fit into the array
    succeeds and gives the i-th tag (counting from 0) the slot
    [memory_count + i], which is what [FindTextureSlot] returns: distinct
    and increasing in registration order, below 16, and equal to the
    registration index only if the memory happened to hold 0. *)
Theorem registration_slots_start_at_the_constructor_counter :
  forall (stbi_load : bool -> string -> option Image)
         (pairs : list (string * string))
         (pShaderManager : option ShaderManager)
         (memory_lights : vec glm.vec3 4) (memory_count : Z)
         (memory_ids : vec Z 16) (w : World),
    this w
    = SceneManager_constructor pShaderManager memory_lights memory_count
        memory_ids ->
    0 <= memory_count ->
    memory_count + Z.of_nat (length pairs) <= 16 ->
    NoDup pairs.*2 ->
    ("" ∉ pairs.*2) ->
    Forall (decodable stbi_load) pairs.*1 ->
    exists w',
      register_all stbi_load pairs w
      = Some (replicate (length pairs) true, w') /\
      m_loadedTextures (this w') = memory_count + Z.of_nat (length pairs) /\
      forall (i : nat) (tag0 : string),
        pairs.*2 !! i = Some tag0 ->
        memory_count <= memory_count + Z.of_nat i < 16 /\
        FindTextureSlot tag0 w' = Some (memory_count + Z.of_nat i, w').
Proof.
  intros stbi_load pairs pShaderManager memory_lights memory_count memory_ids
    w Hthis Hpos Hroom Hnodup Hnamed Hdec.
  assert (Hcount : m_loadedTextures (this w) = memory_count)
    by (rewrite Hthis; reflexivity).
  destruct (register_all_succeeds stbi_load pairs w) as [w' Hrun];
    [lia|lia|exact Hdec|].
  destruct (register_all_true_inv stbi_load pairs w w' _ ltac:(lia) Hrun)
    as (Htags & Hcount' & Hle & _).
  { apply Forall_forall. intros b Hb.
    apply elem_of_replicate in Hb as [-> _]. reflexivity. }
  exists w'. split; [exact Hrun|]. split; [lia|].
  intros i tag0 Hi.
  assert (Hlt : (i < length pairs)%nat).
  { apply lookup_lt_Some in Hi. rewrite length_fmap in Hi. exact Hi. }
  split; [lia|].
  rewrite FindTextureSlot_run by exact Hle.
  rewrite (first_match_after tag0 _ _ _ i Htags); [| |exact Hnodup|exact Hi].
  - f_equal. f_equal. unfold registered_tags, registered.
    rewrite length_fmap, length_take, length_vec_to_list. lia.
  - intros Hin.
    pose proof (constructor_tags pShaderManager memory_lights memory_count
                  memory_ids) as Hblank.
    rewrite <- Hthis in Hblank. rewrite Forall_forall in Hblank.
    apply Hnamed. rewrite (Hblank tag0 Hin).
    apply list_elem_of_lookup. eauto.
Qed.

Lemma registration_slots_start_at_the_constructor_counter_witness :
  exists w',
    register_all two_files [("fileA.png", "a"); ("fileB.png", "b")]
      (constructed_world 3) = Some ([true; true], w') /\
    FindTextureSlot "a" w' = Some (3, w') /\
    FindTextureSlot "b" w' = Some (4, w').
Proof.
  destruct (registration_slots_start_at_the_constructor_counter two_files
              [("fileA.png", "a"); ("fileB.png", "b")] None
              (vreplicate 4 (glm.Vec3 0 0 0)) 3 (vreplicate 16 0)
              (constructed_world 3) eq_refl)
    as (w' & Hrun & _ & Hslots).
  - lia.
  - cbn. lia.
  - apply (bool_decide_unpack _). vm_compute. exact I.
  - apply (bool_decide_unpack _). vm_compute. exact I.
  - repeat constructor.
    + exists rgb_image. split; [reflexivity|left; reflexivity].
    + exists rgba_image. split; [reflexivity|right; reflexivity].
  - exists w'. split; [exact Hrun|]. split.
    + apply (Hslots 0%nat "a" eq_refl).
    + apply (Hslots 1%nat "b" eq_refl).
Defined.

(** The scenario of the specification: "a" (RGB) then "b" (RGBA) land in
    slots 0 and 1. *)
Example two_registrations_slots :
  (bs ← register_all two_files [("fileA.png", "a"); ("fileB.png", "b")];
   a ← FindTextureSlot "a";
   b ← FindTextureSlot "b";
   c ← FindTextureSlot "c";
   mret (bs, a, b, c)) (fresh_world None) ≫= (fun r => Some (fst r))
  = Some ([true; true], 0, 1, -1).
Proof. vm_compute. reflexivity. Qed.

(** C5. A registration whose image does not decode, or decodes to a
    channel count other than 3 and 4, returns [false] rather than failing;
    the object is unchanged, so the entry array and the counter are; the
    console ends with the line that reports the failure; and a later
    registration of a decodable file takes the slot it would have taken
    anyway. *)
Theorem CreateGLTexture_failure_is_recoverable :
  forall (stbi_load : bool -> string -> option Image)
         (filename tag0 : string) (w : World),
    (stbi_load true filename = None \/
     exists image, stbi_load true filename = Some image /\
       colorChannels image <> 3 /\ colorChannels image <> 4) ->
    exists w',
      CreateGLTexture stbi_load filename tag0 w = Some (false, w') /\
      this w' = this w /\
      m_textureIDs (this w') = m_textureIDs (this w) /\
      m_loadedTextures (this w') = m_loadedTextures (this w) /\
      (exists earlier,
          cout w' = cout w ++ earlier ++ [failure_line stbi_load filename]) /\
      (forall filename2 tag2,
          decodable stbi_load filename2 ->
          0 <= m_loadedTextures (this w) < 16 ->
          exists w'',
            CreateGLTexture stbi_load filename2 tag2 w' = Some (true, w'') /\
            m_loadedTextures (this w'') = m_loadedTextures (this w) + 1 /\
            registered (this w'')
            = registered (this w)
                ++ [{| tex_tag := tag2; ID := gl_next_name (gl w') |}]).
Proof.
  intros stbi_load filename tag0 w Hfail.
  assert (Hrun : exists g lines,
             CreateGLTexture stbi_load filename tag0 w
             = Some (false,
                     {| this := this w; gl := g;
                        stbi_flip_vertically_on_load := true;
                        cout := cout w ++ lines
                                  ++ [failure_line stbi_load filename] |})).
  { unfold failure_line.
    destruct Hfail as [Hnone|(image & Hload & H3 & H4)].
    - exists (gl w), []. rewrite Hnone.
      apply CreateGLTexture_unreadable. exact Hnone.
    - destruct (CreateGLTexture_unsupported stbi_load filename tag0 w image
                  Hload H3 H4) as [g Hg].
      exists g, [SuccessfullyLoadedImage filename (width image) (height image)
                   (colorChannels image)].
      rewrite Hload. exact Hg. }
  destruct Hrun as (g & lines & Hrun).
  eexists. split; [exact Hrun|]. cbn [this cout gl].
  split; [reflexivity|]. split; [reflexivity|]. split; [reflexivity|].
  split; [exists lines; reflexivity|].
  intros filename2 tag2 (image2 & Hload2 & Hch2) Hroom.
  match goal with |- context [CreateGLTexture _ _ _ ?w1] =>
    destruct (CreateGLTexture_registers stbi_load filename2 tag2 w1 image2
                Hload2 Hch2) as [g2 Hg2]; [exact Hroom|]
  end.
  eexists. split; [exact Hg2|]. cbn [this gl m_loadedTextures with_textures].
  split; [reflexivity|].
  apply registered_with_textures. exact Hroom.
Qed.

Lemma CreateGLTexture_failure_is_recoverable_witness :
  exists w',
    CreateGLTexture two_files "grey.png" "grey" (fresh_world None)
      = Some (false, w') /\
    this w' = this (fresh_world None) /\
    m_textureIDs (this w') = m_textureIDs (this (fresh_world None)) /\
    m_loadedTextures (this w') = m_loadedTextures (this (fresh_world None)) /\
    (exists earlier,
        cout w' = cout (fresh_world None) ++ earlier
                    ++ [failure_line two_files "grey.png"]) /\
    (forall filename2 tag2,
        decodable two_files filename2 ->
        0 <= m_loadedTextures (this (fresh_world None)) < 16 ->
        exists w'',
          CreateGLTexture two_files filename2 tag2 w' = Some (true, w'') /\
          m_loadedTextures (this w'')
            = m_loadedTextures (this (fresh_world None)) + 1 /\
          registered (this w'')
          = registered (this (fresh_world None))
              ++ [{| tex_tag := tag2; ID := gl_next_name (gl w') |}]).
Proof.
  apply (CreateGLTexture_failure_is_recoverable two_files "grey.png" "grey"
           (fresh_world None)).
  right. exists grey_image. split; [reflexivity|]. split; discriminate.
Defined.

(** Both failure modes on the two-file disk: a missing file and a
    one-channel image leave the registry empty, and "a" still gets slot 0
    afterwards. *)
Example failed_registrations_then_success :
  (b1 ← CreateGLTexture two_files "missing.png" "m";
   b2 ← CreateGLTexture two_files "grey.png" "g";
   s ← get_this;
   b3 ← CreateGLTexture two_files "fileA.png" "a";
   a ← FindTextureSlot "a";
   mret (b1, b2, m_loadedTextures s, b3, a)) (fresh_world None)
    ≫= (fun r => Some (fst r))
  = Some (false, false, 0, true, 0).
Proof. vm_compute. reflexivity. Qed.

(** ** Binding the registered textures to the texture units *)

Lemma BindGLTextures_loop_run (w : World) :
  forall (remaining k : nat),
    (k + remaining <= 16)%nat ->
    BindGLTextures_loop remaining (Z.of_nat k) w
    = Some (tt, world_with_gl
                  (bind_from
                     (take remaining (drop k (vec_to_list (m_textureIDs (this w)))))
                     (Z.of_nat k) (gl w)) w).
Proof.
  intros remaining. revert w.
  induction remaining as [|n IH]; intros w k Hk.
  - destruct w. reflexivity.
  - destruct (array_get_in_range (m_textureIDs (this w)) k) as (info & Hget & Hl);
      [lia|].
    cbn [BindGLTextures_loop]. run_steps. rewrite Hget. run_steps.
    replace (Z.of_nat k + 1) with (Z.of_nat (S k)) by lia.
    rewrite IH by lia. cbn [this gl].
    rewrite (drop_S _ _ _ Hl). cbn [take bind_from].
    replace (Z.of_nat k + 1) with (Z.of_nat (S k)) by lia.
    reflexivity.
Qed.

Lemma BindGLTextures_loop_overflow (w : World) :
  forall (remaining k : nat),
    (k <= 16)%nat -> (16 < k + remaining)%nat ->
    BindGLTextures_loop remaining (Z.of_nat k) w = None.
Proof.
  intros remaining. revert w.
  induction remaining as [|n IH]; intros w k Hle Hk.
  - lia.
  - cbn [BindGLTextures_loop]. run_steps.
    destruct (array_get (m_textureIDs (this w)) (Z.of_nat k)) as [info|] eqn:Hget;
      [|reflexivity].
    run_steps.
    assert (Hlt : (k < 16)%nat).
    { rewrite array_get_lookup in Hget. apply lookup_lt_Some in Hget.
      rewrite length_vec_to_list in Hget. exact Hget. }
    replace (Z.of_nat k + 1) with (Z.of_nat (S k)) by lia.
    apply IH; lia.
Qed.

Lemma BindGLTextures_run (w : World) :
  m_loadedTextures (this w) <= 16 ->
  BindGLTextures w
  = Some (tt, world_with_gl (bind_from (registered (this w)) 0 (gl w)) w).
Proof.
  intros Hcap. unfold BindGLTextures. run_steps.
  apply (BindGLTextures_loop_run w _ 0%nat). lia.
Qed.

Lemma BindGLTextures_overflow (w : World) :
  16 < m_loadedTextures (this w) -> BindGLTextures w = None.
Proof.
  intros Hcap. unfold BindGLTextures. run_steps.
  apply (BindGLTextures_loop_overflow w _ 0%nat); lia.
Qed.

(** The loop leaves the name counter alone, keeps the bindings of lower
    units and never removes a texture object. *)
Lemma bind_from_frame (l : list TEXTURE_INFO) :
  forall (i : Z) (g : GLContext),
    gl_next_name (bind_from l i g) = gl_next_name g /\
    (forall unit, unit < GL_TEXTURE0 + i ->
       gl_texture_binding_2d (bind_from l i g) !! unit
       = gl_texture_binding_2d g !! unit) /\
    (forall id, is_Some (gl_textures g !! id) ->
       is_Some (gl_textures (bind_from l i g) !! id)).
Proof.
  induction l as [|info l IH]; intros i g.
  - cbn. auto.
  - cbn [bind_from].
    destruct (IH (i + 1)
                (glBindTexture (ID info) (glActiveTexture (GL_TEXTURE0 + i) g)))
      as (Hname & Hlow & Hobj).
    split; [|split].
    + rewrite Hname. reflexivity.
    + intros unit Hunit. rewrite Hlow by lia.
      unfold glBindTexture, glActiveTexture. cbn.
      apply lookup_insert_ne. lia.
    + intros id Hid. apply Hobj.
      unfold glBindTexture, glActiveTexture. cbn.
      destruct (decide (ID info = 0)); [exact Hid|].
      destruct (gl_textures g !! ID info) eqn:Hthere; [exact Hid|].
      destruct (decide (ID info = id)) as [->|Hne].
      * rewrite lookup_insert_eq. eauto.
      * rewrite lookup_insert_ne by exact Hne. exact Hid.
Qed.

(** After the loop the units hold the textures, in order. *)
Lemma bind_from_bound (l : list TEXTURE_INFO) :
  forall (i : Z) (g : GLContext), bound_from l i (bind_from l i g).
Proof.
  induction l as [|info l IH]; intros i g j info' Hj.
  - discriminate.
  - cbn [bind_from].
    set (g1 := glBindTexture (ID info) (glActiveTexture (GL_TEXTURE0 + i) g)).
    destruct (bind_from_frame l (i + 1) g1) as (_ & Hlow & Hobj).
    destruct j as [|j].
    + injection Hj as <-. rewrite Z.add_0_r. split.
      * rewrite Hlow by lia. subst g1.
        unfold glBindTexture, glActiveTexture. cbn. apply lookup_insert_eq.
      * destruct (decide (ID info = 0)) as [Hz|Hnz]; [left; exact Hz|].
        right. apply Hobj. subst g1.
        unfold glBindTexture, glActiveTexture. cbn.
        rewrite decide_False by exact Hnz.
        destruct (gl_textures g !! ID info) eqn:Hthere.
        -- rewrite Hthere. eauto.
        -- rewrite lookup_insert_eq. eauto.
    + cbn in Hj. destruct (IH (i + 1) g1 j info' Hj) as [Hb Ho].
      split; [|exact Ho].
      replace (GL_TEXTURE0 + i + Z.of_nat (S j))
        with (GL_TEXTURE0 + (i + 1) + Z.of_nat j) by lia.
      exact Hb.
Qed.

Lemma bind_from_active (l : list TEXTURE_INFO) :
  forall (i : Z) (g : GLContext),
    l <> [] ->
    gl_active_texture (bind_from l i g)
    = GL_TEXTURE0 + i + Z.of_nat (length l) - 1.
Proof.
  induction l as [|info l IH]; intros i g Hne; [congruence|].
  cbn [bind_from length]. destruct l as [|info' l].
  - unfold bind_from, glBindTexture, glActiveTexture. cbn. lia.
  - rewrite IH by discriminate. cbn [length]. lia.
Qed.

(** Running the loop where the units already hold the textures only moves
    the active unit. *)
Lemma bind_from_bound_again (l : list TEXTURE_INFO) :
  forall (i : Z) (g : GLContext),
    bound_from l i g ->
    bind_from l i g
    = match l with
      | [] => g
      | _ :: _ => glActiveTexture (GL_TEXTURE0 + i + Z.of_nat (length l) - 1) g
      end.
Proof.
  induction l as [|info l IH]; intros i g Hbound; [reflexivity|].
  cbn [bind_from].
  destruct (Hbound 0%nat info eq_refl) as [Hunit Hobj].
  rewrite Z.add_0_r in Hunit.
  assert (Hstep : glBindTexture (ID info) (glActiveTexture (GL_TEXTURE0 + i) g)
                  = glActiveTexture (GL_TEXTURE0 + i) g).
  { unfold glBindTexture, glActiveTexture. cbn. f_equal.
    - apply insert_id. exact Hunit.
    - destruct (decide (ID info = 0)); [reflexivity|].
      destruct Hobj as [Hz|[t Ht]]; [contradiction|]. rewrite Ht. reflexivity. }
  rewrite Hstep. rewrite IH.
  - destruct l as [|info' l].
    + cbn. f_equal. lia.
    + unfold glActiveTexture. cbn [length]. cbn. f_equal. lia.
  - intros j info' Hj. destruct (Hbound (S j) info' Hj) as [Hb Ho].
    unfold glActiveTexture. cbn. split; [|exact Ho].
    replace (GL_TEXTURE0 + (i + 1) + Z.of_nat j)
      with (GL_TEXTURE0 + i + Z.of_nat (S j)) by lia.
    exact Hb.
Qed.

Lemma bind_from_idempotent (l : list TEXTURE_INFO) (i : Z) (g : GLContext) :
  bind_from l i (bind_from l i g) = bind_from l i g.
Proof.
  rewrite (bind_from_bound_again l i (bind_from l i g) (bind_from_bound l i g)).
  destruct l as [|info l]; [reflexivity|].
  rewrite <- (bind_from_active (info :: l) i g) by discriminate.
  destruct (bind_from (info :: l) i g). reflexivity.
Qed.

(** C9. Calling [BindGLTextures] twice in a row ends in the same world as
    calling it once (when the counter has run past the array both are
    undefined); and within capacity the call returns with every registered
    texture bound to the unit of its own slot index. *)
Theorem BindGLTextures_idempotent :
  forall (w : World),
    (BindGLTextures;; BindGLTextures) w = BindGLTextures w /\
    (m_loadedTextures (this w) <= 16 ->
     exists w',
       BindGLTextures w = Some (tt, w') /\
       this w' = this w /\
       forall (i : nat) (info : TEXTURE_INFO),
         registered (this w) !! i = Some info ->
         gl_texture_binding_2d (gl w') !! (GL_TEXTURE0 + Z.of_nat i)
         = Some (ID info)).
Proof.
  intros w.
  destruct (decide (m_loadedTextures (this w) <= 16)) as [Hcap|Hcap].
  - split.
    + rewrite (run_bind_Some _ _ _ _ _ (BindGLTextures_run w Hcap)).
      rewrite BindGLTextures_run by exact Hcap.
      rewrite BindGLTextures_run by exact Hcap.
      unfold world_with_gl. cbn [this gl stbi_flip_vertically_on_load cout].
      rewrite bind_from_idempotent. reflexivity.
    + intros _. eexists. split; [apply BindGLTextures_run; exact Hcap|].
      split; [reflexivity|].
      intros i info Hi. cbn [gl world_with_gl].
      destruct (bind_from_bound (registered (this w)) 0 (gl w) i info Hi)
        as [Hb _].
      rewrite Z.add_0_r in Hb. exact Hb.
  - split; [|intros Hle; contradiction].
    rewrite run_bind. rewrite BindGLTextures_overflow by lia. reflexivity.
Qed.

Lemma BindGLTextures_idempotent_witness :
  (BindGLTextures;; BindGLTextures) two_texture_world
    = BindGLTextures two_texture_world /\
  exists w',
    BindGLTextures two_texture_world = Some (tt, w') /\
    this w' = this two_texture_world /\
    forall (i : nat) (info : TEXTURE_INFO),
      registered (this two_texture_world) !! i = Some info ->
      gl_texture_binding_2d (gl w') !! (GL_TEXTURE0 + Z.of_nat i)
      = Some (ID info).
Proof.
  destruct (BindGLTextures_idempotent two_texture_world) as [Htwice Hbound].
  split; [exact Htwice|]. apply Hbound. cbn. lia.
Defined.

(** ** The material catalog *)

Lemma FindMaterial_loop_absent (ms : list OBJECT_MATERIAL) (tag0 : string)
    (material : OBJECT_MATERIAL) :
  tag0 ∉ tag <$> ms -> FindMaterial_loop ms tag0 material = material.
Proof.
  induction ms as [|m ms IH]; intros Hnot; [reflexivity|].
  cbn [FindMaterial_loop]. cbn in Hnot.
  apply not_elem_of_cons in Hnot as [Hne Hnot].
  destruct (String.eqb_spec (tag m) tag0) as [Heq|_]; [congruence|].
  apply IH. exact Hnot.
Qed.

(** [FindMaterial] reports success whenever the catalog is not empty,
    whether or not the tag is there. *)
Lemma FindMaterial_run (tag0 : string) (material : OBJECT_MATERIAL) (w : World) :
  FindMaterial tag0 material w
  = Some (match m_objectMaterials (this w) with
          | [] => (false, material)
          | _ :: _ =>
              (true, FindMaterial_loop (m_objectMaterials (this w)) tag0 material)
          end, w).
Proof.
  unfold FindMaterial. run_steps.
  destruct (m_objectMaterials (this w)); reflexivity.
Qed.

Lemma SetShaderMaterial_run (material : OBJECT_MATERIAL) (tag0 : string)
    (w : World) (sh : ShaderManager) :
  m_pShaderManager (this w) = Some sh ->
  SetShaderMaterial material tag0 w
  = Some (tt,
          match m_objectMaterials (this w) with
          | [] => w
          | _ :: _ =>
              world_with_shader
                (material_uniforms
                   (FindMaterial_loop (m_objectMaterials (this w)) tag0 material)
                   sh) w
          end).
Proof.
  intros Hsh. unfold SetShaderMaterial. run_steps.
  destruct (m_objectMaterials (this w)) as [|m ms] eqn:Hms; [reflexivity|].
  cbn [length Nat.ltb Nat.leb].
  rewrite (run_bind_Some _ _ _ _ _ (FindMaterial_run _ _ _)).
  rewrite Hms.
  set (found := FindMaterial_loop (m :: ms) tag0 material).
  rewrite (run_bind_Some _ _ _ _ _ (shader_call_attached _ _ _ Hsh)).
  rewrite (run_bind_Some _ _ _ _ _
             (shader_call_attached _ _ _ (shader_of_world_with_shader _ _))).
  rewrite (run_bind_Some _ _ _ _ _
             (shader_call_attached _ _ _ (shader_of_world_with_shader _ _))).
  rewrite (run_bind_Some _ _ _ _ _
             (shader_call_attached _ _ _ (shader_of_world_with_shader _ _))).
  rewrite (shader_call_attached _ _ _ (shader_of_world_with_shader _ _)).
  reflexivity.
Qed.

(** With an empty catalog nothing is written. *)
Lemma SetShaderMaterial_empty_catalog (material : OBJECT_MATERIAL)
    (tag0 : string) (w : World) :
  m_objectMaterials (this w) = [] ->
  SetShaderMaterial material tag0 w = Some (tt, w).
Proof.
  intros Hempty. unfold SetShaderMaterial. run_steps. rewrite Hempty.
  reflexivity.
Qed.

(** [SetShaderMaterial] has no null test: without a shader and with a
    catalog that is not empty it dereferences the null pointer. *)
Lemma SetShaderMaterial_without_shader (material : OBJECT_MATERIAL)
    (tag0 : string) (w : World) :
  m_pShaderManager (this w) = None ->
  m_objectMaterials (this w) <> [] ->
  SetShaderMaterial material tag0 w = None.
Proof.
  intros Hnull Hne. unfold SetShaderMaterial. run_steps.
  destruct (m_objectMaterials (this w)) as [|m ms] eqn:Hms; [congruence|].
  cbn [length Nat.ltb Nat.leb].
  rewrite (run_bind_Some _ _ _ _ _ (FindMaterial_run _ _ _)).
  rewrite Hms. rewrite run_bind.
  rewrite (shader_call_null _ _ Hnull). reflexivity.
Qed.

(** With a catalog that is not empty, a tag that is not in it makes
    [SetShaderMaterial] write the five fields of its uninitialised local. *)
Lemma SetShaderMaterial_unknown_tag (material : OBJECT_MATERIAL)
    (tag0 : string) (w : World) (sh : ShaderManager) :
  m_pShaderManager (this w) = Some sh ->
  m_objectMaterials (this w) <> [] ->
  tag0 ∉ tag <$> m_objectMaterials (this w) ->
  SetShaderMaterial material tag0 w
  = Some (tt, world_with_shader (material_uniforms material sh) w).
Proof.
  intros Hsh Hne Hnot. rewrite (SetShaderMaterial_run _ _ _ _ Hsh).
  destruct (m_objectMaterials (this w)) as [|m ms] eqn:Hms; [congruence|].
  rewrite (FindMaterial_loop_absent _ _ _ Hnot). reflexivity.
Qed.

(** C1, on the code.  After the materials are defined and "shiny" is
    selected, [SetShaderMaterial "shinyMaterial"] (a tag that is not in the
    catalog, and the one [RenderScene] passes for the right-side buttons)
    returns and overwrites all five material uniforms with the contents of
    its uninitialised local: the uniforms set by "shiny" are lost. *)
Theorem SetShaderMaterial_unknown_tag_overwrites_uniforms :
  exists (w0 w1 : World) (sh0 sh1 : ShaderManager),
    shiny_selected = Some w0 /\
    ("shinyMaterial" ∉ tag <$> m_objectMaterials (this w0)) /\
    SetShaderMaterial stale_material "shinyMaterial" w0 = Some (tt, w1) /\
    m_pShaderManager (this w0) = Some sh0 /\
    m_pShaderManager (this w1) = Some sh1 /\
    uniforms sh0 !! "material.shininess" = Some (UFloat 50) /\
    uniforms sh1 !! "material.shininess" = Some (UFloat 123) /\
    uniforms sh0 !! "material.ambientStrength" = Some (UFloat 0.7) /\
    uniforms sh1 !! "material.ambientStrength" = Some (UFloat 7) /\
    uniforms sh1 !! "material.ambientColor" = Some (UVec3 (glm.Vec3 1 2 3)) /\
    uniforms sh1 !! "material.diffuseColor" = Some (UVec3 (glm.Vec3 4 5 6)) /\
    uniforms sh1 !! "material.specularColor" = Some (UVec3 (glm.Vec3 7 8 9)).
Proof.
  destruct shiny_selected as [w0|] eqn:Hw0; [|vm_compute in Hw0; discriminate].
  vm_compute in Hw0. injection Hw0 as <-.
  eexists _, _, _, _. split; [reflexivity|]. split.
  - cbn. intros Hin.
    repeat (apply elem_of_cons in Hin as [Heq|Hin]; [discriminate|]).
    inversion Hin.
  - split; [vm_compute; reflexivity|].
    repeat split; vm_compute; reflexivity.
Qed.

Lemma push_material_run (material : OBJECT_MATERIAL) (w : World) :
  push_material material w
  = Some (tt, world_with_materials (m_objectMaterials (this w) ++ [material]) w).
Proof. reflexivity. Qed.

Lemma DefineObjectMaterials_run (w : World) :
  DefineObjectMaterials w
  = Some (tt, world_with_materials
                (m_objectMaterials (this w) ++ specified_catalog) w).
Proof.
  unfold DefineObjectMaterials.
  repeat (rewrite (run_bind_Some _ _ _ _ _ (push_material_run _ _))).
  rewrite push_material_run. unfold world_with_materials.
  cbn [this with_materials m_objectMaterials gl
       stbi_flip_vertically_on_load cout].
  rewrite <- !app_assoc. reflexivity.
Qed.

(** C8. [DefineObjectMaterials] always returns and appends to the catalog
    exactly the five materials of the specification, in the order shiny,
    shinyish, porcelaine, dull, void, changing nothing else; so on a catalog
    that was empty, [FindMaterial] gives shininess 50 for "shiny" and 0 for
    "void". *)
Theorem DefineObjectMaterials_appends_specified_catalog :
  forall (w : World),
    DefineObjectMaterials w
    = Some (tt, world_with_materials
                  (m_objectMaterials (this w) ++ specified_catalog) w) /\
    length specified_catalog = 5%nat /\
    tag <$> specified_catalog
      = ["shiny"; "shinyish"; "porcelaine"; "dull"; "void"] /\
    (m_objectMaterials (this w) = [] ->
     forall (material : OBJECT_MATERIAL) (w' : World),
       DefineObjectMaterials w = Some (tt, w') ->
       (exists found,
           FindMaterial "shiny" material w' = Some (true, found, w') /\
           shininess found = 50%f /\ ambientStrength found = 0.7%f) /\
       (exists found,
           FindMaterial "void" material w' = Some (true, found, w') /\
           shininess found = 0%f /\ ambientStrength found = 0%f)).
Proof.
  intros w. pose proof (DefineObjectMaterials_run w) as Hrun.
  split; [exact Hrun|]. split; [reflexivity|]. split; [reflexivity|].
  intros Hempty material w' Hw'. rewrite Hrun in Hw'. injection Hw' as <-.
  rewrite Hempty. cbn [app].
  split; eexists; rewrite FindMaterial_run; cbn; repeat split; reflexivity.
Qed.

Lemma DefineObjectMaterials_appends_specified_catalog_witness :
  DefineObjectMaterials (fresh_world None)
  = Some (tt, world_with_materials
                (m_objectMaterials (this (fresh_world None)) ++ specified_catalog)
                (fresh_world None)) /\
  length specified_catalog = 5%nat /\
  tag <$> specified_catalog
    = ["shiny"; "shinyish"; "porcelaine"; "dull"; "void"] /\
  forall (material : OBJECT_MATERIAL) (w' : World),
    DefineObjectMaterials (fresh_world None) = Some (tt, w') ->
    (exists found,
        FindMaterial "shiny" material w' = Some (true, found, w') /\
        shininess found = 50%f /\ ambientStrength found = 0.7%f) /\
    (exists found,
        FindMaterial "void" material w' = Some (true, found, w') /\
        shininess found = 0%f /\ ambientStrength found = 0%f).
Proof.
  destruct (DefineObjectMaterials_appends_specified_catalog (fresh_world None))
    as (Hrun & Hlen & Htags & Hfind).
  split; [exact Hrun|]. split; [exact Hlen|]. split; [exact Htags|].
  apply Hfind. reflexivity.
Defined.

(** ** The model matrix *)

Lemma radians_zero : glm.radians 0 = 0%f.
Proof. vm_compute. reflexivity. Qed.

Lemma rotate_zero (cosf sinf : float -> float) (axis : glm.vec3) :
  cosf 0%f = 1%f -> sinf 0%f = 0%f ->
  axis = glm.Vec3 1 0 0 \/ axis = glm.Vec3 0 1 0 \/ axis = glm.Vec3 0 0 1 ->
  glm.rotate cosf sinf 0 axis = glm.identity.
Proof.
  intros Hcos Hsin Haxis. unfold glm.rotate, glm.rotate_mat.
  rewrite Hcos, Hsin.
  destruct Haxis as [->|[->| ->]]; vm_compute; reflexivity.
Qed.

(** *** Exact steps of binary32 arithmetic

    Multiplying a number by 1 or by 0 and adding a zero are exact. *)

Lemma digits_xO (p : positive) :
  Zpos (digits2_pos p~0) = Zpos (digits2_pos p) + 1.
Proof. cbn [digits2_pos]. lia. Qed.

Lemma digits_shifted (m : positive) (e : Z) :
  Zpos (digits2_pos (8388608 * m)) + (e + -23) = Zpos (digits2_pos m) + e.
Proof.
  change (8388608 * m)%positive
    with (m~0~0~0~0~0~0~0~0~0~0~0~0~0~0~0~0~0~0~0~0~0~0~0)%positive.
  rewrite !digits_xO. lia.
Qed.

Lemma shift_back (m : positive) :
  SpecFloat.iter_pos shr_1 23
    {| shr_m := Zpos (8388608 * m); shr_r := false; shr_s := false |}
  = {| shr_m := Zpos m; shr_r := false; shr_s := false |}.
Proof. reflexivity. Qed.

(** Rounding [m * 2^23 * 2^(e - 23)] gives back [m * 2^e]. *)
Lemma round_shifted (s : bool) (m : positive) (e : Z) :
  bounded 24 128 m e = true ->
  binary_round_aux 24 128 s (Zpos (8388608 * m)) (e + -23) loc_Exact
  = S754_finite s m e.
Proof.
  intros Hb. unfold bounded in Hb. apply andb_prop in Hb as [Hcan Hle].
  unfold canonical_mantissa in Hcan. apply Z.eqb_eq in Hcan.
  unfold binary_round_aux, shr_fexp, Zdigits2.
  rewrite digits_shifted, Hcan.
  replace (e - (e + -23)) with 23 by lia.
  cbn [shr shr_record_of_loc]. rewrite shift_back.
  cbn [shr_m loc_of_shr_record round_nearest_even].
  replace (e + -23 + 23) with e by lia.
  rewrite Hcan, Z.sub_diag. cbn [shr shr_record_of_loc shr_m].
  rewrite Hle. reflexivity.
Qed.

Lemma mul_one_r (x : float) : number32 x -> (x * 1)%f = x.
Proof.
  destruct x as [s|s| |s m e]; cbn [number32]; intros Hx;
    [destruct s; reflexivity|contradiction|contradiction|].
  change ((S754_finite s m e * 1)%f)
    with (binary_round_aux 24 128 (xorb s false) (Zpos (m * 8388608))
            (e + -23) loc_Exact).
  rewrite Pos.mul_comm, (round_shifted _ m e Hx). destruct s; reflexivity.
Qed.

Lemma mul_one_l (x : float) : number32 x -> (1 * x)%f = x.
Proof.
  destruct x as [s|s| |s m e]; cbn [number32]; intros Hx;
    [destruct s; reflexivity|contradiction|contradiction|].
  change ((1 * S754_finite s m e)%f)
    with (binary_round_aux 24 128 (xorb false s) (Zpos (8388608 * m))
            (-23 + e) loc_Exact).
  rewrite (Z.add_comm (-23) e), (round_shifted _ m e Hx). reflexivity.
Qed.

Lemma is_number_refl (x : float) : number32 x -> is_number x x.
Proof. intros Hx. split; [left; reflexivity|exact Hx]. Qed.

Lemma is_number_one : is_number 1%f 1%f.
Proof. apply is_number_refl. reflexivity. Qed.

Lemma is_number_zero : is_number 0%f 0%f.
Proof. apply is_number_refl. exact I. Qed.

Lemma is_number_number (u v : float) : is_number u v -> number32 u.
Proof.
  intros [[->|[Hu _]] Hv]; [exact Hv|]. destruct u; try contradiction. exact I.
Qed.

Lemma is_number_is_one (u : float) : is_number u 1%f -> u = 1%f.
Proof. intros [[->|[_ Hone]] _]; [reflexivity|contradiction]. Qed.

Lemma is_number_is_zero (u : float) : is_number u 0%f -> zero32 u.
Proof. intros [[->|[Hu _]] _]; [exact I|exact Hu]. Qed.

Lemma is_number_mul_one_r (u v w : float) :
  is_number u v -> is_number w 1%f -> is_number (u * w)%f v.
Proof.
  intros Hu Hw. rewrite (is_number_is_one w Hw).
  rewrite mul_one_r by exact (is_number_number u v Hu). exact Hu.
Qed.

Lemma is_number_mul_one_l (u v w : float) :
  is_number w 1%f -> is_number u v -> is_number (w * u)%f v.
Proof.
  intros Hw Hu. rewrite (is_number_is_one w Hw).
  rewrite mul_one_l by exact (is_number_number u v Hu). exact Hu.
Qed.

Lemma is_number_mul_zero_r (u v w : float) :
  is_number u v -> is_number w 0%f -> is_number (u * w)%f 0%f.
Proof.
  intros Hu Hw. apply is_number_number in Hu. apply is_number_is_zero in Hw.
  split; [|exact I]. right. split; [|exact I].
  destruct u; try contradiction; destruct w; try contradiction; exact I.
Qed.

Lemma is_number_mul_zero_l (u v w : float) :
  is_number w 0%f -> is_number u v -> is_number (w * u)%f 0%f.
Proof.
  intros Hw Hu. apply is_number_number in Hu. apply is_number_is_zero in Hw.
  split; [|exact I]. right. split; [|exact I].
  destruct u; try contradiction; destruct w; try contradiction; exact I.
Qed.

Lemma is_number_add_zero_r (u v w : float) :
  is_number u v -> is_number w 0%f -> is_number (u + w)%f v.
Proof.
  intros [Huv Hv] Hw. apply is_number_is_zero in Hw. split; [|exact Hv].
  destruct w as [sw| | |]; try contradiction.
  destruct Huv as [->|[Hu Hv0]].
  - destruct v as [sv| | |]; try contradiction.
    + right. split; [|exact I]. destruct sv, sw; exact I.
    + left. reflexivity.
  - right. split; [|exact Hv0].
    destruct u as [su| | |]; try contradiction. destruct su, sw; exact I.
Qed.

Lemma is_number_add_zero_l (u v w : float) :
  is_number w 0%f -> is_number u v -> is_number (w + u)%f v.
Proof.
  intros Hw [Huv Hv]. apply is_number_is_zero in Hw. split; [|exact Hv].
  destruct w as [sw| | |]; try contradiction.
  destruct Huv as [->|[Hu Hv0]].
  - destruct v as [sv| | |]; try contradiction.
    + right. split; [|exact I]. destruct sv, sw; exact I.
    + left. reflexivity.
  - right. split; [|exact Hv0].
    destruct u as [su| | |]; try contradiction. destruct su, sw; exact I.
Qed.

Ltac number_atom :=
  first [eassumption | apply is_number_one | apply is_number_zero].

Ltac number_term :=
  first
    [ number_atom
    | apply is_number_mul_one_r; number_atom
    | apply is_number_mul_one_l; number_atom
    | eapply is_number_mul_zero_r; number_atom
    | eapply is_number_mul_zero_l; number_atom
    | apply is_number_add_zero_r; number_term
    | apply is_number_add_zero_l; number_term ].

Ltac entrywise :=
  cbv [is_mat4 is_vec4 translation_matrix scale_matrix
       translation_scale_matrix
       glm.translate glm.translate_mat glm.scale glm.scale_mat glm.identity
       glm.mat4_mul glm.mat4_mul_col glm.vec4_add glm.vec4_scale
       glm.x3 glm.y3 glm.z3 glm.x4 glm.y4 glm.z4 glm.w4
       glm.col0 glm.col1 glm.col2 glm.col3] in *.

Ltac entries_are_numbers :=
  repeat match goal with |- _ /\ _ => split end; number_term.

Lemma translate_is (p : glm.vec3) :
  number_vec3 p -> is_mat4 (glm.translate p) (translation_matrix p).
Proof.
  destruct p as [px py pz]. intros (Hx & Hy & Hz). cbn in Hx, Hy, Hz.
  apply is_number_refl in Hx, Hy, Hz.
  entrywise. entries_are_numbers.
Qed.

Lemma scale_is (k : glm.vec3) :
  number_vec3 k -> is_mat4 (glm.scale k) (scale_matrix k).
Proof.
  destruct k as [kx ky kz]. intros (Hx & Hy & Hz). cbn in Hx, Hy, Hz.
  apply is_number_refl in Hx, Hy, Hz.
  entrywise. entries_are_numbers.
Qed.

Lemma mul_identity_is (m v : glm.mat4) :
  is_mat4 m v -> is_mat4 (m × glm.identity) v.
Proof.
  destruct m as [[? ? ? ?] [? ? ? ?] [? ? ? ?] [? ? ? ?]].
  destruct v as [[? ? ? ?] [? ? ? ?] [? ? ? ?] [? ? ? ?]].
  intros H. entrywise.
  destruct H as ((?&?&?&?)&(?&?&?&?)&(?&?&?&?)&(?&?&?&?)).
  entries_are_numbers.
Qed.

Lemma mul_translation_scale_is (a b : glm.mat4) (p k : glm.vec3) :
  is_mat4 a (translation_matrix p) -> is_mat4 b (scale_matrix k) ->
  is_mat4 (a × b) (translation_scale_matrix p k).
Proof.
  destruct a as [[? ? ? ?] [? ? ? ?] [? ? ? ?] [? ? ? ?]].
  destruct b as [[? ? ? ?] [? ? ? ?] [? ? ? ?] [? ? ? ?]].
  destruct p as [px py pz], k as [kx ky kz].
  intros Ha Hb. entrywise.
  destruct Ha as ((?&?&?&?)&(?&?&?&?)&(?&?&?&?)&(?&?&?&?)).
  destruct Hb as ((?&?&?&?)&(?&?&?&?)&(?&?&?&?)&(?&?&?&?)).
  entries_are_numbers.
Qed.

(** Without rotation the matrix of [SetTransformations] is, number by
    number, the translation with the scale on its diagonal. *)
Lemma modelView_without_rotation (cosf sinf : float -> float)
    (scaleXYZ positionXYZ : glm.vec3) :
  cosf 0%f = 1%f -> sinf 0%f = 0%f ->
  number_vec3 scaleXYZ -> number_vec3 positionXYZ ->
  is_mat4
    (glm.translate positionXYZ
       × glm.rotate cosf sinf (glm.radians 0) (glm.Vec3 1 0 0)
       × glm.rotate cosf sinf (glm.radians 0) (glm.Vec3 0 1 0)
       × glm.rotate cosf sinf (glm.radians 0) (glm.Vec3 0 0 1)
       × glm.scale scaleXYZ)
    (translation_scale_matrix positionXYZ scaleXYZ).
Proof.
  intros Hcos Hsin Hscale Hposition.
  rewrite radians_zero, !(rotate_zero cosf sinf) by auto.
  apply mul_translation_scale_is; [|apply scale_is; exact Hscale].
  do 3 apply mul_identity_is. apply translate_is. exact Hposition.
Qed.

(** *** The functions of [glm] are the templates at binary32 *)

Section AtBinary32.
Variables cosf sinf : float -> float.

Lemma translate_binary32 (v : glm.vec3) :
  mat4_to_glm cosf sinf
    (glmT.translate (binary32 cosf sinf) (vec3_of_glm cosf sinf v))
  = glm.translate v.
Proof. reflexivity. Qed.

Lemma scale_binary32 (v : glm.vec3) :
  mat4_to_glm cosf sinf
    (glmT.scale (binary32 cosf sinf) (vec3_of_glm cosf sinf v))
  = glm.scale v.
Proof. reflexivity. Qed.

Lemma rotate_binary32 (angle : float) (v : glm.vec3) :
  mat4_to_glm cosf sinf
    (glmT.rotate (binary32 cosf sinf) angle (vec3_of_glm cosf sinf v))
  = glm.rotate cosf sinf angle v.
Proof. reflexivity. Qed.

Lemma radians_binary32 (degrees : float) :
  glmT.radians (binary32 cosf sinf) degrees = glm.radians degrees.
Proof. reflexivity. Qed.

Lemma mat4_mul_binary32 (a b : glmT.mat4 (binary32 cosf sinf)) :
  mat4_to_glm cosf sinf (glmT.mat4_mul (binary32 cosf sinf) a b)
  = mat4_to_glm cosf sinf a × mat4_to_glm cosf sinf b.
Proof. reflexivity. Qed.

(** The matrix of [SetTransformations]. *)
Lemma modelView_binary32 (scaleXYZ : glm.vec3) (rx ry rz : float)
    (positionXYZ : glm.vec3) :
  glm.translate positionXYZ
    × glm.rotate cosf sinf (glm.radians rx) (glm.Vec3 1 0 0)
    × glm.rotate cosf sinf (glm.radians ry) (glm.Vec3 0 1 0)
    × glm.rotate cosf sinf (glm.radians rz) (glm.Vec3 0 0 1)
    × glm.scale scaleXYZ
  = mat4_to_glm cosf sinf
      (glmT.modelView (binary32 cosf sinf) (vec3_of_glm cosf sinf scaleXYZ)
         rx ry rz (vec3_of_glm cosf sinf positionXYZ)).
Proof.
  unfold glmT.modelView. cbv zeta.
  rewrite !mat4_mul_binary32. reflexivity.
Qed.
End AtBinary32.

Lemma modelView_rows_without_rotation (cosf sinf : float -> float)
    (scaleXYZ positionXYZ : glm.vec3) :
  cosf 0%f = 1%f -> sinf 0%f = 0%f ->
  number_vec3 scaleXYZ -> number_vec3 positionXYZ ->
  Forall2 (Forall2 same_number)
    (glmT.rows (binary32 cosf sinf)
       (glmT.modelView (binary32 cosf sinf) (vec3_of_glm cosf sinf scaleXYZ)
          0%f 0%f 0%f (vec3_of_glm cosf sinf positionXYZ)))
    (TranslateScale (binary32 cosf sinf) (vec3_of_glm cosf sinf positionXYZ)
       (vec3_of_glm cosf sinf scaleXYZ)).
Proof.
  intros Hcos Hsin Hscale Hposition.
  pose proof (modelView_without_rotation cosf sinf scaleXYZ positionXYZ
                Hcos Hsin Hscale Hposition) as Hnumbers.
  rewrite modelView_binary32 in Hnumbers. revert Hnumbers.
  generalize (glmT.modelView (binary32 cosf sinf)
                (vec3_of_glm cosf sinf scaleXYZ) 0%f 0%f 0%f
                (vec3_of_glm cosf sinf positionXYZ)).
  intros [[? ? ? ?] [? ? ? ?] [? ? ? ?] [? ? ? ?]] Hnumbers.
  destruct scaleXYZ, positionXYZ.
  cbv [is_mat4 is_vec4 is_number translation_scale_matrix mat4_to_glm
       vec4_to_glm glm.x3 glm.y3 glm.z3 glm.x4 glm.y4 glm.z4 glm.w4
       glm.col0 glm.col1 glm.col2 glm.col3
       glmT.x4 glmT.y4 glmT.z4 glmT.w4
       glmT.col0 glmT.col1 glmT.col2 glmT.col3] in Hnumbers.
  destruct Hnumbers
    as (((?&?)&(?&?)&(?&?)&(?&?))&((?&?)&(?&?)&(?&?)&(?&?))
        &((?&?)&(?&?)&(?&?)&(?&?))&((?&?)&(?&?)&(?&?)&(?&?))).
  cbv [glmT.rows TranslateScale vec3_of_glm
       glmT.x3 glmT.y3 glmT.z3 glmT.x4 glmT.y4 glmT.z4 glmT.w4
       glmT.col0 glmT.col1 glmT.col2 glmT.col3].
  repeat match goal with |- Forall2 _ _ _ => constructor end; assumption.
Qed.

(** *** In an exact arithmetic the templates are the textbook matrices *)

Section Exact.
Variable S : glmT.Scalar.
Hypothesis S_ring :
  ring_theory (glmT.zero S) (glmT.one S) (glmT.add S) (glmT.mul S)
    (glmT.sub S) (glmT.opp S) eq.
Hypothesis inversesqrt_one : glmT.inversesqrt S (glmT.one S) = glmT.one S.

Add Ring S_is_a_ring : S_ring.

Ltac entries :=
  cbv [product column sum Translate RotateX RotateY RotateZ Scale
       fmap list_fmap seq zip_with foldr nth
       glmT.rows glmT.transform glmT.translate glmT.translate_mat
       glmT.scale glmT.scale_mat glmT.rotate glmT.rotate_mat
       glmT.identity glmT.mat4_mul glmT.mat4_mul_col
       glmT.vec4_add glmT.vec4_scale glmT.vec3_scale
       glmT.x3 glmT.y3 glmT.z3 glmT.x4 glmT.y4 glmT.z4 glmT.w4
       glmT.col0 glmT.col1 glmT.col2 glmT.col3].

Ltac by_rows :=
  entries;
  repeat match goal with
         | |- _ :: _ = _ :: _ => apply f_equal2
         | |- glmT.Vec4 _ _ _ _ = glmT.Vec4 _ _ _ _ => apply f_equal4
         end;
  try reflexivity; ring.

Lemma normalize_axis (x y z : glmT.T S) :
  glmT.add S
    (glmT.add S (glmT.mul S x x) (glmT.mul S y y)) (glmT.mul S z z)
  = glmT.one S ->
  glmT.normalize S (glmT.Vec3 x y z) = glmT.Vec3 x y z.
Proof.
  intros Hunit. unfold glmT.normalize, glmT.dot. cbn.
  rewrite Hunit, inversesqrt_one. f_equal; ring.
Qed.

Lemma rows_translate (x y z : glmT.T S) :
  glmT.rows S (glmT.translate S (glmT.Vec3 x y z)) = Translate S x y z.
Proof. by_rows. Qed.

Lemma rows_scale (x y z : glmT.T S) :
  glmT.rows S (glmT.scale S (glmT.Vec3 x y z)) = Scale S x y z.
Proof. by_rows. Qed.

Lemma rows_rotate_x (angle : glmT.T S) :
  glmT.rows S
    (glmT.rotate S angle
       (glmT.Vec3 (glmT.one S) (glmT.zero S) (glmT.zero S)))
  = RotateX S angle.
Proof.
  unfold glmT.rotate, glmT.rotate_mat. cbv zeta.
  rewrite normalize_axis by ring. by_rows.
Qed.

Lemma rows_rotate_y (angle : glmT.T S) :
  glmT.rows S
    (glmT.rotate S angle
       (glmT.Vec3 (glmT.zero S) (glmT.one S) (glmT.zero S)))
  = RotateY S angle.
Proof.
  unfold glmT.rotate, glmT.rotate_mat. cbv zeta.
  rewrite normalize_axis by ring. by_rows.
Qed.

Lemma rows_rotate_z (angle : glmT.T S) :
  glmT.rows S
    (glmT.rotate S angle
       (glmT.Vec3 (glmT.zero S) (glmT.zero S) (glmT.one S)))
  = RotateZ S angle.
Proof.
  unfold glmT.rotate, glmT.rotate_mat. cbv zeta.
  rewrite normalize_axis by ring. by_rows.
Qed.

Lemma rows_mat4_mul (a b : glmT.mat4 S) :
  glmT.rows S (glmT.mat4_mul S a b)
  = product S (glmT.rows S a) (glmT.rows S b).
Proof.
  destruct a as [[? ? ? ?] [? ? ? ?] [? ? ? ?] [? ? ? ?]].
  destruct b as [[? ? ? ?] [? ? ? ?] [? ? ? ?] [? ? ? ?]].
  by_rows.
Qed.

Lemma product_Translate_Scale (position scale : glmT.vec3 S) :
  product S
    (Translate S (glmT.x3 position) (glmT.y3 position) (glmT.z3 position))
    (Scale S (glmT.x3 scale) (glmT.y3 scale) (glmT.z3 scale))
  = TranslateScale S position scale.
Proof. destruct position, scale. unfold TranslateScale. by_rows. Qed.

Lemma modelView_rows (scaleXYZ : glmT.vec3 S) (rx ry rz : glmT.T S)
    (positionXYZ : glmT.vec3 S) :
  glmT.rows S (glmT.modelView S scaleXYZ rx ry rz positionXYZ)
  = Compose S scaleXYZ rx ry rz positionXYZ.
Proof.
  destruct scaleXYZ as [sx sy sz], positionXYZ as [px py pz].
  unfold glmT.modelView, Compose. cbv zeta.
  rewrite !rows_mat4_mul, rows_translate, rows_scale.
  rewrite rows_rotate_x, rows_rotate_y, rows_rotate_z. reflexivity.
Qed.

(** The same on points. *)
Lemma transform_mat4_mul (a b : glmT.mat4 S) (v : glmT.vec4 S) :
  glmT.mat4_mul_col S (glmT.mat4_mul S a b) v
  = glmT.mat4_mul_col S a (glmT.mat4_mul_col S b v).
Proof.
  destruct a as [[? ? ? ?] [? ? ? ?] [? ? ? ?] [? ? ? ?]].
  destruct b as [[? ? ? ?] [? ? ? ?] [? ? ? ?] [? ? ? ?]].
  destruct v as [? ? ? ?]. by_rows.
Qed.

Lemma transform_translate (t p : glmT.vec3 S) :
  glmT.mat4_mul_col S (glmT.translate S t) (glmT.point S p)
  = glmT.point S (translate_point S t p).
Proof. destruct t, p. unfold glmT.point, translate_point. by_rows. Qed.

Lemma transform_scale (k p : glmT.vec3 S) :
  glmT.mat4_mul_col S (glmT.scale S k) (glmT.point S p)
  = glmT.point S (scale_point S k p).
Proof. destruct k, p. unfold glmT.point, scale_point. by_rows. Qed.

Lemma transform_rotate_x (angle : glmT.T S) (p : glmT.vec3 S) :
  glmT.mat4_mul_col S
    (glmT.rotate S angle
       (glmT.Vec3 (glmT.one S) (glmT.zero S) (glmT.zero S)))
    (glmT.point S p)
  = glmT.point S (rotate_x_point S angle p).
Proof.
  destruct p. unfold glmT.rotate, glmT.rotate_mat. cbv zeta.
  rewrite normalize_axis by ring.
  unfold glmT.point, rotate_x_point. by_rows.
Qed.

Lemma transform_rotate_y (angle : glmT.T S) (p : glmT.vec3 S) :
  glmT.mat4_mul_col S
    (glmT.rotate S angle
       (glmT.Vec3 (glmT.zero S) (glmT.one S) (glmT.zero S)))
    (glmT.point S p)
  = glmT.point S (rotate_y_point S angle p).
Proof.
  destruct p. unfold glmT.rotate, glmT.rotate_mat. cbv zeta.
  rewrite normalize_axis by ring.
  unfold glmT.point, rotate_y_point. by_rows.
Qed.

Lemma transform_rotate_z (angle : glmT.T S) (p : glmT.vec3 S) :
  glmT.mat4_mul_col S
    (glmT.rotate S angle
       (glmT.Vec3 (glmT.zero S) (glmT.zero S) (glmT.one S)))
    (glmT.point S p)
  = glmT.point S (rotate_z_point S angle p).
Proof.
  destruct p. unfold glmT.rotate, glmT.rotate_mat. cbv zeta.
  rewrite normalize_axis by ring.
  unfold glmT.point, rotate_z_point. by_rows.
Qed.

Lemma modelView_transform (scaleXYZ : glmT.vec3 S) (rx ry rz : glmT.T S)
    (positionXYZ p : glmT.vec3 S) :
  glmT.transform S (glmT.modelView S scaleXYZ rx ry rz positionXYZ) p
  = glmT.point S (Compose_point S scaleXYZ rx ry rz positionXYZ p).
Proof.
  unfold glmT.transform, glmT.modelView, Compose_point. cbv zeta.
  rewrite !transform_mat4_mul.
  rewrite transform_scale, transform_rotate_z, transform_rotate_y.
  rewrite transform_rotate_x, transform_translate. reflexivity.
Qed.
End Exact.



(** ** Frames: what a computation leaves alone *)

Section Preserves.
Context {X : Type} (proj : World -> X).

Lemma preserves_ret {A : Type} (a : A) : preserves proj (mret a).
Proof. intros w a' w' H. injection H as _ <-. reflexivity. Qed.

Lemma preserves_bind {A B : Type} (c : M A) (f : A -> M B) :
  preserves proj c -> (forall a, preserves proj (f a)) ->
  preserves proj (c ≫= f).
Proof.
  intros Hc Hf w b w2 Hrun.
  apply bind_inv in Hrun as (a & w1 & H1 & H2).
  rewrite (Hf a _ _ _ H2). exact (Hc _ _ _ H1).
Qed.

Lemma preserves_undefined {A : Type} :
  preserves proj (@undefined_behaviour A).
Proof. intros w a w' H. discriminate. Qed.

Lemma preserves_get_this : preserves proj get_this.
Proof. intros w a w' H. injection H as _ <-. reflexivity. Qed.

Lemma preserves_if_shader (body : M unit) :
  preserves proj body -> preserves proj (if_shader body).
Proof.
  intros Hbody. unfold if_shader. apply preserves_bind.
  - apply preserves_get_this.
  - intros s. destruct (m_pShaderManager s); [exact Hbody|apply preserves_ret].
Qed.

Lemma preserves_for_each {A : Type} (l : list A) (body : A -> M unit) :
  (forall a, preserves proj (body a)) -> preserves proj (for_each l body).
Proof.
  intros Hbody. induction l as [|a l IH]; cbn [for_each].
  - apply preserves_ret.
  - apply preserves_bind; [apply Hbody|intros _; exact IH].
Qed.

(** The primitive steps, each under the condition that [proj] does not
    look at what the step changes. *)
Lemma preserves_put_this (s : SceneManager) :
  (forall w, proj {| this := s; gl := gl w;
                     stbi_flip_vertically_on_load :=
                       stbi_flip_vertically_on_load w;
                     cout := cout w |} = proj w) ->
  preserves proj (put_this s).
Proof. intros Hproj w a w' H. injection H as _ <-. apply Hproj. Qed.

Lemma preserves_shader_call (f : ShaderManager -> ShaderManager) :
  (forall sh w, proj (world_with_shader sh w) = proj w) ->
  preserves proj (shader_call f).
Proof.
  intros Hproj w a w' H.
  destruct (m_pShaderManager (this w)) as [sh|] eqn:Hsh.
  - rewrite (shader_call_attached _ _ _ Hsh) in H. injection H as _ <-.
    apply Hproj.
  - rewrite (shader_call_null _ _ Hsh) in H. discriminate.
Qed.

Lemma preserves_mesh_call (c : MeshCall) :
  (forall ms w,
      proj {| this := with_meshes ms (this w); gl := gl w;
              stbi_flip_vertically_on_load := stbi_flip_vertically_on_load w;
              cout := cout w |} = proj w) ->
  preserves proj (mesh_call c).
Proof. intros Hproj w a w' H. injection H as _ <-. apply Hproj. Qed.

Lemma preserves_gl_call (f : GLContext -> GLContext) :
  (forall g w, proj (world_with_gl g w) = proj w) ->
  preserves proj (gl_call f).
Proof. intros Hproj w a w' H. injection H as _ <-. apply Hproj. Qed.

Lemma preserves_get_lightPosition (i : fin 4) :
  preserves proj (get_lightPosition i).
Proof. intros w a w' H. injection H as _ <-. reflexivity. Qed.

Lemma preserves_set_lightPosition (i : fin 4) (p : glm.vec3) :
  (forall l w,
      proj {| this := with_lightPositions l (this w); gl := gl w;
              stbi_flip_vertically_on_load := stbi_flip_vertically_on_load w;
              cout := cout w |} = proj w) ->
  preserves proj (set_lightPosition i p).
Proof. intros Hproj w a w' H. injection H as _ <-. apply Hproj. Qed.

Lemma preserves_push_material (material : OBJECT_MATERIAL) :
  (forall ms w, proj (world_with_materials ms w) = proj w) ->
  preserves proj (push_material material).
Proof. intros Hproj w a w' H. injection H as _ <-. apply Hproj. Qed.

Lemma preserves_FindTextureSlot (tag0 : string) :
  preserves proj (FindTextureSlot tag0).
Proof.
  intros w a w' H. unfold FindTextureSlot in H. rewrite run_bind in H.
  cbn [get_this] in H.
  destruct (find_texture _ _ _ _) as [[textureID textureSlot]|];
    [|discriminate].
  injection H as _ <-. reflexivity.
Qed.

Lemma preserves_FindMaterial (tag0 : string) (material : OBJECT_MATERIAL) :
  preserves proj (FindMaterial tag0 material).
Proof.
  intros w a w' H. rewrite FindMaterial_run in H. injection H as _ <-.
  reflexivity.
Qed.

(** The four setters change the shader only. *)
Hypothesis proj_shader : forall sh w, proj (world_with_shader sh w) = proj w.

Lemma preserves_SetTransformations cosf sinf scaleXYZ rx ry rz positionXYZ :
  preserves proj (SetTransformations cosf sinf scaleXYZ rx ry rz positionXYZ).
Proof.
  apply preserves_if_shader, preserves_shader_call, proj_shader.
Qed.

Lemma preserves_SetShaderColor r g b a :
  preserves proj (SetShaderColor r g b a).
Proof.
  apply preserves_if_shader, preserves_bind;
    [|intros _]; apply preserves_shader_call, proj_shader.
Qed.

Lemma preserves_SetShaderTexture textureTag :
  preserves proj (SetShaderTexture textureTag).
Proof.
  apply preserves_if_shader, preserves_bind;
    [apply preserves_shader_call, proj_shader|intros _].
  apply preserves_bind; [apply preserves_FindTextureSlot|intros slot].
  apply preserves_shader_call, proj_shader.
Qed.

Lemma preserves_SetShaderMaterial material materialTag :
  preserves proj (SetShaderMaterial material materialTag).
Proof.
  unfold SetShaderMaterial.
  apply preserves_bind; [apply preserves_get_this|intros s].
  destruct (0 <? length (m_objectMaterials s))%nat; [|apply preserves_ret].
  apply preserves_bind; [apply preserves_FindMaterial|intros [bReturn found]].
  destruct bReturn; [|apply preserves_ret].
  repeat (apply preserves_bind;
          [apply preserves_shader_call, proj_shader|intros _]).
  apply preserves_shader_call, proj_shader.
Qed.
End Preserves.

(** ** The render pass *)

Lemma maintains_ret {A : Type} (inv : World -> Prop) (a : A) :
  maintains inv (mret a).
Proof. intros w Hw. exists a, w. split; [reflexivity|exact Hw]. Qed.

Lemma maintains_bind {A B : Type} (inv : World -> Prop) (c : M A) (f : A -> M B) :
  maintains inv c -> (forall a, maintains inv (f a)) -> maintains inv (c ≫= f).
Proof.
  intros Hc Hf w Hw.
  destruct (Hc w Hw) as (a & w1 & H1 & Hw1).
  destruct (Hf a w1 Hw1) as (b & w2 & H2 & Hw2).
  exists b, w2. split; [|exact Hw2].
  rewrite (run_bind_Some _ _ _ _ _ H1). exact H2.
Qed.

Lemma maintains_for_each {A : Type} (inv : World -> Prop) (l : list A)
    (body : A -> M unit) :
  (forall a, maintains inv (body a)) -> maintains inv (for_each l body).
Proof.
  intros Hbody. induction l as [|a l IH]; cbn [for_each].
  - apply maintains_ret.
  - apply maintains_bind; [apply Hbody|intros _; exact IH].
Qed.

Lemma renderable_with_shader (sh : ShaderManager) (w : World) :
  renderable w -> renderable (world_with_shader sh w).
Proof. intros [_ Hcap]. split; [cbn; eauto|exact Hcap]. Qed.

Lemma renderable_shader_call (f : ShaderManager -> ShaderManager) :
  maintains renderable (shader_call f).
Proof.
  intros w Hw. destruct Hw as [[sh Hsh] Hcap].
  exists tt, (world_with_shader (f sh) w).
  split; [apply shader_call_attached; exact Hsh|].
  apply renderable_with_shader. split; [eauto|exact Hcap].
Qed.

Lemma renderable_if_shader (body : M unit) :
  maintains renderable body -> maintains renderable (if_shader body).
Proof.
  intros Hbody w Hw. destruct (Hw) as [[sh Hsh] _].
  rewrite (if_shader_attached _ _ _ Hsh). apply Hbody. exact Hw.
Qed.

Lemma renderable_mesh_call (c : MeshCall) : maintains renderable (mesh_call c).
Proof. intros w Hw. eexists _, _. split; [reflexivity|exact Hw]. Qed.

Lemma renderable_get_lightPosition (i : fin 4) :
  maintains renderable (get_lightPosition i).
Proof. intros w Hw. eexists _, _. split; [reflexivity|exact Hw]. Qed.

Lemma renderable_SetTransformations cosf sinf scaleXYZ rx ry rz positionXYZ :
  maintains renderable
    (SetTransformations cosf sinf scaleXYZ rx ry rz positionXYZ).
Proof. apply renderable_if_shader, renderable_shader_call. Qed.

Lemma renderable_SetShaderColor r g b a :
  maintains renderable (SetShaderColor r g b a).
Proof.
  apply renderable_if_shader, maintains_bind;
    [|intros _]; apply renderable_shader_call.
Qed.

Lemma renderable_SetShaderTexture textureTag :
  maintains renderable (SetShaderTexture textureTag).
Proof.
  apply renderable_if_shader, maintains_bind;
    [apply renderable_shader_call|intros _].
  apply maintains_bind; [|intros slot; apply renderable_shader_call].
  intros w Hw. eexists _, w.
  split; [apply FindTextureSlot_run; apply Hw|exact Hw].
Qed.

Lemma renderable_SetShaderMaterial material materialTag :
  maintains renderable (SetShaderMaterial material materialTag).
Proof.
  intros w Hw. destruct (Hw) as [[sh Hsh] Hcap].
  eexists _, _. split; [apply (SetShaderMaterial_run _ _ _ _ Hsh)|].
  destruct (m_objectMaterials (this w)); [exact Hw|].
  apply renderable_with_shader. exact Hw.
Qed.

Ltac render_steps bind_lemma each_lemma transform color texture material mesh light :=
  repeat first
    [ apply transform | apply color | apply texture | apply material
    | apply mesh | apply light
    | apply each_lemma; intros ?
    | apply bind_lemma; [|intros ?] ].

Lemma RenderScene_preserves cosf sinf stack_material :
  preserves outside_shader_and_meshes (RenderScene cosf sinf stack_material).
Proof.
  unfold RenderScene. cbv zeta.
  render_steps
    (@preserves_bind _ outside_shader_and_meshes)
    (@preserves_for_each _ outside_shader_and_meshes)
    (fun sc rx ry rz p =>
       @preserves_SetTransformations _ outside_shader_and_meshes
         (fun _ _ => eq_refl) cosf sinf sc rx ry rz p)
    (@preserves_SetShaderColor _ outside_shader_and_meshes (fun _ _ => eq_refl))
    (@preserves_SetShaderTexture _ outside_shader_and_meshes (fun _ _ => eq_refl))
    (@preserves_SetShaderMaterial _ outside_shader_and_meshes (fun _ _ => eq_refl))
    (fun c => @preserves_mesh_call _ outside_shader_and_meshes c
                (fun _ _ => eq_refl))
    (@preserves_get_lightPosition _ outside_shader_and_meshes).
Qed.

Lemma RenderScene_maintains cosf sinf stack_material :
  maintains renderable (RenderScene cosf sinf stack_material).
Proof.
  unfold RenderScene. cbv zeta.
  render_steps
    (@maintains_bind) (@maintains_for_each)
    (renderable_SetTransformations cosf sinf)
    renderable_SetShaderColor renderable_SetShaderTexture
    renderable_SetShaderMaterial renderable_mesh_call
    renderable_get_lightPosition.
Qed.

(** C10. Whenever [RenderScene] returns, the texture registry (entry array
    and counter) and the material catalog are what they were, and so is
    everything else outside the shader's uniforms and the mesh library; the
    same holds for each of the four setters it calls; and [RenderScene]
    does return from every world with a shader attached and the texture
    counter within the array. *)
Theorem RenderScene_only_reads_registries :
  forall (cosf sinf : float -> float) (stack_material : nat -> OBJECT_MATERIAL),
    (forall (w w' : World),
        RenderScene cosf sinf stack_material w = Some (tt, w') ->
        m_textureIDs (this w') = m_textureIDs (this w) /\
        m_loadedTextures (this w') = m_loadedTextures (this w) /\
        m_objectMaterials (this w') = m_objectMaterials (this w) /\
        outside_shader_and_meshes w' = outside_shader_and_meshes w) /\
    (forall scaleXYZ rx ry rz positionXYZ,
        preserves registries
          (SetTransformations cosf sinf scaleXYZ rx ry rz positionXYZ)) /\
    (forall material materialTag,
        preserves registries (SetShaderMaterial material materialTag)) /\
    (forall textureTag, preserves registries (SetShaderTexture textureTag)) /\
    (forall r g b a, preserves registries (SetShaderColor r g b a)) /\
    (forall (w : World),
        renderable w ->
        exists w', RenderScene cosf sinf stack_material w = Some (tt, w')).
Proof.
  intros cosf sinf stack_material.
  split; [|split; [|split; [|split; [|split]]]].
  - intros w w' Hrun.
    pose proof (RenderScene_preserves cosf sinf stack_material w tt w' Hrun)
      as Hsame.
    split; [|split; [|split]]; [| | |exact Hsame];
      unfold outside_shader_and_meshes, registries in Hsame; congruence.
  - intros. apply preserves_SetTransformations. reflexivity.
  - intros. apply preserves_SetShaderMaterial. reflexivity.
  - intros. apply preserves_SetShaderTexture. reflexivity.
  - intros. apply preserves_SetShaderColor. reflexivity.
  - intros w Hw.
    destruct (RenderScene_maintains cosf sinf stack_material w Hw)
      as ([] & w' & Hrun & _).
    exists w'. exact Hrun.
Qed.

Lemma RenderScene_only_reads_registries_witness :
  exists w',
    RenderScene cos_series sin_series (fun _ => stale_material) prepared_world
      = Some (tt, w') /\
    m_textureIDs (this w') = m_textureIDs (this prepared_world) /\
    m_loadedTextures (this w') = m_loadedTextures (this prepared_world) /\
    m_objectMaterials (this w') = m_objectMaterials (this prepared_world) /\
    outside_shader_and_meshes w' = outside_shader_and_meshes prepared_world.
Proof.
  destruct (RenderScene_only_reads_registries cos_series sin_series
              (fun _ => stale_material))
    as (Hsame & _ & _ & _ & _ & Hruns).
  destruct (Hruns prepared_world) as [w' Hrun].
  - split; [vm_compute; eauto|vm_compute; discriminate].
  - exists w'. split; [exact Hrun|]. apply Hsame. exact Hrun.
Defined.

(** ** Scene preparation *)

Section Preparation.
Variable stbi_load : bool -> string -> option Image.

Lemma register_all_then {B : Type} (c : M B) :
  forall (pairs : list (string * string)) (w : World),
    (register_all stbi_load pairs ≫= fun _ => c) w
    = register_then stbi_load pairs c w.
Proof.
  induction pairs as [|[filename tag0] pairs IH]; intros w; [reflexivity|].
  cbn [register_all register_then]. rewrite !run_bind.
  destruct (CreateGLTexture stbi_load filename tag0 w) as [[b w1]|];
    [|reflexivity].
  rewrite <- IH. rewrite !run_bind.
  destruct (register_all stbi_load pairs w1) as [[bs w2]|]; reflexivity.
Qed.

Lemma LoadSceneTextures_phases (w : World) :
  LoadSceneTextures stbi_load w
  = (register_all stbi_load scene_texture_files ≫= fun _ => BindGLTextures) w.
Proof. rewrite register_all_then. reflexivity. Qed.

Lemma mesh_call_run (c : MeshCall) (w : World) :
  mesh_call c w
  = Some (tt,
          {| this :=
               with_meshes
                 {| mesh_calls := mesh_calls (m_basicMeshes (this w)) ++ [c] |}
                 (this w);
             gl := gl w;
             stbi_flip_vertically_on_load := stbi_flip_vertically_on_load w;
             cout := cout w |}).
Proof. reflexivity. Qed.

Lemma for_each_mesh_call {A : Type} (f : A -> MeshCall) :
  forall (l : list A) (w : World),
    for_each l (fun k => mesh_call (f k)) w
    = Some (tt,
            {| this :=
                 with_meshes
                   {| mesh_calls := mesh_calls (m_basicMeshes (this w))
                                      ++ (f <$> l) |}
                   (this w);
               gl := gl w;
               stbi_flip_vertically_on_load := stbi_flip_vertically_on_load w;
               cout := cout w |}).
Proof.
  induction l as [|k l IH]; intros w.
  - destruct w as [[lp sh [calls] n ids ms] g flip out]. cbn.
    rewrite app_nil_r. reflexivity.
  - cbn [for_each]. rewrite (run_bind_Some _ _ _ _ _ (mesh_call_run _ _)).
    rewrite IH. cbn. rewrite <- app_assoc. reflexivity.
Qed.

Lemma bind_ext {A B : Type} (c : M A) (f g : A -> M B) (w : World) :
  (forall a w', f a w' = g a w') -> (c ≫= f) w = (c ≫= g) w.
Proof.
  intros Hfg. rewrite !run_bind.
  destruct (c w) as [[a w']|]; [apply Hfg|reflexivity].
Qed.

Lemma bind_ret_unit (c : M unit) (w : World) : (c;; mret tt) w = c w.
Proof. rewrite run_bind. destruct (c w) as [[[] w']|]; reflexivity. Qed.

Lemma PrepareScene_phases (w : World) :
  PrepareScene stbi_load w = prepare_phases stbi_load w.
Proof.
  unfold PrepareScene, prepare_phases. rewrite !run_bind.
  destruct (SetupSceneLights w) as [[[] w1]|]; [|reflexivity].
  rewrite !run_bind.
  destruct (DefineObjectMaterials w1) as [[[] w2]|]; [|reflexivity].
  rewrite (run_bind (LoadSceneTextures stbi_load)).
  rewrite (run_bind (register_all stbi_load scene_texture_files ≫= _)).
  rewrite LoadSceneTextures_phases.
  destruct ((register_all stbi_load scene_texture_files
               ≫= fun _ => BindGLTextures) w2) as [[[] w3]|];
    [|reflexivity].
  cbn [for_each scene_mesh_kinds].
  do 8 (apply bind_ext; intros ? ?).
  symmetry. apply bind_ret_unit.
Qed.

(** Every call reports its file once and touches the object only in the
    texture entries. *)
Lemma CreateGLTexture_inv filename tag0 w b w' :
  CreateGLTexture stbi_load filename tag0 w = Some (b, w') ->
  attempted_files (cout w') = attempted_files (cout w) ++ [filename] /\
  outside_textures w' = outside_textures w.
Proof.
  intros Hrun. unfold attempted_files.
  destruct (stbi_load true filename) as [image|] eqn:Hload.
  - destruct (decide (colorChannels image = 3 \/ colorChannels image = 4))
      as [Hch|Hch].
    + destruct (decide (0 <= m_loadedTextures (this w) < 16)) as [Hcap|Hcap].
      * destruct (CreateGLTexture_registers stbi_load filename tag0 w image
                    Hload Hch Hcap) as [g Hg].
        rewrite Hg in Hrun. injection Hrun as <- <-. cbn [cout].
        rewrite omap_app. split; reflexivity.
      * rewrite (CreateGLTexture_overflow stbi_load filename tag0 w image
                   Hload Hch Hcap) in Hrun. discriminate.
    + destruct (CreateGLTexture_unsupported stbi_load filename tag0 w image
                  Hload) as [g Hg]; [tauto|tauto|].
      rewrite Hg in Hrun. injection Hrun as <- <-. cbn [cout].
      rewrite omap_app. split; reflexivity.
  - rewrite (CreateGLTexture_unreadable stbi_load filename tag0 w Hload) in Hrun.
    injection Hrun as <- <-. cbn [cout].
    rewrite omap_app. split; reflexivity.
Qed.

Lemma register_all_inv :
  forall (pairs : list (string * string)) (w w' : World) (bs : list bool),
    register_all stbi_load pairs w = Some (bs, w') ->
    attempted_files (cout w') = attempted_files (cout w) ++ pairs.*1 /\
    outside_textures w' = outside_textures w.
Proof.
  induction pairs as [|[filename tag0] pairs IH]; intros w w' bs Hrun.
  - injection Hrun as <- <-. rewrite app_nil_r. split; reflexivity.
  - cbn [register_all] in Hrun.
    apply bind_inv in Hrun as (b & w1 & Hfirst & Hrun).
    apply bind_inv in Hrun as (bs' & w2 & Hrest & Hret).
    injection Hret as <- <-.
    apply CreateGLTexture_inv in Hfirst as [Hfile Hout].
    apply IH in Hrest as [Hfiles Houts].
    split; [|congruence].
    rewrite Hfiles, Hfile, <- app_assoc. reflexivity.
Qed.

Lemma BindGLTextures_inv (w w' : World) :
  BindGLTextures w = Some (tt, w') ->
  exists g, w' = world_with_gl g w.
Proof.
  intros Hrun.
  destruct (decide (m_loadedTextures (this w) <= 16)) as [Hcap|Hcap].
  - rewrite (BindGLTextures_run w Hcap) in Hrun. injection Hrun as <-.
    eexists. reflexivity.
  - rewrite BindGLTextures_overflow in Hrun by lia. discriminate.
Qed.

Lemma SetupSceneLights_preserves : preserves outside_lights SetupSceneLights.
Proof.
  unfold SetupSceneLights.
  repeat first
    [ apply preserves_shader_call; intros; reflexivity
    | apply preserves_set_lightPosition; intros; reflexivity
    | apply preserves_get_lightPosition
    | apply preserves_bind; [|intros ?] ].
Qed.

(** Scene preparation returns whatever the disk holds, as long as a
    shader is attached and the texture array has room. *)
Lemma preparable_shader_call room (f : ShaderManager -> ShaderManager) :
  maintains (preparable room) (shader_call f).
Proof.
  intros w ([sh Hsh] & Hpos & Hroom).
  exists tt, (world_with_shader (f sh) w).
  split; [apply shader_call_attached; exact Hsh|].
  split; [cbn; eauto|split; [exact Hpos|exact Hroom]].
Qed.

Lemma preparable_set_lightPosition room (i : fin 4) (p : glm.vec3) :
  maintains (preparable room) (set_lightPosition i p).
Proof. intros w Hw. eexists _, _. split; [reflexivity|exact Hw]. Qed.

Lemma preparable_get_lightPosition room (i : fin 4) :
  maintains (preparable room) (get_lightPosition i).
Proof. intros w Hw. eexists _, _. split; [reflexivity|exact Hw]. Qed.

Lemma SetupSceneLights_maintains room :
  maintains (preparable room) SetupSceneLights.
Proof.
  unfold SetupSceneLights.
  repeat first
    [ apply preparable_shader_call
    | apply preparable_set_lightPosition
    | apply preparable_get_lightPosition
    | apply maintains_bind; [|intros ?] ].
Qed.

Lemma CreateGLTexture_returns filename tag0 w :
  0 <= m_loadedTextures (this w) < 16 ->
  exists b w',
    CreateGLTexture stbi_load filename tag0 w = Some (b, w') /\
    m_loadedTextures (this w) <= m_loadedTextures (this w')
      <= m_loadedTextures (this w) + 1.
Proof.
  intros Hroom.
  destruct (stbi_load true filename) as [image|] eqn:Hload.
  - destruct (decide (colorChannels image = 3 \/ colorChannels image = 4))
      as [Hch|Hch].
    + destruct (CreateGLTexture_registers stbi_load filename tag0 w image
                  Hload Hch Hroom) as [g Hg].
      eexists _, _. split; [exact Hg|]. cbn. lia.
    + destruct (CreateGLTexture_unsupported stbi_load filename tag0 w image
                  Hload) as [g Hg]; [tauto|tauto|].
      eexists _, _. split; [exact Hg|]. cbn. lia.
  - eexists _, _.
    split; [apply CreateGLTexture_unreadable; exact Hload|]. cbn. lia.
Qed.

Lemma register_all_returns :
  forall (pairs : list (string * string)) (w : World),
    0 <= m_loadedTextures (this w) ->
    m_loadedTextures (this w) + Z.of_nat (length pairs) <= 16 ->
    exists bs w',
      register_all stbi_load pairs w = Some (bs, w') /\
      m_loadedTextures (this w') <= 16.
Proof.
  induction pairs as [|[filename tag0] pairs IH]; intros w Hpos Hroom.
  - exists [], w. split; [reflexivity|]. cbn in Hroom. lia.
  - cbn [length] in Hroom.
    destruct (CreateGLTexture_returns filename tag0 w) as (b & w1 & H1 & Hn);
      [lia|].
    destruct (IH w1) as (bs & w2 & H2 & Hcap); [lia|lia|].
    exists (b :: bs), w2. split; [|exact Hcap].
    cbn [register_all]. rewrite (run_bind_Some _ _ _ _ _ H1).
    rewrite (run_bind_Some _ _ _ _ _ H2). reflexivity.
Qed.

Lemma prepare_phases_returns (w : World) :
  preparable (Z.of_nat (length scene_texture_files)) w ->
  exists w', prepare_phases stbi_load w = Some (tt, w').
Proof.
  intros Hw. unfold prepare_phases.
  destruct (SetupSceneLights_maintains _ w Hw)
    as ([] & w1 & H1 & (_ & Hpos & Hroom)).
  rewrite (run_bind_Some _ _ _ _ _ H1).
  rewrite (run_bind_Some _ _ _ _ _ (DefineObjectMaterials_run w1)).
  destruct (register_all_returns scene_texture_files
              (world_with_materials
                 (m_objectMaterials (this w1) ++ specified_catalog) w1))
    as (bs & w3 & H3 & Hcap); [exact Hpos|exact Hroom|].
  rewrite (run_bind_Some _ _ _ tt
             (world_with_gl (bind_from (registered (this w3)) 0 (gl w3)) w3)).
  - rewrite for_each_mesh_call. eexists. reflexivity.
  - rewrite (run_bind_Some _ _ _ _ _ H3).
    apply BindGLTextures_run. exact Hcap.
Qed.

Lemma prepare_phases_inv (w w' : World) :
  prepare_phases stbi_load w = Some (tt, w') ->
  attempted_files (cout w')
    = attempted_files (cout w) ++ scene_texture_files.*1 /\
  mesh_calls (m_basicMeshes (this w'))
    = mesh_calls (m_basicMeshes (this w)) ++ (LoadMesh <$> scene_mesh_kinds) /\
  m_objectMaterials (this w')
    = m_objectMaterials (this w) ++ specified_catalog.
Proof.
  unfold prepare_phases. intros Hrun.
  apply bind_inv in Hrun as ([] & w1 & Hlights & Hrun).
  apply bind_inv in Hrun as ([] & w2 & Hmaterials & Hrun).
  apply bind_inv in Hrun as ([] & w4 & Htextures & Hmeshes).
  apply bind_inv in Htextures as (bs & w3 & Hregister & Hbind).
  apply SetupSceneLights_preserves in Hlights.
  rewrite DefineObjectMaterials_run in Hmaterials.
  injection Hmaterials as <-.
  apply register_all_inv in Hregister as [Hfiles Houtside].
  apply BindGLTextures_inv in Hbind as [g ->].
  rewrite for_each_mesh_call in Hmeshes. injection Hmeshes as <-.
  unfold outside_lights in Hlights. unfold outside_textures in Houtside.
  cbn [cout this gl world_with_gl world_with_materials with_materials
       with_meshes m_basicMeshes mesh_calls m_objectMaterials]
    in Hfiles, Houtside, Hlights |- *.
  injection Hlights as Hmesh1 Hmat1 Hout1.
  injection Houtside as Hmesh3 Hmat3.
  split; [|split].
  - rewrite Hfiles, Hout1. reflexivity.
  - rewrite Hmesh3, Hmesh1. reflexivity.
  - rewrite Hmat3, Hmat1. reflexivity.
Qed.
End Preparation.




(** * Further properties *)

(** ** Lookup in the texture registry *)

Lemma FindTextureID_run (tag0 : string) (w : World) :
  m_loadedTextures (this w) <= 16 ->
  FindTextureID tag0 w
  = Some (int_of_uint32 (fst (first_match tag0 (registered (this w)) 0)), w).
Proof.
  intros Hle. unfold FindTextureID. rewrite run_bind. cbn [get_this].
  rewrite (find_texture_registered _ _ Hle).
  destruct (first_match _ _ _) as [textureID textureSlot]. reflexivity.
Qed.

Lemma int_of_uint32_low (u : Z) :
  0 <= u < 2 ^ 31 -> int_of_uint32 u = u.
Proof.
  intros Hu. unfold int_of_uint32. rewrite Z.mod_small; lia.
Qed.

Lemma int_of_uint32_high (u : Z) :
  2 ^ 31 <= u < 2 ^ 32 -> int_of_uint32 u = u - 2 ^ 32.
Proof.
  intros Hu. unfold int_of_uint32.
  rewrite <- (Z.mod_unique (u + 2 ^ 31) (2 ^ 32) 1 (u - 2 ^ 31)); lia.
Qed.

(** X1. Within capacity both lookups return, and they agree on the entry:
    either no registered entry carries the tag and both give -1, or the
    slot is the least index whose entry carries the tag and the ID is the
    handle stored at that index, converted from [uint32_t] to [int]: the
    handle itself when it is below 2^31, and the handle less 2^32, a
    negative number, from 2^31 on (so the handle 0xFFFFFFFF reads as -1,
    the value for a tag that is not registered). *)
Theorem texture_lookup_first_match :
  forall (tag0 : string) (w : World),
    m_loadedTextures (this w) <= 16 ->
    exists (slot id : Z),
      FindTextureSlot tag0 w = Some (slot, w) /\
      FindTextureID tag0 w = Some (id, w) /\
      (((tag0 ∉ registered_tags (this w)) /\ slot = -1 /\ id = -1) \/
       (exists (i : nat) (info : TEXTURE_INFO),
           slot = Z.of_nat i /\
           registered (this w) !! i = Some info /\ tex_tag info = tag0 /\
           (forall (j : nat) (info' : TEXTURE_INFO),
               (j < i)%nat -> registered (this w) !! j = Some info' ->
               tex_tag info' <> tag0) /\
           (0 <= ID info < 2 ^ 31 -> id = ID info) /\
           (2 ^ 31 <= ID info < 2 ^ 32 -> id = ID info - 2 ^ 32) /\
           (ID info = 2 ^ 32 - 1 -> id = -1))).
Proof.
  intros tag0 w Hcap.
  exists (snd (first_match tag0 (registered (this w)) 0)),
         (int_of_uint32 (fst (first_match tag0 (registered (this w)) 0))).
  split; [apply FindTextureSlot_run; exact Hcap|].
  split; [apply FindTextureID_run; exact Hcap|].
  unfold first_match.
  destruct (list_find _ (registered (this w))) as [[i info]|] eqn:Hfind.
  - right. apply list_find_Some in Hfind as (Hi & Htag & Hfirst).
    exists i, info. cbn [fst snd].
    split; [reflexivity|]. split; [exact Hi|]. split; [exact Htag|].
    split; [intros j info' Hlt Hj; exact (Hfirst j info' Hj Hlt)|].
    split; [apply int_of_uint32_low|].
    split; [apply int_of_uint32_high|].
    intros ->. reflexivity.
  - left. apply list_find_None in Hfind. split; [|split; reflexivity].
    unfold registered_tags. intros Hin.
    apply list_elem_of_fmap in Hin as (info & Htag & Hin).
    rewrite Forall_forall in Hfind. apply (Hfind info Hin). congruence.
Qed.

Lemma texture_lookup_first_match_witness :
  FindTextureSlot "b" two_texture_world = Some (1, two_texture_world) /\
  FindTextureID "b" two_texture_world = Some (2, two_texture_world).
Proof.
  assert (Hcap : m_loadedTextures (this two_texture_world) <= 16)
    by (cbn; lia).
  destruct (texture_lookup_first_match "b" two_texture_world Hcap)
    as (slot & id & Hslot & Hid & [(Habsent & _)|Hfound]).
  - exfalso. apply Habsent. cbn.
    apply list_elem_of_further, list_elem_of_here.
  - destruct Hfound as (i & info & -> & Hi & Htag & Hfirst & Hlow & _).
    destruct i as [|[|i]]; cbn in Hi.
    + injection Hi as <-. discriminate Htag.
    + injection Hi as <-. rewrite Hslot, Hid, Hlow by (cbn; lia).
      split; reflexivity.
    + exfalso. destruct i; discriminate Hi.
Defined.

(** ** Registration is append-only *)

Lemma first_match_app (tag0 : string) (l extra : list TEXTURE_INFO) :
  tag0 ∈ tex_tag <$> l ->
  first_match tag0 (l ++ extra) 0 = first_match tag0 l 0.
Proof.
  intros Hin. unfold first_match.
  destruct (list_find (fun info => tex_tag info = tag0) l) as [[i info]|] eqn:Hfind.
  - rewrite (list_find_app_l _ _ _ _ _ Hfind). reflexivity.
  - exfalso. apply list_find_None in Hfind.
    apply list_elem_of_fmap in Hin as (info & Htag & Hin).
    rewrite Forall_forall in Hfind. apply (Hfind info Hin). congruence.
Qed.

Lemma with_textures_same (s : SceneManager) :
  with_textures (m_loadedTextures s) (m_textureIDs s) s = s.
Proof. destruct s. reflexivity. Qed.

Section AppendOnly.
Variable stbi_load : bool -> string -> option Image.

(** Whatever a call returns, the registered entries afterwards are those
  before, followed by at most the new one. *)
Lemma CreateGLTexture_appends filename tag0 w b w' :
CreateGLTexture stbi_load filename tag0 w = Some (b, w') ->
m_pShaderManager (this w') = m_pShaderManager (this w) /\
m_loadedTextures (this w) <= m_loadedTextures (this w') /\
(m_loadedTextures (this w) <= 16 -> m_loadedTextures (this w') <= 16) /\
exists extra,
  registered (this w') = registered (this w) ++ extra /\
  (tex_tag <$> extra) = (if b then [tag0] else []).
Proof.
intros Hrun.
destruct (stbi_load true filename) as [image|] eqn:Hload.
- destruct (decide (colorChannels image = 3 \/ colorChannels image = 4))
    as [Hch|Hch].
  + destruct (decide (0 <= m_loadedTextures (this w) < 16)) as [Hcap|Hcap].
    * destruct (CreateGLTexture_registers stbi_load filename tag0 w image
                  Hload Hch Hcap) as [g Hg].
      rewrite Hg in Hrun. injection Hrun as <- <-. cbn [this].
      split; [reflexivity|]. split; [cbn; lia|]. split; [cbn; lia|].
      eexists. split; [apply registered_with_textures; exact Hcap|].
      reflexivity.
    * rewrite (CreateGLTexture_overflow stbi_load filename tag0 w image
                 Hload Hch Hcap) in Hrun. discriminate.
  + destruct (CreateGLTexture_unsupported stbi_load filename tag0 w image
                Hload) as [g Hg]; [tauto|tauto|].
    rewrite Hg in Hrun. injection Hrun as <- <-. cbn [this].
    split; [reflexivity|]. split; [lia|]. split; [tauto|].
    exists []. rewrite app_nil_r. split; reflexivity.
- rewrite (CreateGLTexture_unreadable stbi_load filename tag0 w Hload) in Hrun.
  injection Hrun as <- <-. cbn [this].
  split; [reflexivity|]. split; [lia|]. split; [tauto|].
  exists []. rewrite app_nil_r. split; reflexivity.
Qed.
End AppendOnly.

(** X2. Registration never disturbs what is registered: whatever a call of
    [CreateGLTexture] returns, every tag that was registered before keeps
    its slot and its handle, also when the new entry carries the same tag
    (the later entry is never found). *)
Theorem registration_keeps_earlier_lookups :
  forall (stbi_load : bool -> string -> option Image)
         (filename tag0 earlier : string) (w w' : World) (b : bool),
    m_loadedTextures (this w) <= 16 ->
    earlier ∈ registered_tags (this w) ->
    CreateGLTexture stbi_load filename tag0 w = Some (b, w') ->
    exists (slot id : Z),
      0 <= slot < m_loadedTextures (this w) /\
      FindTextureSlot earlier w = Some (slot, w) /\
      FindTextureSlot earlier w' = Some (slot, w') /\
      FindTextureID earlier w = Some (id, w) /\
      FindTextureID earlier w' = Some (id, w').
Proof.
  intros stbi_load filename tag0 earlier w w' b Hcap Hin Hrun.
  destruct (CreateGLTexture_appends stbi_load filename tag0 w b w' Hrun)
    as (_ & _ & Hcap' & extra & Hreg & _).
  specialize (Hcap' Hcap).
  exists (snd (first_match earlier (registered (this w)) 0)),
         (int_of_uint32 (fst (first_match earlier (registered (this w)) 0))).
  split; [|split; [|split; [|split]]].
  - unfold first_match.
    destruct (list_find _ (registered (this w))) as [[i info]|] eqn:Hfind.
    + apply list_find_Some in Hfind as (Hi & _ & _).
      apply lookup_lt_Some in Hi. unfold registered in Hi.
      rewrite length_take, length_vec_to_list in Hi. cbn. lia.
    + exfalso. apply list_find_None in Hfind.
      apply list_elem_of_fmap in Hin as (info & Htag & Hin).
      rewrite Forall_forall in Hfind. apply (Hfind info Hin). congruence.
  - apply FindTextureSlot_run. exact Hcap.
  - rewrite FindTextureSlot_run by exact Hcap'.
    rewrite Hreg, (first_match_app _ _ _ Hin). reflexivity.
  - apply FindTextureID_run. exact Hcap.
  - rewrite FindTextureID_run by exact Hcap'.
    rewrite Hreg, (first_match_app _ _ _ Hin). reflexivity.
Qed.

Lemma registration_keeps_earlier_lookups_witness :
  exists (w' : World),
    CreateGLTexture two_files "fileB.png" "a" two_texture_world
      = Some (true, w') /\
    exists (slot id : Z),
      0 <= slot < m_loadedTextures (this two_texture_world) /\
      FindTextureSlot "a" two_texture_world = Some (slot, two_texture_world) /\
      FindTextureSlot "a" w' = Some (slot, w') /\
      FindTextureID "a" two_texture_world = Some (id, two_texture_world) /\
      FindTextureID "a" w' = Some (id, w').
Proof.
  destruct (CreateGLTexture_registers two_files "fileB.png" "a"
              two_texture_world rgba_image eq_refl)
    as [g Hrun]; [right; reflexivity|cbn; lia|].
  eexists. split; [exact Hrun|].
  apply (registration_keeps_earlier_lookups two_files "fileB.png" "a" "a"
           two_texture_world _ true); [cbn; lia| |exact Hrun].
  cbn. apply list_elem_of_here.
Defined.

(** ** The capacity of the texture array *)

Lemma register_all_overflows (stbi_load : bool -> string -> option Image) :
  forall (pairs : list (string * string)) (w : World),
    0 <= m_loadedTextures (this w) <= 16 ->
    Forall (decodable stbi_load) pairs.*1 ->
    16 < m_loadedTextures (this w) + Z.of_nat (length pairs) ->
    register_all stbi_load pairs w = None.
Proof.
  induction pairs as [|[filename tag0] pairs IH]; intros w Hcap Hdec Hover.
  - cbn in Hover. lia.
  - cbn in Hdec. apply Forall_cons in Hdec as [(image & Hload & Hch) Hdec].
    cbn [register_all]. rewrite run_bind.
    destruct (decide (m_loadedTextures (this w) < 16)) as [Hroom|Hfull].
    + destruct (CreateGLTexture_registers stbi_load filename tag0 w image
                  Hload Hch) as [g Hg]; [lia|].
      rewrite Hg. rewrite run_bind. rewrite IH; [reflexivity| |exact Hdec|].
      * cbn. lia.
      * cbn [this m_loadedTextures with_textures length] in *. lia.
    + rewrite (CreateGLTexture_overflow stbi_load filename tag0 w image
                 Hload Hch); [reflexivity|lia].
Qed.

(** X3. The array has 16 entries and nothing checks it: a sequence of
    decodable files that does not fit into what is left of the array runs
    into undefined behaviour, the write past the end. *)
Theorem registration_beyond_capacity_is_undefined :
  forall (stbi_load : bool -> string -> option Image)
         (pairs : list (string * string)) (w : World),
    0 <= m_loadedTextures (this w) <= 16 ->
    Forall (decodable stbi_load) pairs.*1 ->
    16 < m_loadedTextures (this w) + Z.of_nat (length pairs) ->
    register_all stbi_load pairs w = None.
Proof. exact register_all_overflows. Qed.

Lemma registration_beyond_capacity_is_undefined_witness :
  register_all every_file_rgb
    (replicate 17 ("texture.jpg", "t")) (fresh_world None) = None.
Proof.
  apply (registration_beyond_capacity_is_undefined every_file_rgb
           (replicate 17 ("texture.jpg", "t")) (fresh_world None)).
  - cbn. lia.
  - cbn. repeat constructor; exists rgb_image; (split; [reflexivity|left; reflexivity]).
  - cbn. lia.
Defined.

(** ** Selecting a texture *)

Lemma SetShaderTexture_run (textureTag : string) (w : World) (sh : ShaderManager) :
  m_pShaderManager (this w) = Some sh ->
  m_loadedTextures (this w) <= 16 ->
  SetShaderTexture textureTag w
  = Some (tt,
          world_with_shader
            (setSampler2DValue g_TextureValueName
               (snd (first_match textureTag (registered (this w)) 0))
               (setIntValue g_UseTextureName (int_of_bool true) sh)) w).
Proof.
  intros Hsh Hcap.
  unfold SetShaderTexture. rewrite (if_shader_attached _ _ _ Hsh).
  rewrite (run_bind_Some _ _ _ _ _ (shader_call_attached _ _ _ Hsh)).
  rewrite (run_bind_Some _ _ _ (snd (first_match textureTag (registered (this w)) 0))
             (world_with_shader (setIntValue g_UseTextureName (int_of_bool true) sh) w)).
  - rewrite (shader_call_attached _ _ _ (shader_of_world_with_shader _ _)).
    reflexivity.
  - rewrite FindTextureSlot_run by exact Hcap. reflexivity.
Qed.

(** X4. Register, then select: after a call of [CreateGLTexture] that
    returns [true] for a tag not registered before, [SetShaderTexture] on
    that tag sets [bUseTexture] to 1 and the sampler uniform to the slot of
    the new entry, which is the value the counter had before the call. *)
Theorem registered_texture_is_selected_by_its_slot :
  forall (stbi_load : bool -> string -> option Image)
         (filename tag0 : string) (w w' : World) (sh : ShaderManager),
    m_pShaderManager (this w) = Some sh ->
    tag0 ∉ registered_tags (this w) ->
    CreateGLTexture stbi_load filename tag0 w = Some (true, w') ->
    exists sh',
      SetShaderTexture tag0 w' = Some (tt, world_with_shader sh' w') /\
      uniforms sh' !! g_UseTextureName = Some (UInt 1) /\
      uniforms sh' !! g_TextureValueName
        = Some (USampler2D (m_loadedTextures (this w))) /\
      0 <= m_loadedTextures (this w) < 16.
Proof.
  intros stbi_load filename tag0 w w' sh Hsh Hfresh Hrun.
  destruct (CreateGLTexture_true_inv stbi_load filename tag0 w w' Hrun)
    as (Hroom & _ & Hthis).
  assert (Hsh' : m_pShaderManager (this w') = Some sh).
  { rewrite Hthis. exact Hsh. }
  assert (Hcap' : m_loadedTextures (this w') <= 16).
  { rewrite Hthis. cbn. lia. }
  eexists. split; [apply (SetShaderTexture_run _ _ _ Hsh' Hcap')|].
  split; [|split; [|exact Hroom]].
  - cbn. rewrite lookup_insert_ne by discriminate. apply lookup_insert_eq.
  - cbn. rewrite lookup_insert_eq. do 2 f_equal.
    rewrite Hthis, (registered_with_textures _ _ Hroom).
    unfold first_match.
    destruct (list_find _ _) as [[i info]|] eqn:Hfind.
    + apply list_find_Some in Hfind as (Hi & Htag & _).
      apply lookup_app_Some in Hi as [Hi|[Hlen Hi]].
      * exfalso. apply Hfresh. unfold registered_tags.
        apply list_elem_of_fmap. exists info. split; [congruence|].
        apply list_elem_of_lookup. eauto.
      * assert (i = length (registered (this w))) as ->.
        { apply lookup_lt_Some in Hi. cbn in Hi. lia. }
        cbn. unfold registered.
        rewrite length_take, length_vec_to_list. lia.
    + exfalso. apply list_find_None in Hfind.
      apply Forall_app in Hfind as [_ Hnew].
      apply Forall_cons in Hnew as [Hnew _]. apply Hnew. reflexivity.
Qed.

Lemma registered_texture_is_selected_by_its_slot_witness :
  exists (w' : World),
    CreateGLTexture two_files "fileA.png" "c" two_texture_world
      = Some (true, w') /\
    exists sh',
      SetShaderTexture "c" w' = Some (tt, world_with_shader sh' w') /\
      uniforms sh' !! g_UseTextureName = Some (UInt 1) /\
      uniforms sh' !! g_TextureValueName
        = Some (USampler2D (m_loadedTextures (this two_texture_world))) /\
      0 <= m_loadedTextures (this two_texture_world) < 16.
Proof.
  destruct (CreateGLTexture_registers two_files "fileA.png" "c"
              two_texture_world rgb_image eq_refl)
    as [g Hrun]; [left; reflexivity|cbn; lia|].
  eexists. split; [exact Hrun|].
  apply (registered_texture_is_selected_by_its_slot two_files "fileA.png" "c"
           two_texture_world _ empty_shader); [reflexivity| |exact Hrun].
  cbn. intros Hin.
  repeat (apply elem_of_cons in Hin as [Heq|Hin]; [discriminate|]).
  inversion Hin.
Defined.

(** ** Selecting a material *)

(** The loop stops at the first material with the tag and copies its five
    value fields. *)
Lemma FindMaterial_loop_first (before after : list OBJECT_MATERIAL)
    (m material : OBJECT_MATERIAL) :
  tag m ∉ tag <$> before ->
  FindMaterial_loop (before ++ m :: after) (tag m) material
  = {| ambientStrength := ambientStrength m; ambientColor := ambientColor m;
       diffuseColor := diffuseColor m; specularColor := specularColor m;
       shininess := shininess m; tag := tag material |}.
Proof.
  induction before as [|m0 before IH]; intros Hnot.
  - cbn. rewrite String.eqb_refl. reflexivity.
  - cbn in Hnot. apply not_elem_of_cons in Hnot as [Hne Hnot].
    cbn [app FindMaterial_loop].
    destruct (String.eqb_spec (tag m0) (tag m)) as [Heq|_]; [congruence|].
    apply IH. exact Hnot.
Qed.

(** X5. With a shader attached, [SetShaderMaterial] on a tag of the
    catalog returns and writes the five values of the first material that
    carries the tag (a later material with the same tag is never used),
    whatever its uninitialised local held; no other uniform changes. *)
Theorem SetShaderMaterial_writes_first_definition :
  forall (material m : OBJECT_MATERIAL) (before after : list OBJECT_MATERIAL)
         (w : World) (sh : ShaderManager),
    m_pShaderManager (this w) = Some sh ->
    m_objectMaterials (this w) = before ++ m :: after ->
    tag m ∉ tag <$> before ->
    exists sh',
      SetShaderMaterial material (tag m) w = Some (tt, world_with_shader sh' w) /\
      uniforms sh' !! "material.ambientColor" = Some (UVec3 (ambientColor m)) /\
      uniforms sh' !! "material.ambientStrength" = Some (UFloat (ambientStrength m)) /\
      uniforms sh' !! "material.diffuseColor" = Some (UVec3 (diffuseColor m)) /\
      uniforms sh' !! "material.specularColor" = Some (UVec3 (specularColor m)) /\
      uniforms sh' !! "material.shininess" = Some (UFloat (shininess m)) /\
      (forall name, name ∉ material_uniform_names ->
         uniforms sh' !! name = uniforms sh !! name).
Proof.
  intros material m before after w sh Hsh Hcatalog Hfirst.
  exists (material_uniforms m sh). split.
  - rewrite (SetShaderMaterial_run _ _ _ _ Hsh), Hcatalog.
    destruct (before ++ m :: after) as [|m0 rest] eqn:Hlist.
    + destruct before; discriminate.
    + rewrite <- Hlist, (FindMaterial_loop_first _ _ _ _ Hfirst). reflexivity.
  - unfold material_uniforms. cbn.
    repeat split;
      try (repeat (rewrite lookup_insert_ne by discriminate);
           apply lookup_insert_eq).
    intros name Hname. unfold material_uniform_names in Hname.
    repeat (apply not_elem_of_cons in Hname as [? Hname]).
    repeat (rewrite lookup_insert_ne by congruence). reflexivity.
Qed.

Lemma SetShaderMaterial_writes_first_definition_witness :
  exists sh',
    SetShaderMaterial stale_material "dull"
      (world_with_materials (specified_catalog ++ specified_catalog)
         (fresh_world (Some empty_shader)))
      = Some (tt, world_with_shader sh'
                    (world_with_materials (specified_catalog ++ specified_catalog)
                       (fresh_world (Some empty_shader)))) /\
    uniforms sh' !! "material.ambientColor"
      = Some (UVec3 (glm.Vec3 0.3 0.3 0.3)) /\
    uniforms sh' !! "material.ambientStrength" = Some (UFloat 0.6) /\
    uniforms sh' !! "material.diffuseColor"
      = Some (UVec3 (glm.Vec3 0.8 0.7 0.2)) /\
    uniforms sh' !! "material.specularColor"
      = Some (UVec3 (glm.Vec3 0.5 0.5 0.5)) /\
    uniforms sh' !! "material.shininess" = Some (UFloat 1) /\
    (forall name, name ∉ material_uniform_names ->
       uniforms sh' !! name = uniforms empty_shader !! name).
Proof.
  apply (SetShaderMaterial_writes_first_definition stale_material
           (shared_material 0.6 1 "dull")
           [shared_material 0.7 50 "shiny"; shared_material 0.5 25 "shinyish";
            shared_material 0.5 16 "porcelaine"]
           (void_material :: specified_catalog)
           (world_with_materials (specified_catalog ++ specified_catalog)
              (fresh_world (Some empty_shader)))
           empty_shader).
  - reflexivity.
  - reflexivity.
  - cbn. intros Hin.
    repeat (apply elem_of_cons in Hin as [Heq|Hin]; [discriminate|]).
    inversion Hin.
Defined.

Lemma FindMaterial_loop_app (ms extra : list OBJECT_MATERIAL) (tag0 : string)
    (material : OBJECT_MATERIAL) :
  tag0 ∈ tag <$> ms ->
  FindMaterial_loop (ms ++ extra) tag0 material
  = FindMaterial_loop ms tag0 material.
Proof.
  induction ms as [|m ms IH]; intros Hin; [inversion Hin|].
  cbn [app FindMaterial_loop].
  destruct (String.eqb_spec (tag m) tag0) as [Heq|Hne]; [reflexivity|].
  apply IH. cbn in Hin. apply elem_of_cons in Hin as [Heq|Hin]; [congruence|].
  exact Hin.
Qed.

(** X6. Defining the materials again changes no selection: for a tag that
    is in the catalog already, [SetShaderMaterial] writes the same uniforms
    after [DefineObjectMaterials] as before it, since the appended
    materials come after the first match. *)
Theorem DefineObjectMaterials_keeps_earlier_selections :
  forall (material : OBJECT_MATERIAL) (tag0 : string) (w : World)
         (sh : ShaderManager),
    m_pShaderManager (this w) = Some sh ->
    tag0 ∈ tag <$> m_objectMaterials (this w) ->
    exists (w1 : World) (sh' : ShaderManager),
      DefineObjectMaterials w = Some (tt, w1) /\
      m_objectMaterials (this w1) = m_objectMaterials (this w) ++ specified_catalog /\
      SetShaderMaterial material tag0 w = Some (tt, world_with_shader sh' w) /\
      SetShaderMaterial material tag0 w1 = Some (tt, world_with_shader sh' w1).
Proof.
  intros material tag0 w sh Hsh Hin.
  exists (world_with_materials
            (m_objectMaterials (this w) ++ specified_catalog) w),
         (material_uniforms
            (FindMaterial_loop (m_objectMaterials (this w)) tag0 material) sh).
  split; [apply DefineObjectMaterials_run|].
  split; [reflexivity|].
  rewrite (SetShaderMaterial_run material tag0 w sh Hsh).
  rewrite (SetShaderMaterial_run material tag0 _ sh) by exact Hsh.
  cbn [this world_with_materials with_materials m_objectMaterials].
  rewrite (FindMaterial_loop_app _ _ _ _ Hin).
  destruct (m_objectMaterials (this w)) as [|m ms] eqn:Hms; [inversion Hin|].
  split; reflexivity.
Qed.

Lemma DefineObjectMaterials_keeps_earlier_selections_witness :
  exists (w1 : World) (sh' : ShaderManager),
    DefineObjectMaterials
      (world_with_materials specified_catalog (fresh_world (Some empty_shader)))
      = Some (tt, w1) /\
    m_objectMaterials (this w1) = specified_catalog ++ specified_catalog /\
    SetShaderMaterial stale_material "shiny"
      (world_with_materials specified_catalog (fresh_world (Some empty_shader)))
      = Some (tt, world_with_shader sh'
                    (world_with_materials specified_catalog
                       (fresh_world (Some empty_shader)))) /\
    SetShaderMaterial stale_material "shiny" w1
      = Some (tt, world_with_shader sh' w1).
Proof.
  apply (DefineObjectMaterials_keeps_earlier_selections stale_material "shiny"
           (world_with_materials specified_catalog
              (fresh_world (Some empty_shader)))
           empty_shader).
  - reflexivity.
  - cbn. apply list_elem_of_here.
Defined.

(** ** Texture mode and colour mode *)

Lemma SetShaderColor_run (r g b a : float) (w : World) (sh : ShaderManager) :
  m_pShaderManager (this w) = Some sh ->
  SetShaderColor r g b a w
  = Some (tt,
          world_with_shader
            (setVec4Value g_ColorValueName (glm.Vec4 r g b a)
               (setIntValue g_UseTextureName (int_of_bool false) sh)) w).
Proof.
  intros Hsh. unfold SetShaderColor. rewrite (if_shader_attached _ _ _ Hsh).
  rewrite (run_bind_Some _ _ _ _ _ (shader_call_attached _ _ _ Hsh)).
  rewrite (shader_call_attached _ _ _ (shader_of_world_with_shader _ _)).
  reflexivity.
Qed.

(** X7. The last of the two mode setters decides the mode, and the other
    one's value stays behind: a texture followed by a colour ends with
    [bUseTexture] 0 and the sampler still at the texture's slot; a colour
    followed by a texture ends with [bUseTexture] 1 and the colour still in
    [objectColor]. *)
Theorem last_mode_setter_wins :
  forall (textureTag : string) (r g b a : float) (w : World)
         (sh : ShaderManager) (slot : Z),
    m_pShaderManager (this w) = Some sh ->
    m_loadedTextures (this w) <= 16 ->
    FindTextureSlot textureTag w = Some (slot, w) ->
    (exists sh',
        (SetShaderTexture textureTag;; SetShaderColor r g b a) w
          = Some (tt, world_with_shader sh' w) /\
        uniforms sh' !! g_UseTextureName = Some (UInt 0) /\
        uniforms sh' !! g_TextureValueName = Some (USampler2D slot) /\
        uniforms sh' !! g_ColorValueName = Some (UVec4 (glm.Vec4 r g b a))) /\
    (exists sh',
        (SetShaderColor r g b a;; SetShaderTexture textureTag) w
          = Some (tt, world_with_shader sh' w) /\
        uniforms sh' !! g_UseTextureName = Some (UInt 1) /\
        uniforms sh' !! g_TextureValueName = Some (USampler2D slot) /\
        uniforms sh' !! g_ColorValueName = Some (UVec4 (glm.Vec4 r g b a))).
Proof.
  intros textureTag r g b a w sh slot Hsh Hcap Hslot.
  rewrite FindTextureSlot_run in Hslot by exact Hcap.
  injection Hslot as <-.
  split; eexists; (split; [|split; [|split]]).
  - rewrite (run_bind_Some _ _ _ _ _ (SetShaderTexture_run _ _ _ Hsh Hcap)).
    rewrite (SetShaderColor_run _ _ _ _ _ _ (shader_of_world_with_shader _ _)).
    reflexivity.
  - cbn [uniforms setVec4Value setIntValue setSampler2DValue set_uniform].
    rewrite lookup_insert_ne by discriminate. apply lookup_insert_eq.
  - cbn [uniforms setVec4Value setIntValue setSampler2DValue set_uniform].
    do 2 (rewrite lookup_insert_ne by discriminate). apply lookup_insert_eq.
  - cbn [uniforms setVec4Value setIntValue setSampler2DValue set_uniform].
    apply lookup_insert_eq.
  - rewrite (run_bind_Some _ _ _ _ _ (SetShaderColor_run _ _ _ _ _ _ Hsh)).
    rewrite (SetShaderTexture_run _ _ _ (shader_of_world_with_shader _ _) Hcap).
    reflexivity.
  - cbn [uniforms setVec4Value setIntValue setSampler2DValue set_uniform].
    rewrite lookup_insert_ne by discriminate. apply lookup_insert_eq.
  - cbn [uniforms setVec4Value setIntValue setSampler2DValue set_uniform].
    apply lookup_insert_eq.
  - cbn [uniforms setVec4Value setIntValue setSampler2DValue set_uniform].
    do 2 (rewrite lookup_insert_ne by discriminate).
    apply lookup_insert_eq.
Qed.

Lemma last_mode_setter_wins_witness :
  (exists sh',
      (SetShaderTexture "b";; SetShaderColor 1 0 0 1) two_texture_world
        = Some (tt, world_with_shader sh' two_texture_world) /\
      uniforms sh' !! g_UseTextureName = Some (UInt 0) /\
      uniforms sh' !! g_TextureValueName = Some (USampler2D 1) /\
      uniforms sh' !! g_ColorValueName = Some (UVec4 (glm.Vec4 1 0 0 1))) /\
  (exists sh',
      (SetShaderColor 1 0 0 1;; SetShaderTexture "b") two_texture_world
        = Some (tt, world_with_shader sh' two_texture_world) /\
      uniforms sh' !! g_UseTextureName = Some (UInt 1) /\
      uniforms sh' !! g_TextureValueName = Some (USampler2D 1) /\
      uniforms sh' !! g_ColorValueName = Some (UVec4 (glm.Vec4 1 0 0 1))).
Proof.
  apply (last_mode_setter_wins "b" 1 0 0 1 two_texture_world empty_shader 1).
  - reflexivity.
  - cbn. lia.
  - vm_compute. reflexivity.
Defined.

(** ** What registration does to the GL context *)

Section RegistrationGL.
Variable stbi_load : bool -> string -> option Image.

Lemma CreateGLTexture_unsupported_gl filename tag0 w image :
stbi_load true filename = Some image ->
colorChannels image <> 3 -> colorChannels image <> 4 ->
CreateGLTexture stbi_load filename tag0 w
= Some (false,
        {| this := this w; gl := gl_with_parameters (gl w);
           stbi_flip_vertically_on_load := true;
           cout := cout w ++
             [SuccessfullyLoadedImage filename (width image)
                (height image) (colorChannels image);
              NotImplementedChannels (colorChannels image)] |}).
Proof.
intros Hload H3 H4. unfold CreateGLTexture, load_image.
run_steps. rewrite Hload. run_steps.
apply Z.eqb_neq in H3, H4. rewrite H3, H4. run_steps.
rewrite <- app_assoc. reflexivity.
Qed.

Lemma CreateGLTexture_registers_gl filename tag0 w image :
stbi_load true filename = Some image ->
colorChannels image = 3 \/ colorChannels image = 4 ->
0 <= m_loadedTextures (this w) < 16 ->
CreateGLTexture stbi_load filename tag0 w
= Some (true,
        {| this :=
             with_textures (m_loadedTextures (this w) + 1)
               (vupdate (m_textureIDs (this w))
                  (Z.to_nat (m_loadedTextures (this w)))
                  {| tex_tag := tag0; ID := gl_next_name (gl w) |})
               (this w);
           gl := gl_after_upload (format_of_channels (colorChannels image))
                   image (gl w);
           stbi_flip_vertically_on_load := true;
           cout := cout w ++
             [SuccessfullyLoadedImage filename (width image)
                (height image) (colorChannels image)] |}).
Proof.
intros Hload Hch Hcap. unfold CreateGLTexture, load_image.
run_steps. rewrite Hload. run_steps.
assert (Hset : array_set (m_textureIDs (this w)) (m_loadedTextures (this w))
                 {| tex_tag := tag0; ID := gl_next_name (gl w) |}
               = Some (vupdate (m_textureIDs (this w))
                         (Z.to_nat (m_loadedTextures (this w)))
                         {| tex_tag := tag0; ID := gl_next_name (gl w) |})).
{ unfold array_set. rewrite decide_True by (cbn; lia). reflexivity. }
unfold format_of_channels.
destruct Hch as [Hc|Hc]; rewrite Hc; cbn;
  unfold register_texture; run_steps;
  rewrite Hset; run_steps; reflexivity.
Qed.
End RegistrationGL.

(** The parameter calls and the upload act on the texture object and leave
    names, active unit and bindings alone. *)
Lemma on_bound_texture_frame (f : TextureObject -> TextureObject) (g : GLContext) :
  gl_next_name (on_bound_texture f g) = gl_next_name g /\
  gl_active_texture (on_bound_texture f g) = gl_active_texture g /\
  gl_texture_binding_2d (on_bound_texture f g) = gl_texture_binding_2d g.
Proof.
  unfold on_bound_texture.
  destruct (gl_texture_binding_2d g !! gl_active_texture g); repeat split.
Qed.

Lemma gl_with_parameters_frame (g : GLContext) :
  gl_next_name (gl_with_parameters g) = gl_next_name g + 1 /\
  gl_active_texture (gl_with_parameters g) = gl_active_texture g /\
  gl_texture_binding_2d (gl_with_parameters g)
  = <[gl_active_texture g := gl_next_name g]> (gl_texture_binding_2d g).
Proof.
  unfold gl_with_parameters, glTexParameteri.
  repeat match goal with
         | |- context [on_bound_texture ?f ?g0] =>
             destruct (on_bound_texture_frame f g0) as (-> & -> & ->)
         end.
  repeat split.
Qed.

(** X8. An image with a channel count other than 3 and 4 leaves a texture
    behind: the call has consumed a texture name and returns [false] with
    that name still bound to the active unit, the registry being unchanged;
    a file that does not decode leaves the GL context untouched. *)
Theorem rejected_image_leaves_a_bound_texture :
  forall (stbi_load : bool -> string -> option Image)
         (filename tag0 : string) (w : World),
    (forall image,
        stbi_load true filename = Some image ->
        colorChannels image <> 3 -> colorChannels image <> 4 ->
        exists w',
          CreateGLTexture stbi_load filename tag0 w = Some (false, w') /\
          this w' = this w /\
          gl_next_name (gl w') = gl_next_name (gl w) + 1 /\
          gl_active_texture (gl w') = gl_active_texture (gl w) /\
          gl_texture_binding_2d (gl w') !! gl_active_texture (gl w)
          = Some (gl_next_name (gl w))) /\
    (stbi_load true filename = None ->
     exists w',
       CreateGLTexture stbi_load filename tag0 w = Some (false, w') /\
       this w' = this w /\ gl w' = gl w).
Proof.
  intros stbi_load filename tag0 w. split.
  - intros image Hload H3 H4. eexists.
    split; [apply (CreateGLTexture_unsupported_gl _ _ _ _ _ Hload H3 H4)|].
    cbn [this gl].
    destruct (gl_with_parameters_frame (gl w)) as (-> & -> & ->).
    repeat split. apply lookup_insert_eq.
  - intros Hload. eexists.
    split; [apply (CreateGLTexture_unreadable _ _ _ _ Hload)|].
    split; reflexivity.
Qed.

Lemma rejected_image_leaves_a_bound_texture_witness :
  (exists w',
      CreateGLTexture two_files "grey.png" "g" (fresh_world None)
        = Some (false, w') /\
      this w' = this (fresh_world None) /\
      gl_next_name (gl w') = gl_next_name (gl (fresh_world None)) + 1 /\
      gl_active_texture (gl w') = gl_active_texture (gl (fresh_world None)) /\
      gl_texture_binding_2d (gl w') !! gl_active_texture (gl (fresh_world None))
      = Some (gl_next_name (gl (fresh_world None)))) /\
  (exists w',
      CreateGLTexture two_files "missing.png" "m" (fresh_world None)
        = Some (false, w') /\
      this w' = this (fresh_world None) /\ gl w' = gl (fresh_world None)).
Proof.
  destruct (rejected_image_leaves_a_bound_texture two_files "grey.png" "g"
              (fresh_world None)) as [Hrejected _].
  destruct (rejected_image_leaves_a_bound_texture two_files "missing.png" "m"
              (fresh_world None)) as [_ Hmissing].
  split.
  - apply (Hrejected grey_image); [reflexivity|discriminate|discriminate].
  - apply Hmissing. reflexivity.
Defined.

Lemma gl_after_upload_frame (fmt : GLformat) (image : Image) (g : GLContext) :
  gl_next_name (gl_after_upload fmt image g) = gl_next_name g + 1 /\
  gl_active_texture (gl_after_upload fmt image g) = gl_active_texture g /\
  gl_texture_binding_2d (gl_after_upload fmt image g)
  = <[gl_active_texture g := 0]> (gl_texture_binding_2d g).
Proof.
  unfold gl_after_upload, glGenerateMipmap, glTexImage2D, glBindTexture.
  cbn [gl_next_name gl_active_texture gl_texture_binding_2d].
  repeat match goal with
         | |- context [on_bound_texture ?f ?g0] =>
             destruct (on_bound_texture_frame f g0) as (-> & -> & ->)
         end.
  destruct (gl_with_parameters_frame g) as (-> & -> & ->).
  rewrite insert_insert_eq. repeat split.
Qed.

(** On a unit that holds [id], a call on the bound texture changes the
    object [id] and keeps the unit bound to it. *)
Lemma on_bound_texture_object (f : TextureObject -> TextureObject)
    (g : GLContext) (id : Z) (t : TextureObject) :
  gl_texture_binding_2d g !! gl_active_texture g = Some id ->
  gl_textures g !! id = Some t ->
  gl_texture_binding_2d (on_bound_texture f g)
    !! gl_active_texture (on_bound_texture f g) = Some id /\
  gl_textures (on_bound_texture f g) !! id = Some (f t).
Proof.
  intros Hbound Hobject.
  destruct (on_bound_texture_frame f g) as (_ & -> & ->).
  split; [exact Hbound|].
  unfold on_bound_texture. rewrite Hbound.
  cbn [gl_textures]. rewrite lookup_alter_eq, Hobject. reflexivity.
Qed.

(** The texture object of a new name after the four parameter calls, the
    upload and the mipmap generation. *)
Lemma gl_after_upload_object (fmt : GLformat) (image : Image) (g : GLContext) :
  gl_next_name g <> 0 ->
  gl_textures g !! gl_next_name g = None ->
  gl_textures (gl_after_upload fmt image g) !! gl_next_name g
  = Some {| tex_parameters :=
              [ (GL_TEXTURE_MAG_FILTER, GL_LINEAR);
                (GL_TEXTURE_MIN_FILTER, GL_LINEAR);
                (GL_TEXTURE_WRAP_T, GL_REPEAT); (GL_TEXTURE_WRAP_S, GL_REPEAT) ];
            tex_image := Some (fmt, image);
            tex_mipmaps := true |}.
Proof.
  intros Hname Hnew.
  set (g1 := glBindTexture (gl_next_name g) (snd (glGenTextures g))).
  assert (H1 : gl_texture_binding_2d g1 !! gl_active_texture g1
               = Some (gl_next_name g)
               /\ gl_textures g1 !! gl_next_name g = Some new_texture).
  { subst g1. unfold glBindTexture, glGenTextures.
    cbn [snd gl_texture_binding_2d gl_active_texture gl_textures gl_next_name].
    split; [apply lookup_insert_eq|].
    rewrite decide_False by exact Hname. rewrite Hnew.
    apply lookup_insert_eq. }
  destruct H1 as [Hb1 Ho1].
  unfold gl_after_upload, gl_with_parameters, glGenerateMipmap, glTexImage2D,
    glTexParameteri.
  fold g1.
  repeat match goal with
         | |- context [on_bound_texture ?f g1] =>
             let Hb := fresh "Hb" in
             let Ho := fresh "Ho" in
             destruct (on_bound_texture_object f g1 _ _ Hb1 Ho1) as [Hb Ho];
             clear Hb1 Ho1;
             generalize dependent (on_bound_texture f g1);
             clear g1; intros g1 Hb1 Ho1
         end.
  unfold glBindTexture. cbn [gl_textures].
  rewrite decide_True by reflexivity. exact Ho1.
Qed.

(** X9. A successful registration stores in the registry the name of a
    complete texture: in a GL context whose next name is unused, the entry
    appended to the registry carries the new name, and the texture object
    of that name has repeat wrapping on both axes, linear filtering both
    ways, the image uploaded as RGB8 for 3 channels and RGBA8 for 4, and
    mipmaps; the active unit is left with no texture bound. *)
Theorem registered_handle_names_a_complete_texture :
  forall (stbi_load : bool -> string -> option Image)
         (filename tag0 : string) (w : World) (image : Image),
    stbi_load true filename = Some image ->
    colorChannels image = 3 \/ colorChannels image = 4 ->
    0 <= m_loadedTextures (this w) < 16 ->
    gl_next_name (gl w) <> 0 ->
    gl_textures (gl w) !! gl_next_name (gl w) = None ->
    exists w',
      CreateGLTexture stbi_load filename tag0 w = Some (true, w') /\
      registered (this w')
        = registered (this w)
            ++ [{| tex_tag := tag0; ID := gl_next_name (gl w) |}] /\
      gl_textures (gl w') !! gl_next_name (gl w)
        = Some (uploaded_texture image) /\
      gl_texture_binding_2d (gl w') !! gl_active_texture (gl w) = Some 0 /\
      gl_next_name (gl w') = gl_next_name (gl w) + 1.
Proof.
  intros stbi_load filename tag0 w image Hload Hch Hroom Hname Hnew.
  eexists.
  split; [apply (CreateGLTexture_registers_gl _ _ _ _ _ Hload Hch Hroom)|].
  cbn [this gl].
  split; [apply registered_with_textures; exact Hroom|].
  split; [apply gl_after_upload_object; assumption|].
  destruct (gl_after_upload_frame (format_of_channels (colorChannels image))
              image (gl w)) as (-> & _ & ->).
  split; [apply lookup_insert_eq|reflexivity].
Qed.

Lemma registered_handle_names_a_complete_texture_witness :
  exists w',
    CreateGLTexture two_files "fileB.png" "b" (fresh_world None)
      = Some (true, w') /\
    registered (this w')
      = registered (this (fresh_world None))
          ++ [{| tex_tag := "b"; ID := gl_next_name (gl (fresh_world None)) |}] /\
    gl_textures (gl w') !! gl_next_name (gl (fresh_world None))
      = Some (uploaded_texture rgba_image) /\
    gl_texture_binding_2d (gl w') !! gl_active_texture (gl (fresh_world None))
      = Some 0 /\
    gl_next_name (gl w') = gl_next_name (gl (fresh_world None)) + 1.
Proof.
  apply (registered_handle_names_a_complete_texture two_files "fileB.png" "b"
           (fresh_world None) rgba_image).
  - reflexivity.
  - right. reflexivity.
  - cbn. lia.
  - discriminate.
  - reflexivity.
Defined.

(** ** Binding, then registering *)

Lemma length_registered (s : SceneManager) :
  0 <= m_loadedTextures s <= 16 ->
  length (registered s) = Z.to_nat (m_loadedTextures s).
Proof.
  intros Hcap. unfold registered.
  rewrite length_take, length_vec_to_list. lia.
Qed.

(** X10. Registering after binding undoes part of the binding:
    [BindGLTextures] leaves the unit of the last slot active, and a
    following successful [CreateGLTexture] binds and unbinds on that unit,
    so the last registered texture is no longer bound to its unit, while
    the units of the slots before it keep their textures. *)
Theorem registering_after_binding_unbinds_the_last_slot :
  forall (stbi_load : bool -> string -> option Image)
         (filename tag0 : string) (w : World),
    1 <= m_loadedTextures (this w) < 16 ->
    decodable stbi_load filename ->
    exists w1 w2,
      BindGLTextures w = Some (tt, w1) /\
      CreateGLTexture stbi_load filename tag0 w1 = Some (true, w2) /\
      gl_texture_binding_2d (gl w2)
        !! (GL_TEXTURE0 + (m_loadedTextures (this w) - 1)) = Some 0 /\
      forall (i : nat) (info : TEXTURE_INFO),
        Z.of_nat i < m_loadedTextures (this w) - 1 ->
        registered (this w) !! i = Some info ->
        gl_texture_binding_2d (gl w2) !! (GL_TEXTURE0 + Z.of_nat i)
        = Some (ID info).
Proof.
  intros stbi_load filename tag0 w Hcount (image & Hload & Hch).
  assert (Hcap : m_loadedTextures (this w) <= 16) by lia.
  eexists _, _. split; [apply (BindGLTextures_run w Hcap)|].
  split; [apply (CreateGLTexture_registers_gl _ _ _ _ _ Hload Hch);
          cbn; lia|].
  cbn [gl world_with_gl].
  destruct (gl_after_upload_frame (format_of_channels (colorChannels image))
              image (bind_from (registered (this w)) 0 (gl w)))
    as (_ & _ & ->).
  assert (Hlen : length (registered (this w))
                 = Z.to_nat (m_loadedTextures (this w))).
  { apply length_registered. lia. }
  assert (Hactive : gl_active_texture
                      (bind_from (registered (this w)) 0 (gl w))
                    = GL_TEXTURE0 + (m_loadedTextures (this w) - 1)).
  { rewrite bind_from_active.
    - rewrite Hlen. lia.
    - intros Hnil. rewrite Hnil in Hlen. cbn in Hlen. lia. }
  rewrite Hactive. split; [apply lookup_insert_eq|].
  intros i info Hi Hinfo. rewrite lookup_insert_ne by lia.
  destruct (bind_from_bound (registered (this w)) 0 (gl w) i info Hinfo)
    as [Hb _].
  rewrite Z.add_0_r in Hb. exact Hb.
Qed.

Lemma registering_after_binding_unbinds_the_last_slot_witness :
  exists w1 w2,
    BindGLTextures two_texture_world = Some (tt, w1) /\
    CreateGLTexture two_files "fileA.png" "c" w1 = Some (true, w2) /\
    gl_texture_binding_2d (gl w2)
      !! (GL_TEXTURE0 + (m_loadedTextures (this two_texture_world) - 1))
      = Some 0 /\
    forall (i : nat) (info : TEXTURE_INFO),
      Z.of_nat i < m_loadedTextures (this two_texture_world) - 1 ->
      registered (this two_texture_world) !! i = Some info ->
      gl_texture_binding_2d (gl w2) !! (GL_TEXTURE0 + Z.of_nat i)
      = Some (ID info).
Proof.
  apply (registering_after_binding_unbinds_the_last_slot two_files
           "fileA.png" "c" two_texture_world).
  - cbn. lia.
  - exists rgb_image. split; [reflexivity|left; reflexivity].
Defined.

(** ** [DestroyGLTextures] *)

Lemma DestroyGLTextures_loop_run :
  forall (remaining k : nat) (w : World),
    (k + remaining <= 16)%nat ->
    exists ids,
      DestroyGLTextures_loop remaining (Z.of_nat k) w
      = Some (tt,
              {| this := with_textures (m_loadedTextures (this w)) ids (this w);
                 gl := consume_names remaining (gl w);
                 stbi_flip_vertically_on_load := stbi_flip_vertically_on_load w;
                 cout := cout w |}) /\
      forall (j : nat),
        vec_to_list ids !! j
        = if decide (k <= j < k + remaining)%nat
          then rename_entry (gl_next_name (gl w)) k j
                 <$> vec_to_list (m_textureIDs (this w)) !! j
          else vec_to_list (m_textureIDs (this w)) !! j.
Proof.
  induction remaining as [|n IH]; intros k w Hk.
  - exists (m_textureIDs (this w)). split.
    + cbn [DestroyGLTextures_loop]. rewrite with_textures_same.
      destruct w as [s [next active binding objects] flip out].
      unfold consume_names. cbn. rewrite Z.add_0_r. reflexivity.
    + intros j. rewrite decide_False by lia. reflexivity.
  - destruct (array_get_in_range (m_textureIDs (this w)) k) as (info & Hget & Hl);
      [lia|].
    set (entry := {| tex_tag := tex_tag info; ID := gl_next_name (gl w) |}).
    set (w1 := {| this := with_textures (m_loadedTextures (this w))
                            (vupdate (m_textureIDs (this w)) k entry) (this w);
                  gl := snd (glGenTextures (gl w));
                  stbi_flip_vertically_on_load := stbi_flip_vertically_on_load w;
                  cout := cout w |}).
    destruct (IH (S k) w1) as (ids & Hrun & Hids); [lia|].
    exists ids. split.
    + cbn [DestroyGLTextures_loop]. run_steps. rewrite Hget. run_steps.
      unfold array_set. rewrite decide_True by (cbn; lia).
      run_steps. rewrite Nat2Z.id.
      replace (Z.of_nat k + 1) with (Z.of_nat (S k)) by lia.
      transitivity (DestroyGLTextures_loop n (Z.of_nat (S k)) w1);
        [reflexivity|].
      rewrite Hrun. subst w1. unfold consume_names. cbn.
      do 3 f_equal. f_equal. lia.
    + intros j. rewrite Hids. subst w1.
      cbn [this m_textureIDs with_textures gl gl_next_name glGenTextures snd].
      rewrite vec_to_list_vupdate.
      destruct (decide (j = k)) as [->|Hne].
      * rewrite decide_False by lia. rewrite decide_True by lia.
        rewrite list_lookup_insert_eq
          by (apply lookup_lt_Some in Hl; exact Hl).
        rewrite Hl. unfold rename_entry. cbn. subst entry.
        do 2 f_equal. lia.
      * rewrite list_lookup_insert_ne by congruence.
        destruct (decide (S k <= j < S k + n)%nat) as [Hin|Hout].
        -- rewrite decide_True by lia.
           destruct (vec_to_list (m_textureIDs (this w)) !! j); [|reflexivity].
           unfold rename_entry. cbn. do 2 f_equal. lia.
        -- rewrite decide_False by lia. reflexivity.
Qed.

Lemma DestroyGLTextures_loop_overflow :
  forall (remaining k : nat) (w : World),
    (k <= 16)%nat -> (16 < k + remaining)%nat ->
    DestroyGLTextures_loop remaining (Z.of_nat k) w = None.
Proof.
  induction remaining as [|n IH]; intros k w Hle Hk; [lia|].
  cbn [DestroyGLTextures_loop]. run_steps.
  destruct (array_get (m_textureIDs (this w)) (Z.of_nat k)) as [info|] eqn:Hget;
    [|reflexivity].
  assert (Hlt : (k < 16)%nat).
  { rewrite array_get_lookup in Hget. apply lookup_lt_Some in Hget.
    rewrite length_vec_to_list in Hget. exact Hget. }
  run_steps. unfold array_set. rewrite decide_True by (cbn; lia).
  run_steps.
  replace (Z.of_nat k + 1) with (Z.of_nat (S k)) by lia.
  apply IH; lia.
Qed.

(** X11. [DestroyGLTextures] frees nothing.  Within capacity it returns
    with every texture object and every binding as before; what it changes
    is the registry, where each registered entry keeps its tag and gets a
    newly generated name as its handle (the i-th entry the i-th new name),
    the counter staying as it was.  Past the capacity it is undefined. *)
Theorem DestroyGLTextures_frees_nothing :
  forall (w : World),
    (m_loadedTextures (this w) <= 16 ->
     exists w',
       DestroyGLTextures w = Some (tt, w') /\
       gl_textures (gl w') = gl_textures (gl w) /\
       gl_texture_binding_2d (gl w') = gl_texture_binding_2d (gl w) /\
       gl_next_name (gl w')
         = gl_next_name (gl w) + Z.of_nat (length (registered (this w))) /\
       m_loadedTextures (this w') = m_loadedTextures (this w) /\
       registered_tags (this w') = registered_tags (this w) /\
       forall (i : nat) (info : TEXTURE_INFO),
         registered (this w') !! i = Some info ->
         ID info = gl_next_name (gl w) + Z.of_nat i) /\
    (16 < m_loadedTextures (this w) -> DestroyGLTextures w = None).
Proof.
  intros w. split.
  - intros Hcap.
    destruct (DestroyGLTextures_loop_run
                (Z.to_nat (m_loadedTextures (this w))) 0 w)
      as (ids & Hrun & Hids); [lia|].
    eexists. split.
    { unfold DestroyGLTextures. run_steps. exact Hrun. }
    cbn [this gl consume_names gl_textures gl_texture_binding_2d gl_next_name
         with_textures m_loadedTextures].
    assert (Hlen : length (registered (this w))
                   = Z.to_nat (m_loadedTextures (this w))).
    { unfold registered. rewrite length_take, length_vec_to_list. lia. }
    split; [reflexivity|]. split; [reflexivity|].
    split; [rewrite Hlen; reflexivity|]. split; [reflexivity|].
    split.
    + unfold registered_tags, registered.
      cbn [m_loadedTextures m_textureIDs with_textures].
      apply list_eq. intros j. rewrite !list_lookup_fmap, !lookup_take.
      destruct (decide (j < Z.to_nat (m_loadedTextures (this w)))%nat);
        [|reflexivity].
      rewrite Hids. rewrite decide_True by lia.
      destruct (vec_to_list (m_textureIDs (this w)) !! j); reflexivity.
    + intros i info Hi. unfold registered in Hi.
      cbn [m_loadedTextures m_textureIDs with_textures] in Hi.
      apply lookup_take_Some in Hi as [Hi Hlt].
      rewrite Hids in Hi. rewrite decide_True in Hi by lia.
      destruct (vec_to_list (m_textureIDs (this w)) !! i) as [old|];
        [|discriminate].
      injection Hi as <-. unfold rename_entry. cbn. do 2 f_equal. lia.
  - intros Hover. unfold DestroyGLTextures. run_steps.
    apply (DestroyGLTextures_loop_overflow _ 0); lia.
Qed.

Lemma DestroyGLTextures_frees_nothing_witness :
  (exists w',
      DestroyGLTextures two_texture_world = Some (tt, w') /\
      gl_textures (gl w') = gl_textures (gl two_texture_world) /\
      gl_texture_binding_2d (gl w')
        = gl_texture_binding_2d (gl two_texture_world) /\
      gl_next_name (gl w')
        = gl_next_name (gl two_texture_world)
            + Z.of_nat (length (registered (this two_texture_world))) /\
      m_loadedTextures (this w') = m_loadedTextures (this two_texture_world) /\
      registered_tags (this w') = registered_tags (this two_texture_world) /\
      forall (i : nat) (info : TEXTURE_INFO),
        registered (this w') !! i = Some info ->
        ID info = gl_next_name (gl two_texture_world) + Z.of_nat i) /\
  (16 < m_loadedTextures (this two_texture_world) ->
   DestroyGLTextures two_texture_world = None).
Proof.
  destruct (DestroyGLTextures_frees_nothing two_texture_world)
    as [Hwithin Hpast].
  split; [apply Hwithin; cbn; lia|exact Hpast].
Defined.

(** ** The lights *)

Lemma SetupSceneLights_run (w : World) (sh : ShaderManager) :
  m_pShaderManager (this w) = Some sh ->
  SetupSceneLights w
  = Some (tt,
          {| this :=
               with_shader (Some (write_uniforms scene_light_writes sh))
                 (with_lightPositions scene_light_positions (this w));
             gl := gl w;
             stbi_flip_vertically_on_load := stbi_flip_vertically_on_load w;
             cout := cout w |}).
Proof.
  destruct w as [[lp shader meshes n ids ms] g flip out]. cbn [this m_pShaderManager].
  intros ->. inv_vec lp. intros p0 p1 p2 p3.
  reflexivity.
Qed.

(** A sequence of writes is the map of its last values laid over the old
    uniforms. *)
Lemma write_uniforms_union (writes : list (string * UniformValue))
    (sh : ShaderManager) :
  uniforms (write_uniforms writes sh)
  = list_to_map (reverse writes) ∪ uniforms sh.
Proof.
  induction writes as [|[name v] writes IH] using rev_ind.
  - cbn. rewrite (left_id_L ∅ (∪)). reflexivity.
  - unfold write_uniforms in *. rewrite foldl_app. cbn [foldl fst snd].
    rewrite reverse_app, reverse_singleton. cbn [app].
    rewrite list_to_map_cons. cbn [set_uniform uniforms].
    rewrite IH. apply insert_union_l.
Qed.

Lemma write_uniforms_twice (writes : list (string * UniformValue))
    (sh : ShaderManager) :
  write_uniforms writes (write_uniforms writes sh) = write_uniforms writes sh.
Proof.
  assert (Huniforms : uniforms (write_uniforms writes (write_uniforms writes sh))
                      = uniforms (write_uniforms writes sh)).
  { rewrite !write_uniforms_union.
    rewrite (assoc_L (∪)). rewrite (idemp_L (∪)). reflexivity. }
  destruct (write_uniforms writes (write_uniforms writes sh)),
    (write_uniforms writes sh). cbn in Huniforms. congruence.
Qed.

Lemma write_uniforms_lookup (writes : list (string * UniformValue))
    (sh : ShaderManager) (name : string) :
  uniforms (write_uniforms writes sh) !! name
  = match (list_to_map (reverse writes) : gmap string UniformValue) !! name with
    | Some v => Some v
    | None => uniforms sh !! name
    end.
Proof.
  rewrite write_uniforms_union, lookup_union.
  destruct (_ !! name), (uniforms sh !! name); reflexivity.
Qed.

(** X12. [SetupSceneLights] has no null test: without a shader it is
    undefined.  With one it returns, leaves the registries, the GL context
    and the console alone, sets [bUseLighting] to true, and the stored
    position of each of the four lights is the value of that light's
    position uniform; a uniform it does not write keeps its value. *)
Theorem SetupSceneLights_positions_match_uniforms :
  forall (w : World),
    (m_pShaderManager (this w) = None -> SetupSceneLights w = None) /\
    (forall sh,
        m_pShaderManager (this w) = Some sh ->
        exists w' sh',
          SetupSceneLights w = Some (tt, w') /\
          m_pShaderManager (this w') = Some sh' /\
          uniforms sh' !! g_UseLightingName = Some (UBool true) /\
          (forall i : fin 4,
              uniforms sh' !! light_position_name i
              = Some (UVec3 (lightPositions (this w') !!! i))) /\
          (forall name, name ∉ scene_light_writes.*1 ->
             uniforms sh' !! name = uniforms sh !! name) /\
          registries w' = registries w /\ gl w' = gl w /\ cout w' = cout w).
Proof.
  intros w. split.
  - intros Hnull. unfold SetupSceneLights. rewrite run_bind.
    rewrite (shader_call_null _ _ Hnull). reflexivity.
  - intros sh Hsh. eexists _, _.
    split; [apply (SetupSceneLights_run w sh Hsh)|].
    cbn [this with_shader with_lightPositions m_pShaderManager lightPositions
         gl cout].
    split; [reflexivity|].
    split; [rewrite write_uniforms_lookup; vm_compute; reflexivity|].
    split; [|split; [|repeat split]].
    + intros i. rewrite write_uniforms_lookup.
      inv_fin i; [|intros i; inv_fin i; [|intros i; inv_fin i;
                   [|intros i; inv_fin i; [|intros i; inv_fin i]]]];
        vm_compute; reflexivity.
    + intros name Hname. rewrite write_uniforms_lookup.
      destruct (list_to_map (reverse scene_light_writes) !! name)
        as [v|] eqn:Hlookup; [|reflexivity].
      exfalso. apply Hname. apply elem_of_list_to_map_2 in Hlookup.
      apply list_elem_of_fmap. exists (name, v). split; [reflexivity|].
      apply elem_of_reverse. exact Hlookup.
Qed.

Lemma SetupSceneLights_positions_match_uniforms_witness :
  exists w' sh',
    SetupSceneLights (fresh_world (Some empty_shader)) = Some (tt, w') /\
    m_pShaderManager (this w') = Some sh' /\
    uniforms sh' !! g_UseLightingName = Some (UBool true) /\
    (forall i : fin 4,
        uniforms sh' !! light_position_name i
        = Some (UVec3 (lightPositions (this w') !!! i))) /\
    (forall name, name ∉ scene_light_writes.*1 ->
       uniforms sh' !! name = uniforms empty_shader !! name) /\
    registries w' = registries (fresh_world (Some empty_shader)) /\
    gl w' = gl (fresh_world (Some empty_shader)) /\
    cout w' = cout (fresh_world (Some empty_shader)).
Proof.
  destruct (SetupSceneLights_positions_match_uniforms
              (fresh_world (Some empty_shader))) as [_ Hattached].
  apply (Hattached empty_shader). reflexivity.
Defined.

(** X13. Configuring the lights twice is the same as configuring them
    once, from every world. *)
Theorem SetupSceneLights_idempotent :
  forall (w : World),
    (SetupSceneLights;; SetupSceneLights) w = SetupSceneLights w.
Proof.
  intros w. destruct (m_pShaderManager (this w)) as [sh|] eqn:Hsh.
  - rewrite (run_bind_Some _ _ _ _ _ (SetupSceneLights_run w sh Hsh)).
    rewrite (SetupSceneLights_run _ (write_uniforms scene_light_writes sh))
      by reflexivity.
    rewrite (SetupSceneLights_run w sh Hsh).
    cbn [this gl stbi_flip_vertically_on_load cout with_shader
         with_lightPositions lightPositions m_pShaderManager m_basicMeshes
         m_loadedTextures m_textureIDs m_objectMaterials].
    rewrite write_uniforms_twice. reflexivity.
  - rewrite run_bind.
    assert (Hnone : SetupSceneLights w = None).
    { unfold SetupSceneLights. rewrite run_bind.
      rewrite (shader_call_null _ _ Hsh). reflexivity. }
    rewrite Hnone. reflexivity.
Qed.

(** ** Preparing the scene more than once *)

Section Repeat.
Variable stbi_load : bool -> string -> option Image.
Hypothesis all_decodable : Forall (decodable stbi_load) scene_texture_files.*1.

Lemma PrepareScene_overflows (w : World) :
2 < m_loadedTextures (this w) <= 16 ->
PrepareScene stbi_load w = None.
Proof.
intros Hcount. rewrite PrepareScene_phases. unfold prepare_phases.
rewrite run_bind.
destruct (m_pShaderManager (this w)) as [sh|] eqn:Hsh.
- rewrite (SetupSceneLights_run w sh Hsh).
  rewrite (run_bind_Some _ _ _ _ _ (DefineObjectMaterials_run _)).
  rewrite run_bind. rewrite run_bind.
  rewrite register_all_overflows; [reflexivity| |exact all_decodable|].
  + cbn. lia.
  + cbn. lia.
- assert (Hnone : SetupSceneLights w = None).
  { unfold SetupSceneLights. rewrite run_bind.
    rewrite (shader_call_null _ _ Hsh). reflexivity. }
  rewrite Hnone. reflexivity.
Qed.

Lemma PrepareScene_count (w w' : World) :
m_loadedTextures (this w) = 0 ->
PrepareScene stbi_load w = Some (tt, w') ->
m_loadedTextures (this w') = 14.
Proof.
intros Hzero Hrun. rewrite PrepareScene_phases in Hrun.
unfold prepare_phases in Hrun.
apply bind_inv in Hrun as ([] & w1 & Hlights & Hrun).
apply bind_inv in Hrun as ([] & w2 & Hmaterials & Hrun).
apply bind_inv in Hrun as ([] & w4 & Htextures & Hmeshes).
apply bind_inv in Htextures as (bs & w3 & Hregister & Hbind).
destruct (m_pShaderManager (this w)) as [sh|] eqn:Hsh.
- rewrite (SetupSceneLights_run w sh Hsh) in Hlights.
  injection Hlights as <-.
  rewrite DefineObjectMaterials_run in Hmaterials.
  injection Hmaterials as <-.
  match type of Hregister with
  | register_all _ _ ?w2 = _ =>
      destruct (register_all_succeeds stbi_load scene_texture_files w2)
        as [w3' Hsucceeds]; [cbn; lia|cbn; lia|exact all_decodable|];
      rewrite Hsucceeds in Hregister; injection Hregister as <- <-;
      destruct (register_all_true_inv stbi_load scene_texture_files w2 w3'
                  _ ltac:(cbn; lia) Hsucceeds)
        as (_ & Hcount & _ & _)
  end.
  { apply Forall_forall. intros b Hb.
    apply elem_of_replicate in Hb as [-> _]. reflexivity. }
  apply BindGLTextures_inv in Hbind as [g ->].
  rewrite for_each_mesh_call in Hmeshes. injection Hmeshes as <-.
  cbn [this m_loadedTextures with_meshes world_with_gl] in *.
  rewrite Hcount. cbn. lia.
- unfold SetupSceneLights in Hlights. rewrite run_bind in Hlights.
  rewrite (shader_call_null _ _ Hsh) in Hlights. discriminate.
Qed.
End Repeat.

(** X14. The scene can be prepared only once.  When all 14 texture files
    decode, [PrepareScene] is undefined on a scene that has more than two
    textures registered already, the array having 16 entries; so a second
    [PrepareScene] on a scene prepared from an empty registry is
    undefined. *)
Theorem PrepareScene_cannot_be_repeated :
  forall (stbi_load : bool -> string -> option Image) (w : World),
    Forall (decodable stbi_load) scene_texture_files.*1 ->
    (2 < m_loadedTextures (this w) <= 16 -> PrepareScene stbi_load w = None) /\
    (m_loadedTextures (this w) = 0 ->
     (PrepareScene stbi_load;; PrepareScene stbi_load) w = None).
Proof.
  intros stbi_load w Hdec. split.
  - apply PrepareScene_overflows. exact Hdec.
  - intros Hzero. rewrite run_bind.
    destruct (PrepareScene stbi_load w) as [[[] w']|] eqn:Hfirst;
      [|reflexivity].
    apply PrepareScene_overflows; [exact Hdec|].
    rewrite (PrepareScene_count stbi_load Hdec w w' Hzero Hfirst). lia.
Qed.

Lemma PrepareScene_cannot_be_repeated_witness :
  (PrepareScene every_file_rgb;; PrepareScene every_file_rgb)
    (fresh_world (Some empty_shader)) = None.
Proof.
  destruct (PrepareScene_cannot_be_repeated every_file_rgb
              (fresh_world (Some empty_shader))) as [_ Htwice].
  - cbn. repeat constructor;
      exists rgb_image; (split; [reflexivity|left; reflexivity]).
  - apply Htwice. reflexivity.
Defined.

(** ** Rendering without a shader *)

Lemma bare_SetTransformations cosf sinf scaleXYZ rx ry rz positionXYZ :
  maintains bare (SetTransformations cosf sinf scaleXYZ rx ry rz positionXYZ).
Proof.
  intros w Hw. exists tt, w.
  split; [apply SetTransformations_without_shader; apply Hw|exact Hw].
Qed.

Lemma bare_SetShaderColor r g b a : maintains bare (SetShaderColor r g b a).
Proof.
  intros w Hw. exists tt, w.
  split; [apply SetShaderColor_without_shader; apply Hw|exact Hw].
Qed.

Lemma bare_SetShaderTexture textureTag :
  maintains bare (SetShaderTexture textureTag).
Proof.
  intros w Hw. exists tt, w.
  split; [apply SetShaderTexture_without_shader; apply Hw|exact Hw].
Qed.

Lemma bare_SetShaderMaterial material materialTag :
  maintains bare (SetShaderMaterial material materialTag).
Proof.
  intros w Hw. exists tt, w.
  split; [apply SetShaderMaterial_empty_catalog; apply Hw|exact Hw].
Qed.

Lemma bare_mesh_call (c : MeshCall) : maintains bare (mesh_call c).
Proof. intros w Hw. eexists _, _. split; [reflexivity|exact Hw]. Qed.

Lemma bare_get_lightPosition (i : fin 4) :
  maintains bare (get_lightPosition i).
Proof. intros w Hw. eexists _, _. split; [reflexivity|exact Hw]. Qed.

Lemma RenderScene_bare cosf sinf stack_material :
  maintains bare (RenderScene cosf sinf stack_material).
Proof.
  unfold RenderScene. cbv zeta.
  render_steps
    (@maintains_bind) (@maintains_for_each)
    (bare_SetTransformations cosf sinf)
    bare_SetShaderColor bare_SetShaderTexture
    bare_SetShaderMaterial bare_mesh_call
    bare_get_lightPosition.
Qed.

Lemma RenderScene_null_dereference cosf sinf stack_material (w : World) :
  m_pShaderManager (this w) = None ->
  m_objectMaterials (this w) <> [] ->
  RenderScene cosf sinf stack_material w = None.
Proof.
  intros Hnull Hcatalog. unfold RenderScene. cbv zeta.
  rewrite run_bind, (SetTransformations_without_shader _ _ _ _ _ _ _ _ Hnull).
  rewrite run_bind, (SetShaderTexture_without_shader _ _ Hnull).
  rewrite run_bind, (SetShaderMaterial_without_shader _ _ _ Hnull Hcatalog).
  reflexivity.
Qed.

(** X15. Rendering without a shader.  The three guarded setters skip their
    work, [SetShaderMaterial] has no guard: with an empty catalog the pass
    returns, still without a shader, having changed nothing but the calls
    on the mesh library; with a catalog that is not empty the pass is
    undefined, at its first [SetShaderMaterial]. *)
Theorem RenderScene_without_shader :
  forall (cosf sinf : float -> float) (stack_material : nat -> OBJECT_MATERIAL)
         (w : World),
    m_pShaderManager (this w) = None ->
    (m_objectMaterials (this w) = [] ->
     exists w',
       RenderScene cosf sinf stack_material w = Some (tt, w') /\
       m_pShaderManager (this w') = None /\
       outside_shader_and_meshes w' = outside_shader_and_meshes w) /\
    (m_objectMaterials (this w) <> [] ->
     RenderScene cosf sinf stack_material w = None).
Proof.
  intros cosf sinf stack_material w Hnull. split.
  - intros Hempty.
    destruct (RenderScene_bare cosf sinf stack_material w)
      as ([] & w' & Hrun & Hbare); [split; assumption|].
    exists w'. split; [exact Hrun|]. split; [apply Hbare|].
    apply (RenderScene_preserves cosf sinf stack_material w tt w' Hrun).
  - apply RenderScene_null_dereference. exact Hnull.
Qed.

Lemma RenderScene_without_shader_witness :
  (exists w',
      RenderScene cos_series sin_series (fun _ => stale_material)
        (fresh_world None) = Some (tt, w') /\
      m_pShaderManager (this w') = None /\
      outside_shader_and_meshes w'
        = outside_shader_and_meshes (fresh_world None)) /\
  RenderScene cos_series sin_series (fun _ => stale_material)
    (world_with_materials specified_catalog (fresh_world None)) = None.
Proof.
  destruct (RenderScene_without_shader cos_series sin_series
              (fun _ => stale_material) (fresh_world None) eq_refl)
    as [Hempty _].
  destruct (RenderScene_without_shader cos_series sin_series
              (fun _ => stale_material)
              (world_with_materials specified_catalog (fresh_world None))
              eq_refl)
    as [_ Hcatalog].
  split; [apply Hempty; reflexivity|apply Hcatalog; discriminate].
Defined.

(** ** What a render pass draws *)

Lemma draws_ret {A : Type} (a : A) : draws_loaded_meshes (mret a).
Proof.
  intros w a' w' H. injection H as _ <-. exists [].
  split; [rewrite app_nil_r; reflexivity|constructor].
Qed.

Lemma draws_bind {A B : Type} (c : M A) (f : A -> M B) :
  draws_loaded_meshes c -> (forall a, draws_loaded_meshes (f a)) ->
  draws_loaded_meshes (c ≫= f).
Proof.
  intros Hc Hf w b w2 Hrun.
  apply bind_inv in Hrun as (a & w1 & H1 & H2).
  destruct (Hc _ _ _ H1) as (k1 & Hlog1 & Hall1).
  destruct (Hf a _ _ _ H2) as (k2 & Hlog2 & Hall2).
  exists (k1 ++ k2). split.
  - rewrite Hlog2, Hlog1, fmap_app, app_assoc. reflexivity.
  - apply Forall_app. split; assumption.
Qed.

Lemma draws_for_each {A : Type} (l : list A) (body : A -> M unit) :
  (forall a, draws_loaded_meshes (body a)) ->
  draws_loaded_meshes (for_each l body).
Proof.
  intros Hbody. induction l as [|a l IH]; cbn [for_each].
  - apply draws_ret.
  - apply draws_bind; [apply Hbody|intros _; exact IH].
Qed.

Lemma draws_of_preserves {A : Type} (c : M A) :
  preserves mesh_log c -> draws_loaded_meshes c.
Proof.
  intros Hc w a w' Hrun. exists [].
  split; [rewrite (Hc _ _ _ Hrun), app_nil_r; reflexivity|constructor].
Qed.

Lemma draws_mesh_call (k : MeshKind) :
  k ∈ scene_mesh_kinds -> draws_loaded_meshes (mesh_call (DrawMesh k)).
Proof.
  intros Hk w a w' Hrun. injection Hrun as _ <-. exists [k].
  split; [reflexivity|]. constructor; [exact Hk|constructor].
Qed.

Lemma draws_loaded_kind (k : MeshKind) :
  bool_decide (k ∈ scene_mesh_kinds) = true ->
  draws_loaded_meshes (mesh_call (DrawMesh k)).
Proof.
  intros Hk. apply draws_mesh_call. apply bool_decide_eq_true in Hk. exact Hk.
Qed.

Lemma RenderScene_draws cosf sinf stack_material :
  draws_loaded_meshes (RenderScene cosf sinf stack_material).
Proof.
  unfold RenderScene. cbv zeta.
  render_steps
    (@draws_bind) (@draws_for_each)
    (fun sc rx ry rz p =>
       draws_of_preserves _
         (@preserves_SetTransformations _ mesh_log
            (fun _ _ => eq_refl) cosf sinf sc rx ry rz p))
    (fun r g b a =>
       draws_of_preserves _
         (@preserves_SetShaderColor _ mesh_log (fun _ _ => eq_refl) r g b a))
    (fun t =>
       draws_of_preserves _
         (@preserves_SetShaderTexture _ mesh_log (fun _ _ => eq_refl) t))
    (fun m t =>
       draws_of_preserves _
         (@preserves_SetShaderMaterial _ mesh_log (fun _ _ => eq_refl) m t))
    draws_loaded_kind
    (fun i =>
       draws_of_preserves _ (@preserves_get_lightPosition _ mesh_log i)).
  all: reflexivity.
Qed.

Section Prepared.
Variable stbi_load : bool -> string -> option Image.

Lemma register_all_keeps_shader :
  forall (pairs : list (string * string)) (w w' : World) (bs : list bool),
    register_all stbi_load pairs w = Some (bs, w') ->
    m_pShaderManager (this w') = m_pShaderManager (this w).
Proof.
  induction pairs as [|[filename tag0] pairs IH]; intros w w' bs Hrun.
  - injection Hrun as _ <-. reflexivity.
  - cbn [register_all] in Hrun.
    apply bind_inv in Hrun as (b & w1 & Hfirst & Hrun).
    apply bind_inv in Hrun as (bs' & w2 & Hrest & Hret).
    injection Hret as _ <-.
    apply CreateGLTexture_appends in Hfirst as (Hshader & _).
    rewrite (IH _ _ _ Hrest). exact Hshader.
Qed.

(** A scene whose preparation returned has its shader and at most 16
    textures. *)
Lemma PrepareScene_renderable (w0 w : World) :
  PrepareScene stbi_load w0 = Some (tt, w) -> renderable w.
Proof.
  intros Hrun. rewrite PrepareScene_phases in Hrun.
  unfold prepare_phases in Hrun.
  apply bind_inv in Hrun as ([] & w1 & Hlights & Hrun).
  apply bind_inv in Hrun as ([] & w2 & Hmaterials & Hrun).
  apply bind_inv in Hrun as ([] & w4 & Htextures & Hmeshes).
  apply bind_inv in Htextures as (bs & w3 & Hregister & Hbind).
  destruct (m_pShaderManager (this w0)) as [sh|] eqn:Hsh.
  - rewrite (SetupSceneLights_run w0 sh Hsh) in Hlights.
    injection Hlights as <-.
    rewrite DefineObjectMaterials_run in Hmaterials.
    injection Hmaterials as <-.
    apply register_all_keeps_shader in Hregister.
    rewrite for_each_mesh_call in Hmeshes. injection Hmeshes as <-.
    destruct (decide (m_loadedTextures (this w3) <= 16)) as [Hcap|Hcap].
    + apply BindGLTextures_inv in Hbind as [g ->].
      split; [|exact Hcap].
      cbn [this m_pShaderManager with_meshes world_with_gl].
      rewrite Hregister. cbn. eauto.
    + rewrite BindGLTextures_overflow in Hbind by lia. discriminate.
  - unfold SetupSceneLights in Hlights. rewrite run_bind in Hlights.
    rewrite (shader_call_null _ _ Hsh) in Hlights. discriminate.
Qed.
End Prepared.

(** X16. A prepared scene can be rendered, with what preparation loaded.
    Whenever [PrepareScene] has returned, [RenderScene] returns on the
    scene it leaves; the calls the pass adds to the mesh library are draw
    calls only, each of a mesh kind that [PrepareScene] has loaded; and
    the scene can be rendered again. *)
Theorem prepared_scene_renders_with_loaded_meshes :
  forall (cosf sinf : float -> float) (stack_material : nat -> OBJECT_MATERIAL)
         (stbi_load : bool -> string -> option Image) (w0 w : World),
    PrepareScene stbi_load w0 = Some (tt, w) ->
    exists w' kinds,
      RenderScene cosf sinf stack_material w = Some (tt, w') /\
      mesh_log w' = mesh_log w ++ (DrawMesh <$> kinds) /\
      Forall (fun k => LoadMesh k ∈ mesh_log w) kinds /\
      renderable w'.
Proof.
  intros cosf sinf stack_material stbi_load w0 w Hprepare.
  destruct (RenderScene_maintains cosf sinf stack_material w)
    as ([] & w' & Hrender & Hagain);
    [apply (PrepareScene_renderable stbi_load w0 w Hprepare)|].
  destruct (RenderScene_draws cosf sinf stack_material w tt w' Hrender)
    as (kinds & Hlog & Hkinds).
  exists w', kinds. split; [exact Hrender|]. split; [exact Hlog|].
  split; [|exact Hagain].
  rewrite PrepareScene_phases in Hprepare.
  apply prepare_phases_inv in Hprepare as (_ & Hloaded & _).
  unfold mesh_log. rewrite Hloaded.
  eapply Forall_impl; [exact Hkinds|].
  intros k Hk. apply elem_of_app. right.
  apply list_elem_of_fmap. exists k. split; [reflexivity|exact Hk].
Qed.

Lemma prepared_scene_renders_with_loaded_meshes_witness :
  exists w,
    PrepareScene two_files (fresh_world (Some empty_shader)) = Some (tt, w) /\
    exists w' kinds,
      RenderScene cos_series sin_series (fun _ => stale_material) w
        = Some (tt, w') /\
      mesh_log w' = mesh_log w ++ (DrawMesh <$> kinds) /\
      Forall (fun k => LoadMesh k ∈ mesh_log w) kinds /\
      renderable w'.
Proof.
  destruct (prepare_phases_returns two_files (fresh_world (Some empty_shader)))
    as [w Hrun].
  - split; [cbn; eauto|]. cbn. lia.
  - rewrite <- PrepareScene_phases in Hrun.
    exists w. split; [exact Hrun|].
    apply (prepared_scene_renders_with_loaded_meshes cos_series sin_series
             (fun _ => stale_material) two_files
             (fresh_world (Some empty_shader)) w Hrun).
Defined.

(** ** The view manager: mouse events *)

Section Mouse.
Variable X : View.Externals.

Lemma mouse_events_tracking :
forall (events : list (double * double)) (w : View.World X)
       (camera : View.Camera X),
  View.gFirstMouse w = false ->
  View.g_pCamera w = Some camera ->
  exists w',
    mouse_events X events w = Some w' /\
    View.g_pCamera w'
      = Some (foldl (turn X) camera
                (mouse_offsets (View.gLastX w) (View.gLastY w) events)) /\
    View.gFirstMouse w' = false /\
    (View.gLastX w', View.gLastY w')
      = last_point (View.gLastX w) (View.gLastY w) events /\
    outside_mouse X w' = outside_mouse X w.
Proof.
induction events as [|[x y] events IH]; intros w camera Hfirst Hcamera.
- exists w. repeat split; assumption.
- cbn [mouse_events]. unfold View.Mouse_Position_Callback.
  rewrite Hfirst. cbn [View.g_pCamera View.with_mouse]. rewrite Hcamera.
  match goal with
  | |- context [mouse_events X events ?w1] =>
      destruct (IH w1 (View.ProcessMouseMovement X
                         (F32.of_double (F64.sub x (F64.of_float (View.gLastX w))))
                         (F32.of_double (F64.sub (F64.of_float (View.gLastY w)) y))
                         camera) eq_refl eq_refl)
        as (w' & Hrun & Hturned & Hflag & Hlast & Hout)
  end.
  exists w'. split; [exact Hrun|]. split; [exact Hturned|].
  split; [exact Hflag|]. split; [|exact Hout].
  rewrite Hlast. unfold last_point. cbn [View.gLastX View.gLastY View.with_camera View.with_mouse].
  destruct events as [|event events]; [reflexivity|].
  change (last ((x, y) :: event :: events)) with (last (event :: events)).
  destruct (last (event :: events)) as [point|] eqn:Hpoint; [reflexivity|].
  apply last_None in Hpoint. discriminate.
Qed.

Lemma mouse_offsets_length (lastX lastY : float)
  (events : list (double * double)) :
length (mouse_offsets lastX lastY events) = length events.
Proof.
revert lastX lastY.
induction events as [|[x y] events IH]; intros lastX lastY;
  [reflexivity|].
cbn. rewrite IH. reflexivity.
Qed.
End Mouse.

(** X17. Mouse tracking.  With a camera, a stream of cursor positions
    that begins with the first event is handled completely: the first
    event turns nothing and records its position with 1500 subtracted from
    the ordinate, every later event turns the camera once, by the offset
    from the point recorded before it; in the end the flag of the first
    event is off, the recorded point is the last position, and nothing
    outside the mouse state and the camera has changed. *)
Theorem mouse_events_turn_camera_once_after_the_first :
  forall (X : View.Externals) (x0 y0 : double)
         (events : list (double * double)) (w : View.World X)
         (camera : View.Camera X),
    View.gFirstMouse w = true ->
    View.g_pCamera w = Some camera ->
    let startX := F32.of_double x0 in
    let startY := F32.of_double (F64.sub y0 (F64.of_int 1500)) in
    exists w',
      mouse_events X ((x0, y0) :: events) w = Some w' /\
      View.g_pCamera w'
        = Some (foldl (turn X) camera (mouse_offsets startX startY events)) /\
      length (mouse_offsets startX startY events) = length events /\
      View.gFirstMouse w' = false /\
      (View.gLastX w', View.gLastY w') = last_point startX startY events /\
      outside_mouse X w' = outside_mouse X w.
Proof.
  intros X x0 y0 events w camera Hfirst Hcamera startX startY.
  cbn [mouse_events]. unfold View.Mouse_Position_Callback. rewrite Hfirst.
  destruct (mouse_events_tracking X events
              (View.with_mouse X startX startY false w) camera eq_refl Hcamera)
    as (w' & Hrun & Hturned & Hflag & Hlast & Hout).
  exists w'. split; [exact Hrun|]. split; [exact Hturned|].
  split; [apply mouse_offsets_length|]. split; [exact Hflag|].
  split; [exact Hlast|exact Hout].
Qed.

Lemma mouse_events_turn_camera_once_after_the_first_witness :
  exists w',
    mouse_events logging_camera
      [(700.0, 600.0)%d; (700.0, 600.0)%d; (710.0, 590.0)%d]
      (fresh_view None (Some [])) = Some w' /\
    View.g_pCamera w'
      = Some [Turned 0.0%f (SFopp 1500.0%f); Turned 10.0%f 10.0%f] /\
    View.gFirstMouse w' = false /\
    (View.gLastX w', View.gLastY w') = (710.0%f, 590.0%f).
Proof.
  destruct (mouse_events_turn_camera_once_after_the_first logging_camera
              (700.0)%d (600.0)%d [(700.0, 600.0)%d; (710.0, 590.0)%d]
              (fresh_view None (Some [])) [] eq_refl eq_refl)
    as (w' & Hrun & Hturned & _ & Hflag & Hlast & _).
  exists w'. split; [exact Hrun|]. split; [|split; [exact Hflag|]].
  - rewrite Hturned. vm_compute. reflexivity.
  - rewrite Hlast. vm_compute. reflexivity.
Defined.

(** ** The view manager without a camera *)

Lemma ProcessKeyboardEvents_null_camera (X : View.Externals)
    (w : View.World X) window :
  View.m_pWindow (View.this w) = Some window ->
  View.g_pCamera w = None ->
  View.ProcessKeyboardEvents X w
  = Some (if View.key_pressed window View.GLFW_KEY_ESCAPE
          then View.with_this X
                 (View.with_window
                    (Some (View.glfwSetWindowShouldClose window))
                    (View.this w)) w
          else w).
Proof.
  intros Hwindow Hnull. unfold View.ProcessKeyboardEvents. rewrite Hwindow.
  destruct (View.key_pressed window View.GLFW_KEY_ESCAPE);
    cbn [View.g_pCamera View.with_this]; rewrite Hnull; reflexivity.
Qed.

(** X18. Without a camera, only the first cursor event and the keyboard
    handling are defined: a scroll event and every cursor event after the
    first dereference the null pointer, and so does [PrepareSceneView],
    after a keyboard handling that has tested the pointer and returned. *)
Theorem view_without_camera :
  forall (X : View.Externals) (w : View.World X),
    View.g_pCamera w = None ->
    (forall x y, View.Mouse_Scroll_Callback X x y w = None) /\
    (forall x y,
        View.Mouse_Position_Callback X x y w
        = if View.gFirstMouse w then
            Some (View.with_mouse X (F32.of_double x)
                    (F32.of_double (F64.sub y (F64.of_int 1500))) false w)
          else None) /\
    (forall x y x' y', mouse_events X [(x, y); (x', y')] w = None) /\
    (forall now window,
        View.m_pWindow (View.this w) = Some window ->
        (exists w',
            View.ProcessKeyboardEvents X w = Some w' /\
            View.g_pCamera w' = None) /\
        View.PrepareSceneView X now w = None).
Proof.
  intros X w Hnull. split; [|split; [|split]].
  - intros x y. unfold View.Mouse_Scroll_Callback. rewrite Hnull. reflexivity.
  - intros x y. unfold View.Mouse_Position_Callback.
    destruct (View.gFirstMouse w); [reflexivity|].
    cbn [View.g_pCamera View.with_mouse]. rewrite Hnull. reflexivity.
  - intros x y x' y'. cbn [mouse_events].
    unfold View.Mouse_Position_Callback.
    destruct (View.gFirstMouse w);
      cbn [View.g_pCamera View.with_mouse View.gFirstMouse];
      rewrite Hnull; reflexivity.
  - intros now window Hwindow. split.
    + rewrite (ProcessKeyboardEvents_null_camera X w window Hwindow Hnull).
      eexists. split; [reflexivity|].
      destruct (View.key_pressed window View.GLFW_KEY_ESCAPE); exact Hnull.
    + unfold View.PrepareSceneView. cbv zeta.
      rewrite (ProcessKeyboardEvents_null_camera X
                 (View.with_timing X (F32.of_double now - View.gLastFrame w)%f
                    (F32.of_double now) w) window Hwindow Hnull).
      destruct (View.key_pressed window View.GLFW_KEY_ESCAPE);
        cbn [View.g_pCamera View.with_this View.with_timing];
        rewrite Hnull; reflexivity.
Qed.

Lemma view_without_camera_witness :
  View.Mouse_Scroll_Callback logging_camera (0.0)%d (1.0)%d
    (fresh_view (Some {| View.keys_down := [View.GLFW_KEY_W];
                         View.should_close := false |}) None) = None /\
  View.PrepareSceneView logging_camera (0.5)%d
    (fresh_view (Some {| View.keys_down := [View.GLFW_KEY_W];
                         View.should_close := false |}) None) = None.
Proof.
  destruct (view_without_camera logging_camera
              (fresh_view (Some {| View.keys_down := [View.GLFW_KEY_W];
                                   View.should_close := false |}) None)
              eq_refl)
    as (Hscroll & _ & _ & Hframe).
  split; [apply Hscroll|].
  apply (Hframe (0.5)%d _ eq_refl).
Defined.

(** ** The view manager: keyboard *)

Section Keyboard.
Variable X : View.Externals.

Lemma move_if_released window key direction deltaTime
  (camera : View.Camera X) :
View.key_pressed window key = false ->
View.move_if_pressed X window key direction deltaTime camera = camera.
Proof. intros Hkey. unfold View.move_if_pressed. rewrite Hkey. reflexivity. Qed.

(** The keyboard handling with a window and a camera. *)
Lemma ProcessKeyboardEvents_run (w : View.World X) window camera :
View.m_pWindow (View.this w) = Some window ->
View.g_pCamera w = Some camera ->
exists w' camera',
  View.ProcessKeyboardEvents X w = Some w' /\
  View.g_pCamera w' = Some camera' /\
  View.m_pWindow (View.this w')
    = Some (if View.key_pressed window View.GLFW_KEY_ESCAPE
            then View.glfwSetWindowShouldClose window else window) /\
  (View.bOrthographicProjection w', View.projection (View.this w'))
    = (if View.key_pressed window View.GLFW_KEY_O
       then (true, View.projection (View.SetOrthographic X (View.this w)))
       else if View.key_pressed window View.GLFW_KEY_P
       then (false, View.projection (View.SetPerspective X (View.this w)))
       else (View.bOrthographicProjection w, View.projection (View.this w))) /\
  (Forall (fun key => View.key_pressed window key = false) movement_keys ->
   camera' = camera) /\
  outside_keyboard X w' = outside_keyboard X w.
Proof.
intros Hwindow Hcamera. unfold View.ProcessKeyboardEvents.
rewrite Hwindow.
destruct (View.key_pressed window View.GLFW_KEY_ESCAPE);
  cbn [View.g_pCamera View.with_this]; rewrite Hcamera;
  destruct (View.key_pressed window View.GLFW_KEY_P);
  destruct (View.key_pressed window View.GLFW_KEY_O);
  (eexists _, _; split; [reflexivity|]; split; [reflexivity|];
   split; [first [reflexivity|exact Hwindow]|];
   split; [reflexivity|]; split; [|reflexivity];
   intros Hreleased; unfold movement_keys in Hreleased;
   repeat match goal with
          | H : Forall _ (_ :: _) |- _ =>
              apply Forall_cons in H as [? H]
          end;
   rewrite !move_if_released by assumption; reflexivity).
Qed.
End Keyboard.

(** X19. The keyboard handling with a window and a camera returns and keeps
    both.  The projection is switched by O before P: with O held the
    projection is the orthographic one and the flag is on, whatever P is;
    with P alone it is the perspective one and the flag is off; with
    neither, both are what they were.  Escape marks the window for closing.
    With none of W, S, A, D, Q, E held the camera is not moved; the shader,
    the aspect ratio, the mouse state and the frame times are never
    touched. *)
Theorem keyboard_switches_projection_and_keeps_pointers :
  forall (X : View.Externals) (w : View.World X) (window : View.GLFWwindow)
         (camera : View.Camera X),
    View.m_pWindow (View.this w) = Some window ->
    View.g_pCamera w = Some camera ->
    exists w' camera',
      View.ProcessKeyboardEvents X w = Some w' /\
      View.g_pCamera w' = Some camera' /\
      View.m_pWindow (View.this w')
        = Some (if View.key_pressed window View.GLFW_KEY_ESCAPE
                then View.glfwSetWindowShouldClose window else window) /\
      (View.bOrthographicProjection w', View.projection (View.this w'))
        = (if View.key_pressed window View.GLFW_KEY_O
           then (true, View.projection (View.SetOrthographic X (View.this w)))
           else if View.key_pressed window View.GLFW_KEY_P
           then (false, View.projection (View.SetPerspective X (View.this w)))
           else (View.bOrthographicProjection w,
                 View.projection (View.this w))) /\
      (Forall (fun key => View.key_pressed window key = false) movement_keys ->
       camera' = camera) /\
      outside_keyboard X w' = outside_keyboard X w.
Proof.
  intros X w window camera. apply ProcessKeyboardEvents_run.
Qed.

Lemma keyboard_switches_projection_and_keeps_pointers_witness :
  exists w',
    View.ProcessKeyboardEvents logging_camera
      (fresh_view (Some {| View.keys_down :=
                             [View.GLFW_KEY_P; View.GLFW_KEY_O;
                              View.GLFW_KEY_ESCAPE];
                           View.should_close := false |}) (Some []))
    = Some w' /\
    View.g_pCamera w' = Some [] /\
    View.bOrthographicProjection w' = true /\
    (View.should_close <$> View.m_pWindow (View.this w')) = Some true.
Proof.
  destruct (keyboard_switches_projection_and_keeps_pointers logging_camera
              (fresh_view (Some {| View.keys_down :=
                                     [View.GLFW_KEY_P; View.GLFW_KEY_O;
                                      View.GLFW_KEY_ESCAPE];
                                   View.should_close := false |}) (Some []))
              _ [] eq_refl eq_refl)
    as (w' & camera' & Hrun & Hcamera & Hwindow & Hswitch & Hstill & _).
  exists w'. split; [exact Hrun|]. split; [|split].
  - rewrite Hcamera, Hstill; [reflexivity|].
    repeat constructor.
  - change (View.bOrthographicProjection w')
      with (fst (View.bOrthographicProjection w',
                 View.projection (View.this w'))).
    rewrite Hswitch. reflexivity.
  - rewrite Hwindow. reflexivity.
Defined.

(** ** The view manager: one frame *)

Section Frame.
Variable X : View.Externals.

Lemma PrepareSceneView_run (now : double) (w wk : View.World X) camera :
View.ProcessKeyboardEvents X
  (View.with_timing X (F32.of_double now - View.gLastFrame w)%f
     (F32.of_double now) w) = Some wk ->
View.g_pCamera wk = Some camera ->
View.PrepareSceneView X now w
= Some match View.m_pShaderManager (View.this wk) with
       | Some sh =>
           View.with_this X
             (View.with_view_shader
                (Some (setVec3Value "viewPosition" (View.Position X camera)
                         (setMat4Value View.g_ProjectionName
                            (View.projection (View.this wk))
                            (setMat4Value View.g_ViewName
                               (View.GetViewMatrix X camera) sh))))
                (View.this wk)) wk
       | None => wk
       end.
Proof.
intros Hkeys Hcamera. unfold View.PrepareSceneView. cbv zeta.
rewrite Hkeys, Hcamera.
destruct (View.m_pShaderManager (View.this wk)); reflexivity.
Qed.
End Frame.

(** X20. One frame.  With a window and a camera [PrepareSceneView]
    returns and keeps both; the frame time becomes the current time and the
    time step the difference to the previous frame time; and an attached
    shader receives the view matrix and the position of the camera as the
    keys of this frame have moved it, and the projection as the keys of
    this frame have switched it, its other uniforms being kept.  Without a
    shader none is attached afterwards. *)
Theorem PrepareSceneView_shows_this_frame :
  forall (X : View.Externals) (now : double) (w : View.World X)
         (window : View.GLFWwindow) (camera : View.Camera X),
    View.m_pWindow (View.this w) = Some window ->
    View.g_pCamera w = Some camera ->
    exists w' camera',
      View.PrepareSceneView X now w = Some w' /\
      View.g_pCamera w' = Some camera' /\
      is_Some (View.m_pWindow (View.this w')) /\
      View.gLastFrame w' = F32.of_double now /\
      View.gDeltaTime w' = (F32.of_double now - View.gLastFrame w)%f /\
      (Forall (fun key => View.key_pressed window key = false) movement_keys ->
       camera' = camera) /\
      match View.m_pShaderManager (View.this w) with
      | Some sh =>
          exists sh',
            View.m_pShaderManager (View.this w') = Some sh' /\
            uniforms sh' !! View.g_ViewName
              = Some (UMat4 (View.GetViewMatrix X camera')) /\
            uniforms sh' !! View.g_ProjectionName
              = Some (UMat4 (View.projection (View.this w'))) /\
            uniforms sh' !! "viewPosition"
              = Some (UVec3 (View.Position X camera')) /\
            (forall name,
                (name ∉ view_uniform_names) ->
                uniforms sh' !! name = uniforms sh !! name)
      | None => View.m_pShaderManager (View.this w') = None
      end.
Proof.
  intros X now w window camera Hwindow Hcamera.
  destruct (ProcessKeyboardEvents_run X
              (View.with_timing X (F32.of_double now - View.gLastFrame w)%f
                 (F32.of_double now) w) window camera Hwindow Hcamera)
    as (wk & camera' & Hkeys & Hcamera' & Hwindow' & _ & Hstill & Hout).
  rewrite (PrepareSceneView_run X now w wk camera' Hkeys Hcamera').
  unfold outside_keyboard in Hout.
  cbn [View.this View.with_timing View.gLastX View.gLastY View.gFirstMouse
       View.gDeltaTime View.gLastFrame] in Hout.
  injection Hout as Hshader _ _ _ _ Hdelta Hlast.
  rewrite Hshader.
  destruct (View.m_pShaderManager (View.this w)) as [sh|] eqn:Hsh.
  - eexists _, camera'. split; [reflexivity|].
    cbn [View.g_pCamera View.with_this View.this View.with_view_shader
         View.m_pWindow View.gLastFrame View.gDeltaTime
         View.m_pShaderManager View.projection].
    split; [exact Hcamera'|]. split; [rewrite Hwindow'; eauto|].
    split; [exact Hlast|]. split; [exact Hdelta|]. split; [exact Hstill|].
    eexists. split; [reflexivity|].
    unfold setVec3Value, setMat4Value, set_uniform. cbn [uniforms].
    split; [|split; [|split]].
    + rewrite lookup_insert_ne by discriminate.
      rewrite lookup_insert_ne by discriminate.
      apply lookup_insert_eq.
    + rewrite lookup_insert_ne by discriminate. apply lookup_insert_eq.
    + apply lookup_insert_eq.
    + intros name Hname. unfold view_uniform_names in Hname.
      rewrite !lookup_insert_ne; [reflexivity| | |];
        intros <-; apply Hname; set_solver.
  - exists wk, camera'. split; [reflexivity|].
    split; [exact Hcamera'|]. split; [rewrite Hwindow'; eauto|].
    split; [exact Hlast|]. split; [exact Hdelta|]. split; [exact Hstill|].
    exact Hshader.
Qed.

Lemma PrepareSceneView_shows_this_frame_witness :
  exists w' sh',
    View.PrepareSceneView logging_camera (0.5)%d
      (fresh_view (Some {| View.keys_down := [View.GLFW_KEY_O];
                           View.should_close := false |}) (Some []))
    = Some w' /\
    View.g_pCamera w' = Some [] /\
    View.gDeltaTime w' = 0.5%f /\
    View.m_pShaderManager (View.this w') = Some sh' /\
    uniforms sh' !! "projection"
      = Some (UMat4 (View.projection (View.this w'))).
Proof.
  destruct (PrepareSceneView_shows_this_frame logging_camera (0.5)%d
              (fresh_view (Some {| View.keys_down := [View.GLFW_KEY_O];
                                   View.should_close := false |}) (Some []))
              _ [] eq_refl eq_refl)
    as (w' & camera' & Hrun & Hcamera & _ & _ & Hdelta & Hstill & Hshader).
  cbn [View.m_pShaderManager View.this fresh_view View.SetPerspective
       View.with_projection] in Hshader.
  destruct Hshader as (sh' & Hsh' & _ & Hprojection & _).
  exists w', sh'. split; [exact Hrun|]. split; [|split; [|split]].
  - rewrite Hcamera, Hstill; [reflexivity|]. repeat constructor.
  - rewrite Hdelta. vm_compute. reflexivity.
  - exact Hsh'.
  - exact Hprojection.
Defined.
